(** * The boundary acquisition and join engine, embedded in Rocq

    A shallow embedding of the engine of the choropleth tool:
    - [tools/alice_choropleth.py]: the command-line join tool (state
      resolver, source resolver, fetch and cache layer, per-level joins,
      derived rates);
    - [tools/local_api.py]: the serving layer (state resolver with scope
      tokens, key normalizer, join endpoint, derived rates);
    - [tools/prefetch_tiger.py]: the cache prefetcher (download, source
      resolver).

    Python text is modelled by [string] (ASCII text: on it [\d] is [0-9],
    [str.upper] maps [a-z] to [A-Z] and [str.strip] removes the ASCII
    white space of [str.isspace]).  Python integers are [Z], float64
    values are the kernel's binary64 floats, a raised exception is a value
    of [exn] returned on the left of a sum, and everything the code does
    to the network, the clock and the file system is threaded through an
    explicit [world]. *)

From Stdlib Require Import ZArith List String Ascii Bool Lia Floats.
From stdpp Require Import base option list gmap strings pretty.

Import ListNotations.
Local Open Scope string_scope.
Local Open Scope Z_scope.

(** ** Exceptions *)

(** One constructor per [raise] site of the three modules, plus the
    exceptions that the libraries the code calls can raise into it.  All
    of them are instances of Python's [Exception], the class the [except]
    clauses of the code name. *)
Inductive exn : Type :=
  (* alice_choropleth.normalize_state *)
  | ValueError_UnknownStateFips (fips : string)
  | ValueError_StateToken (state : string)
  (* local_api.norm_state: HTTPException(status_code=400, ...) *)
  | HTTP400_StateRequired
  | HTTP400_UnknownStateFips (t : string)
  | HTTP400_UnknownState (token : string)
  (* local_api.normalize_csv_key: HTTPException(status_code=400, ...) *)
  | HTTP400_NoJoinColumn (candidates : list string)
  (* alice_choropleth.resolve_first_available *)
  | RuntimeError_OfflineNoneCached
  | RuntimeError_NoneAvailable (urls : list string)
  (* prefetch_tiger.resolve_first_available *)
  | RuntimeError_NoAvailableUrl (urls : list string)
  (* alice_choropleth.prepare_zcta *)
  | ValueError_MissingColumn (what : string)
  (* alice_choropleth.download_to_temp *)
  | RuntimeError_OfflineNotCached (url : string)
  | RuntimeError_HTTP (status_code : Z)
  | UnboundLocalError_resp
  (* prefetch_tiger.download *)
  | RuntimeError_FailedAfter (attempt : Z) (url : string) (last_err : exn)
  (* requests: Response.raise_for_status and the transport *)
  | HTTPError (status_code : Z)
  | RequestException (what : string)
  (* pandas / geopandas / shapely / the operating system *)
  | LibraryError (what : string).

(** The result of a call that may raise. *)
Definition result (A : Type) : Type := exn + A.

Definition raise {A : Type} (e : exn) : result A := inl e.
Definition ret {A : Type} (a : A) : result A := inr a.

Definition bind {A B : Type} (m : result A) (k : A -> result B) : result B :=
  match m with
  | inl e => inl e
  | inr a => k a
  end.

Notation "'let!' x ':=' m 'in' k" := (bind m (fun x => k))
  (at level 10, x name, m at level 100, k at level 200).

(** [try: body except Exception: handler]. *)
Definition try_except {A : Type} (body : result A) (handler : exn -> result A)
  : result A :=
  match body with
  | inl e => handler e
  | inr a => inr a
  end.

(** ** Python text operations *)

Module PyStr.

Definition chars (s : string) : list ascii := list_ascii_of_string s.
Definition text (l : list ascii) : string := string_of_list_ascii l.

Definition code (c : ascii) : N := N_of_ascii c.

(** [\d] and [str.isdigit] on ASCII text. *)
Definition is_digit (c : ascii) : bool :=
  (N.leb 48 (code c) && N.leb (code c) 57)%bool.

(** [str.isspace] on ASCII text: TAB, LF, VT, FF, CR, FS, GS, RS, US and
    the space. *)
Definition is_space (c : ascii) : bool :=
  ((N.leb 9 (code c) && N.leb (code c) 13)
   || (N.leb 28 (code c) && N.leb (code c) 32))%bool.

Definition is_lower (c : ascii) : bool :=
  (N.leb 97 (code c) && N.leb (code c) 122)%bool.

Definition upper_char (c : ascii) : ascii :=
  if is_lower c then ascii_of_N (code c - 32) else c.

(** [s.upper()] *)
Definition upper (s : string) : string := text (map upper_char (chars s)).

Fixpoint drop_while (p : ascii -> bool) (l : list ascii) : list ascii :=
  match l with
  | [] => []
  | c :: l' => if p c then drop_while p l' else l
  end.

Fixpoint take_while (p : ascii -> bool) (l : list ascii) : list ascii :=
  match l with
  | [] => []
  | c :: l' => if p c then c :: take_while p l' else []
  end.

(** [s.strip()] *)
Definition strip (s : string) : string :=
  text (rev (drop_while is_space (rev (drop_while is_space (chars s))))).

(** [len(s)] *)
Definition len (s : string) : Z := Z.of_nat (String.length s).

(** [s.isdigit()]: non-empty and all digits. *)
Definition isdigit (s : string) : bool :=
  match chars s with
  | [] => false
  | l => forallb is_digit l
  end.

(** [re.fullmatch(r"\d{2}", s)] as a truth value. *)
Definition fullmatch_2digits (s : string) : bool :=
  match chars s with
  | [a; b] => (is_digit a && is_digit b)%bool
  | _ => false
  end.

(** [re.search(r"(\d+)", s)]: group 1 of the first match, [None] when
    the text has no digit.  The match starts at the first digit of the
    text and, [+] being greedy, runs to the end of that run of digits. *)
Definition search_digits (s : string) : option string :=
  match drop_while (fun c => negb (is_digit c)) (chars s) with
  | [] => None
  | l => Some (text (take_while is_digit l))
  end.

(** ['0' * n] *)
Definition zeros (n : nat) : string := text (repeat "0"%char n).

(** [s.zfill(width)]: a sign, if the text starts with one, stays in
    front of the zeros; a text of [width] characters or more is
    returned as it is.  ([Series.str.zfill] of older pandas versions puts
    the zeros in front of a sign; on a text that starts with no sign, as
    every run of digits does, the two are the same.) *)
Definition zfill (width : Z) (s : string) : string :=
  let pad := zeros (Z.to_nat (width - len s)) in
  match s with
  | String c rest =>
      if (Ascii.eqb c "+" || Ascii.eqb c "-")%bool
      then String c (pad ++ rest)
      else pad ++ s
  | EmptyString => pad
  end.

(** [s.endswith(suffix)] *)
Definition endswith (s suffix : string) : bool :=
  let n := String.length s in
  let m := String.length suffix in
  ((m <=? n)%nat && String.eqb (String.substring (n - m) m s) suffix)%bool.

(** [os.path.basename(p)] on POSIX: what follows the last slash. *)
Fixpoint basename_aux (l acc : list ascii) : list ascii :=
  match l with
  | [] => acc
  | c :: l' =>
      if Ascii.eqb c "/" then basename_aux l' [] else basename_aux l' (acc ++ [c])
  end.

Definition basename (p : string) : string := text (basename_aux (chars p) []).

Definition ends_with_slash (a : string) : bool :=
  match rev (chars a) with
  | c :: _ => Ascii.eqb c "/"
  | [] => false
  end.

(** [os.path.join(a, b)] on POSIX, for two components. *)
Definition path_join (a b : string) : string :=
  match b with
  | String c _ =>
      if Ascii.eqb c "/" then b
      else if (String.eqb a EmptyString || ends_with_slash a)%bool then a ++ b
      else a ++ "/" ++ b
  | EmptyString =>
      if (String.eqb a EmptyString || ends_with_slash a)%bool then a else a ++ "/"
  end.

End PyStr.

(** ** State helpers *)

Module States.

(** The dict literal [STATE_ABBR_TO_FIPS], in insertion order (the order
    in which [dict.items()] yields it).  [alice_choropleth.py] and
    [local_api.py] carry the same literal; [prefetch_tiger.py] imports
    the former. *)
Definition STATE_ABBR_TO_FIPS : list (string * string) :=
  [ ("AL","01"); ("AK","02"); ("AZ","04"); ("AR","05"); ("CA","06");
    ("CO","08"); ("CT","09"); ("DE","10"); ("DC","11");
    ("FL","12"); ("GA","13"); ("HI","15"); ("ID","16"); ("IL","17");
    ("IN","18"); ("IA","19"); ("KS","20"); ("KY","21");
    ("LA","22"); ("ME","23"); ("MD","24"); ("MA","25"); ("MI","26");
    ("MN","27"); ("MS","28"); ("MO","29"); ("MT","30");
    ("NE","31"); ("NV","32"); ("NH","33"); ("NJ","34"); ("NM","35");
    ("NY","36"); ("NC","37"); ("ND","38"); ("OH","39");
    ("OK","40"); ("OR","41"); ("PA","42"); ("RI","44"); ("SC","45");
    ("SD","46"); ("TN","47"); ("TX","48"); ("UT","49");
    ("VT","50"); ("VA","51"); ("WA","53"); ("WV","54"); ("WI","55");
    ("WY","56");
    ("AS","60"); ("GU","66"); ("MP","69"); ("PR","72"); ("VI","78");
    ("UM","74") ].

(** The literal of [local_api.py], entry by entry as it is laid out
    there. *)
Definition STATE_ABBR_TO_FIPS_api : list (string * string) :=
  [ ("AL","01"); ("AK","02"); ("AZ","04"); ("AR","05"); ("CA","06");
    ("CO","08"); ("CT","09"); ("DE","10"); ("DC","11");
    ("FL","12"); ("GA","13"); ("HI","15"); ("ID","16"); ("IL","17");
    ("IN","18"); ("IA","19"); ("KS","20"); ("KY","21");
    ("LA","22"); ("ME","23"); ("MD","24"); ("MA","25"); ("MI","26");
    ("MN","27"); ("MS","28"); ("MO","29"); ("MT","30");
    ("NE","31"); ("NV","32"); ("NH","33"); ("NJ","34"); ("NM","35");
    ("NY","36"); ("NC","37"); ("ND","38"); ("OH","39");
    ("OK","40"); ("OR","41"); ("PA","42"); ("RI","44"); ("SC","45");
    ("SD","46"); ("TN","47"); ("TX","48"); ("UT","49");
    ("VT","50"); ("VA","51"); ("WA","53"); ("WV","54"); ("WI","55");
    ("WY","56"); ("AS","60"); ("GU","66"); ("MP","69");
    ("PR","72"); ("VI","78"); ("UM","74") ].

(** [d[k]] / [k in d] on a dict given by its items. *)
Fixpoint dict_get (d : list (string * string)) (k : string) : option string :=
  match d with
  | [] => None
  | (k', v) :: d' => if String.eqb k' k then Some v else dict_get d' k
  end.

(** [next((k for k, v in d.items() if v == fips), None)] *)
Fixpoint first_key_of (d : list (string * string)) (fips : string)
  : option string :=
  match d with
  | [] => None
  | (k, v) :: d' => if String.eqb v fips then Some k else first_key_of d' fips
  end.

(** Truth value of an optional text: [None] and [''] are false. *)
Definition truthy (o : option string) : bool :=
  match o with
  | Some (String _ _) => true
  | _ => false
  end.

(** [alice_choropleth.normalize_state] *)
Definition normalize_state (state : string) : result (string * string) :=
  let s := PyStr.strip state in
  if PyStr.fullmatch_2digits s then
    let fips := s in
    match first_key_of STATE_ABBR_TO_FIPS fips with
    | Some abbr =>
        if truthy (Some abbr) then ret (abbr, fips)
        else raise (ValueError_UnknownStateFips fips)
    | None => raise (ValueError_UnknownStateFips fips)
    end
  else
    let s_up := PyStr.upper s in
    match dict_get STATE_ABBR_TO_FIPS s_up with
    | Some fips => ret (s_up, fips)
    | None => raise (ValueError_StateToken state)
    end.

(** The region names tested by [norm_state]. *)
Definition REGION_TOKENS : list string :=
  ["NORTHEAST"; "MIDWEST"; "SOUTH"; "WEST"].

Definition mem (x : string) (l : list string) : bool :=
  existsb (String.eqb x) l.

(** [local_api.norm_state] *)
Definition norm_state (token : string) : result (string * string) :=
  let t := PyStr.strip token in
  if String.eqb t EmptyString then raise HTTP400_StateRequired
  else if String.eqb t "US" then ret ("US", "US")
  else if mem t REGION_TOKENS then ret (t, t)
  else if (Z.eqb (PyStr.len t) 2 && PyStr.isdigit t)%bool then
    let fips := t in
    match first_key_of STATE_ABBR_TO_FIPS_api fips with
    | Some abbr =>
        if truthy (Some abbr) then ret (abbr, fips)
        else raise (HTTP400_UnknownStateFips t)
    | None => raise (HTTP400_UnknownStateFips t)
    end
  else
    let t' := PyStr.upper t in
    match dict_get STATE_ABBR_TO_FIPS_api t' with
    | Some fips => ret (t', fips)
    | None => raise (HTTP400_UnknownState token)
    end.

(** The scope tokens of the serving layer. *)
Definition SCOPE_TOKENS : list string := "US" :: REGION_TOKENS.

(** A pair of an abbreviation and a code that is an entry of the table,
    and the only entry with that abbreviation or with that code. *)
Definition single_entry (abbr fips : string) : Prop :=
  In (abbr, fips) STATE_ABBR_TO_FIPS
  /\ forall a f, In (a, f) STATE_ABBR_TO_FIPS ->
       a = abbr \/ f = fips -> a = abbr /\ f = fips.

(** The error class the specification calls [UnknownState]. *)
Definition UnknownState (e : exn) : Prop :=
  match e with
  | ValueError_UnknownStateFips _ | ValueError_StateToken _
  | HTTP400_UnknownStateFips _ | HTTP400_UnknownState _ => True
  | _ => False
  end.

End States.

(** ** Tables *)

Module Frame.

(** A pandas Series by dtype.  A missing value is NaN in a [float64]
    column and [None] here in an [object] column of texts. *)
Inductive series : Type :=
  | Float64 (xs : list float)
  | Int64 (xs : list Z)
  | Object (xs : list (option string)).

(** A DataFrame as the mapping from column labels to columns that
    [df[c]], [c in df.columns] and [df[c] = s] work on. *)
Definition frame : Type := gmap string series.

(** [c in df.columns] *)
Definition has_column (df : frame) (c : string) : bool :=
  bool_decide (is_Some (df !! c)).

(** [all(c in df.columns for c in needed)] *)
Definition has_columns (df : frame) (needed : list string) : bool :=
  forallb (has_column df) needed.

(** An integer as a float64: the nearest double, ties to even, and an
    infinity past the largest double.  This is [int64 -> float64] on a
    column, and [float(n)] on a Python int wherever the result is finite. *)
Definition float_of_int (n : Z) : float :=
  SF2Prim (binary_normalize prec emax n 0 false).

Definition nan : float := PrimFloat.nan.

Section Conversions.

(** [float(s)] and [str(x)] on a float are Python's own parser and
    printer; the engine only calls them. *)
Variable parse_float : string -> option float.
Variable float_str : float -> string.

(** [int.__str__] *)
Definition int_str (n : Z) : string := pretty n.

Fixpoint parse_floats (xs : list (option string)) : result (list float) :=
  match xs with
  | [] => ret []
  | None :: xs' => let! ys := parse_floats xs' in ret (nan :: ys)
  | Some s :: xs' =>
      match parse_float s with
      | Some x => let! ys := parse_floats xs' in ret (x :: ys)
      | None => raise (LibraryError "ValueError: could not convert string to float")
      end
  end.

(** [s.astype(float)] *)
Definition astype_float (s : series) : result (list float) :=
  match s with
  | Float64 xs => ret xs
  | Int64 xs => ret (map float_of_int xs)
  | Object xs => parse_floats xs
  end.

(** [s.astype(str)]: every value through [str], a missing one as ['nan']. *)
Definition astype_str (s : series) : list string :=
  match s with
  | Float64 xs => map float_str xs
  | Int64 xs => map int_str xs
  | Object xs => map (fun o => match o with Some t => t | None => "nan" end) xs
  end.

End Conversions.

End Frame.

(** ** Key normalizer *)

Module Keys.

Import Frame.

(** The levels the serving layer names. *)
Definition LEVELS : list string :=
  ["state"; "county"; "place"; "subcounty"; "tract"; "bg"; "zcta"].

(** [defaults.get(level, ['GEOID'])] of [normalize_csv_key] *)
Definition defaults (level : string) : list string :=
  if String.eqb level "state" then
    ["STATEFP"; "statefp"; "STATE"; "state"; "STUSPS"; "stusps"; "GEOID"; "FIPS"]
  else if String.eqb level "county" then
    ["GEOID"; "FIPS"; "FIPS5"; "COUNTYFP"; "CountyFIPS"]
  else if String.eqb level "place" then ["GEOID"; "PlaceGEOID"]
  else if String.eqb level "subcounty" then ["GEOID"]
  else if String.eqb level "tract" then ["GEOID"]
  else if String.eqb level "bg" then ["GEOID"]
  else if String.eqb level "zcta" then
    ["ZIP"; "Zip"; "zip"; "ZCTA"; "ZCTA5"; "GEOID"]
  else ["GEOID"].

(** The width each branch of [normalize_csv_key] passes to [zfill];
    [None] on the final [else], which leaves the text as it is. *)
Definition key_width (level : string) : option Z :=
  if String.eqb level "state" then Some 2
  else if String.eqb level "county" then Some 5
  else if String.eqb level "place" then Some 7
  else if String.eqb level "subcounty" then Some 10
  else if String.eqb level "tract" then Some 11
  else if String.eqb level "bg" then Some 12
  else if String.eqb level "zcta" then Some 5
  else None.

(** One value through [.str.extract(r'(\d+)')[0].str.zfill(w)]: missing
    when the text has no digit. *)
Definition extract_zfill (w : Z) (s : string) : option string :=
  PyStr.zfill w <$> PyStr.search_digits s.

(** [.fillna('')] on one value. *)
Definition fillna_empty (o : option string) : string :=
  match o with
  | Some t => t
  | None => EmptyString
  end.

(** The value of [df['_J']] that [normalize_csv_key] derives from one
    value [s] of [df[key].astype(str)]. *)
Definition normalize_key (level : string) (s : string) : string :=
  match key_width level with
  | Some w => fillna_empty (extract_zfill w s)
  | None => s
  end.

(** [next((c for c in candidates if c in df.columns), None)] *)
Definition first_present (df : frame) (candidates : list string) : option string :=
  List.find (has_column df) candidates.

Section Normalizer.

Variable float_str : float -> string.

(** [local_api.normalize_csv_key]; [provided] is the optional form field
    [join_col]. *)
Definition normalize_csv_key (level : string) (df : frame) (provided : option string)
  : result (frame * string) :=
  let candidates :=
    if States.truthy provided then
      match provided with Some p => [p] | None => [] end
    else defaults level in
  match first_present df candidates with
  | Some (String _ _ as key) =>
      match df !! key with
      | Some col =>
          let s := astype_str float_str col in
          ret (<["_J" := Object (map (fun v => Some (normalize_key level v)) s)]> df, "_J")
      | None => raise (LibraryError "KeyError")
      end
  | _ => raise (HTTP400_NoJoinColumn candidates)
  end.

(** The CSV key of [alice_choropleth.prepare_zcta]:
    [.astype(str).str.extract(r"(\d+)")[0].str.zfill(5)], with no [fillna]. *)
Definition prepare_zcta_csv_key (s : string) : option string :=
  extract_zfill 5 s.

(** The CSV keys of [alice_choropleth.prepare_place] and
    [prepare_cousub]: [.astype(str).str.zfill(7)] and [.str.zfill(10)],
    with no extraction of digits. *)
Definition prepare_place_csv_key (s : string) : string := PyStr.zfill 7 s.
Definition prepare_cousub_csv_key (s : string) : string := PyStr.zfill 10 s.

(** The columns [prepare_zcta] looks for in the CSV, in this order. *)
Definition ZIP_COLUMNS : list string := ["ZIP"; "Zip"; "zip"; "ZCTA"; "ZCTA5"].

(** The CSV side of [prepare_zcta]: the first of the candidate columns
    that is there gives [_ZCTA5]. *)
Definition prepare_zcta_csv (df : frame) : result frame :=
  match first_present df ZIP_COLUMNS with
  | Some (String _ _ as zip_col) =>
      match df !! zip_col with
      | Some col =>
          ret (<["_ZCTA5" := Object (map prepare_zcta_csv_key
                                       (astype_str float_str col))]> df)
      | None => raise (LibraryError "KeyError")
      end
  | _ => raise (ValueError_MissingColumn "CSV missing ZIP/ZCTA column for ZIP level")
  end.

(** The geometry key of [prepare_zcta]:
    [gdf[key].astype(str).str.zfill(5)]; [prepare_place] and
    [prepare_cousub] merge on the [GEOID] of the geometry table as it
    is. *)
Definition prepare_zcta_geometry_key (s : string) : option string :=
  Some (PyStr.zfill 5 s).

(** A text with no digit in it; a text of digits only; a text that
    does not go on with a digit. *)
Definition no_digit (s : string) : Prop :=
  forallb (fun c => negb (PyStr.is_digit c)) (PyStr.chars s) = true.
Definition all_digits (s : string) : Prop :=
  forallb PyStr.is_digit (PyStr.chars s) = true.
Definition no_digit_ahead (s : string) : Prop :=
  match s with
  | String c _ => PyStr.is_digit c = false
  | EmptyString => True
  end.

(** The widths the specification gives for the derived key. *)
Definition SPEC_WIDTHS : list (string * Z) :=
  [("state", 2); ("county", 5); ("place", 7); ("subcounty", 10);
   ("tract", 11); ("bg", 12); ("zcta", 5)].

(** [local_api.pick_join_key] *)
Definition pick_join_key (level : string) (gdf : frame) : string :=
  if States.mem level ["state"; "county"; "place"; "subcounty"; "tract"; "bg"]
  then "GEOID"
  else if String.eqb level "zcta" then
    if has_column gdf "GEOID20" then "GEOID20"
    else if has_column gdf "GEOID10" then "GEOID10"
    else "ZCTA5CE20"
  else "GEOID".

(** The geometry side of [join]: [gdf['_J'] = gdf[bkey].astype(str)], and
    [.str.zfill(5)] on top at the zcta level. *)
Definition geometry_key (level : string) (s : string) : string :=
  if String.eqb level "zcta" then PyStr.zfill 5 s else s.

End Normalizer.

End Keys.

(** ** Join engine: the merge *)

Module Join.

Section Merge.

(** Rows of the geometry table and of the CSV table, each with the join
    key it carries.  [K] is [string] in [local_api.join] and
    [option string] in [prepare_zcta], whose CSV key can be missing. *)
Context {K L R : Type} `{EqDecision K}.
Variable lkey : L -> K.
Variable rkey : R -> K.

(** The CSV rows whose key equals [k], in the order of the CSV. *)
Definition matches (k : K) (right : list R) : list R :=
  List.filter (fun r => bool_decide (rkey r = k)) right.

(** The output rows that one geometry row gives rise to. *)
Definition merge_row (right : list R) (l : L) : list (L * option R) :=
  match matches (lkey l) right with
  | [] => [(l, None)]
  | ms => map (fun r => (l, Some r)) ms
  end.

(** [left.merge(right, how='left', left_on=..., right_on=...)]: the
    geometry rows in their order, each once per CSV row with the same key,
    or once with no CSV row at all.  An output row is the geometry row
    paired with the CSV row it was matched to; [None] stands for NaN in
    every column that comes from the CSV. *)
Definition merge (left : list L) (right : list R) : list (L * option R) :=
  flat_map (merge_row right) left.

End Merge.

(** The value an output row shows in the CSV column that [col] reads. *)
Definition csv_cell {L R V : Type} (col : R -> V) (row : L * option R) : option V :=
  col <$> row.2.

End Join.

(** ** Join engine: derived rates *)

Module Rates.

Import Frame.

Definition NEEDED : list string :=
  ["Households"; "Poverty Households"; "ALICE Households"].

Definition RATE_COLUMNS : list string :=
  ["Below_ALICE_Rate"; "Poverty_Rate"; "ALICE_Rate"].

(** [a + b] and [a / b] on two columns of one table, value by value. *)
Definition add_series (a b : list float) : list float := zip_with PrimFloat.add a b.
Definition div_series (a b : list float) : list float := zip_with PrimFloat.div a b.

(** [hh > 0] *)
Definition gt_zero (hh : list float) : list bool :=
  map (fun h => PrimFloat.ltb 0%float h) hh.

(** [s.where(cond)]: the value where the condition holds, NaN elsewhere. *)
Definition where_ (s : list float) (cond : list bool) : list float :=
  zip_with (fun x (c : bool) => if c then x else nan) s cond.

(** [df[c]] *)
Definition getitem (df : frame) (c : string) : result series :=
  match df !! c with
  | Some s => ret s
  | None => raise (LibraryError "KeyError")
  end.

Section ComputeRates.

Variable parse_float : string -> option float.

Definition column_as_float (df : frame) (c : string) : result (list float) :=
  let! s := getitem df c in astype_float parse_float s.

(** [local_api.compute_rates]; the table it mutates is the table it
    returns here. *)
Definition compute_rates (df : frame) : result frame :=
  if has_columns df NEEDED then
    let! hh := column_as_float df "Households" in
    let! pov := column_as_float df "Poverty Households" in
    let! alice := column_as_float df "ALICE Households" in
    let below := add_series pov alice in
    let df := <["Below_ALICE_Rate" := Float64 (where_ (div_series below hh) (gt_zero hh))]> df in
    let! pov := column_as_float df "Poverty Households" in
    let df := <["Poverty_Rate" := Float64 (where_ (div_series pov hh) (gt_zero hh))]> df in
    let! alice := column_as_float df "ALICE Households" in
    let df := <["ALICE_Rate" := Float64 (where_ (div_series alice hh) (gt_zero hh))]> df in
    ret df
  else ret df.


End ComputeRates.

(** The three rates of one row, as the formulas above compute them. *)
Definition rate (num hh : float) : float :=
  if PrimFloat.ltb 0%float hh then PrimFloat.div num hh else nan.



End Rates.

(** ** Source resolver and fetch layer *)

Module Net.

Inductive method : Type := HEAD | GET.

Record response : Type := { status_code : Z; content : string }.

(** [Response.raise_for_status] raises for 400 <= status < 600;
    [Response.ok] is true when it does not raise. *)
Definition is_error_status (code : Z) : bool := ((400 <=? code) && (code <? 600))%bool.

Definition ok (r : response) : bool := negb (is_error_status (status_code r)).

Definition raise_for_status (r : response) : result unit :=
  if is_error_status (status_code r) then raise (HTTPError (status_code r))
  else ret tt.

(** [status_code in (429, 500, 502, 503, 504)] *)
Definition TRANSIENT : list Z := [429; 500; 502; 503; 504].
Definition transient (code : Z) : bool := existsb (Z.eqb code) TRANSIENT.

(** What the process does to the outside, in the order it does it: a
    request, with the answer it got (a response, or the exception that
    [requests] raised), and [time.sleep(wait * factor)]. *)
Inductive event : Type :=
  | Request (m : method) (url : string) (answer : result response)
  | Sleep (wait : float) (factor : Z).

(** The outside: the paths for which [os.path.exists] holds, how many
    requests the network has answered, and the events so far (oldest
    first). *)
Record world : Type := {
  files : gset string;
  clock : nat;
  trace : list event
}.

(** The module-level settings of [alice_choropleth.py] ([INSECURE] only
    changes the TLS verification of a request and is left out). *)
Record config : Type := {
  CACHE_DIR : option string;
  OFFLINE : bool;
  MAX_RETRIES : Z;
  RETRY_WAIT : float
}.

(** [range(lo, hi)] *)
Definition py_range (lo hi : Z) : list Z :=
  map (fun i => lo + Z.of_nat i) (seq 0 (Z.to_nat (hi - lo))).

(** How a [for] loop with a [break] and a [raise] in it ends. *)
Inductive loop_exit (A : Type) : Type :=
  | Broke (a : A)
  | Raised (e : exn)
  | Exhausted.
Arguments Broke {A} a.
Arguments Raised {A} e.
Arguments Exhausted {A}.

(** [time.sleep(secs)] on a float (CPython's [time_sleep]): NaN is a
    ValueError, a duration that does not fit 64 bits of nanoseconds an
    OverflowError, a negative one a ValueError; [None] when it sleeps. *)
Definition time_sleep_error (secs : float) : option exn :=
  if PrimFloat.is_nan secs
  then Some (LibraryError "ValueError: Invalid value NaN (not a number)")
  else
    let ns := PrimFloat.mul secs 0x1.dcd65p+29%float in
    if negb (PrimFloat.leb (-0x1p63)%float ns && PrimFloat.ltb ns 0x1p63%float)
    then Some (LibraryError "OverflowError: timestamp too large to convert to C _PyTime_t")
    else if PrimFloat.ltb secs 0%float
    then Some (LibraryError "ValueError: sleep length must be non-negative")
    else None.

(** What [time.sleep(wait * factor)] raises, [factor] being a Python int:
    the product converts the int to a float first, an OverflowError when
    it is too large. *)
Definition sleep_error (wait : float) (factor : Z) : option exn :=
  let f := Frame.float_of_int factor in
  if PrimFloat.is_infinity f
  then Some (LibraryError "OverflowError: int too large to convert to float")
  else time_sleep_error (PrimFloat.mul wait f).

(** [time.sleep(wait * factor)] returns. *)
Definition sleepable (wait : float) (factor : Z) : bool :=
  match sleep_error wait factor with
  | None => true
  | Some _ => false
  end.

Section Network.

(** The answer to the [n]-th request the process makes: a response, or
    the exception that [requests] raises (connection error, timeout). *)
Variable network : nat -> method -> string -> result response.

(** The name [tempfile.mkstemp] picks, and whether
    [os.replace(path, cpath)] succeeds. *)
Variable mkstemp : world -> string.
Variable replace_ok : string -> string -> bool.

Definition request (m : method) (url : string) (w : world)
  : world * result response :=
  let answer := network (clock w) m url in
  ({| files := files w; clock := S (clock w);
      trace := trace w ++ [Request m url answer] |}, answer).

Definition sleep (wait : float) (factor : Z) (w : world) : world * result unit :=
  match sleep_error wait factor with
  | Some e => (w, raise e)
  | None =>
      ({| files := files w; clock := clock w;
          trace := trace w ++ [Sleep wait factor] |}, ret tt)
  end.

Definition write_file (path : string) (w : world) : world :=
  {| files := {[path]} ∪ files w; clock := clock w; trace := trace w |}.

Definition move_file (src dst : string) (w : world) : world :=
  {| files := {[dst]} ∪ (files w ∖ {[src]}); clock := clock w; trace := trace w |}.

(** [os.path.exists(p)] *)
Definition exists_ (w : world) (p : string) : bool := bool_decide (p ∈ files w).

(** [alice_choropleth._cache_path_for] *)
Definition _cache_path_for (cfg : config) (url : string) : option string :=
  if negb (States.truthy (CACHE_DIR cfg)) then None
  else
    match CACHE_DIR cfg with
    | Some dir => Some (PyStr.path_join dir (PyStr.basename url))
    | None => None
    end.

(** [cpath and os.path.exists(cpath)] *)
Definition cached (cfg : config) (w : world) (url : string) : bool :=
  match _cache_path_for cfg url with
  | Some cpath => (States.truthy (Some cpath) && exists_ w cpath)%bool
  | None => false
  end.

(** The inner loop of [resolve_first_available], over the attempts that
    are left for candidate [u]: [Broke] when it returned [u], [Raised]
    when [time.sleep], which stands outside the [try], raised, and
    [Exhausted] when the attempts are over. *)
Fixpoint probe (max_retries : Z) (wait : float) (u : string)
    (attempts : list Z) (w : world) : world * loop_exit unit :=
  match attempts with
  | [] => (w, Exhausted)
  | attempt :: rest =>
      let '(w1, r) := request HEAD u w in
      let returned :=
        match r with
        | inr h => ok h
        | inl _ => false
        end in
      if returned then (w1, Broke tt)
      else if attempt <? max_retries then
        match sleep wait (2 ^ (attempt - 1)) w1 with
        | (w2, inl e) => (w2, Raised e)
        | (w2, inr _) => probe max_retries wait u rest w2
        end
      else probe max_retries wait u rest w1
  end.

(** The outer loop: the candidate it returned, if any. *)
Fixpoint probe_all (max_retries : Z) (wait : float) (urls : list string)
    (w : world) : world * loop_exit string :=
  match urls with
  | [] => (w, Exhausted)
  | u :: rest =>
      match probe max_retries wait u (py_range 1 (max_retries + 1)) w with
      | (w1, Broke _) => (w1, Broke u)
      | (w1, Raised e) => (w1, Raised e)
      | (w1, Exhausted) => probe_all max_retries wait rest w1
      end
  end.

(** [alice_choropleth.resolve_first_available] *)
Definition resolve_first_available (cfg : config) (urls : list string)
    (w : world) : world * result string :=
  if (OFFLINE cfg && States.truthy (CACHE_DIR cfg))%bool then
    match List.find (cached cfg w) urls with
    | Some u => (w, ret u)
    | None => (w, raise RuntimeError_OfflineNoneCached)
    end
  else
    match probe_all (MAX_RETRIES cfg) (RETRY_WAIT cfg) urls w with
    | (w1, Broke u) => (w1, ret u)
    | (w1, Raised e) => (w1, raise e)
    | (w1, Exhausted) => (w1, raise (RuntimeError_NoneAvailable urls))
    end.

(** [prefetch_tiger.resolve_first_available] *)
Definition prefetch_resolve_first_available (urls : list string)
    (max_retries : Z) (retry_wait : float) (w : world) : world * result string :=
  match probe_all max_retries retry_wait urls w with
  | (w1, Broke u) => (w1, ret u)
  | (w1, Raised e) => (w1, raise e)
  | (w1, Exhausted) => (w1, raise (RuntimeError_NoAvailableUrl urls))
  end.

(** The [try] body of one attempt of [download_to_temp], after the
    request: the response when nothing is raised. *)
Definition check_response (r : result response) : result response :=
  let! resp := r in
  if transient (status_code resp) then raise (RuntimeError_HTTP (status_code resp))
  else let! _ := raise_for_status resp in ret resp.

(** An attempt of [download_to_temp] that ends in the [except] clause. *)
Definition attempt_failed (answer : result response) : bool :=
  match check_response answer with
  | inl _ => true
  | inr _ => false
  end.

(** The retry loop of [download_to_temp].  The [except] clause re-raises
    on the last attempt and sleeps on the others; what [time.sleep] raises
    there leaves the loop. *)
Fixpoint get_attempts (cfg : config) (url : string) (attempts : list Z)
    (w : world) : world * loop_exit response :=
  match attempts with
  | [] => (w, Exhausted)
  | attempt :: rest =>
      let '(w1, r) := request GET url w in
      match check_response r with
      | inr resp => (w1, Broke resp)
      | inl e =>
          if attempt =? MAX_RETRIES cfg then (w1, Raised e)
          else
            match sleep (RETRY_WAIT cfg) (2 ^ (attempt - 1)) w1 with
            | (w2, inl e') => (w2, Raised e')
            | (w2, inr _) => get_attempts cfg url rest w2
            end
      end
  end.

(** [alice_choropleth.download_to_temp] *)
Definition download_to_temp (cfg : config) (url : string) (w : world)
  : world * result string :=
  let cpath := _cache_path_for cfg url in
  match (if cached cfg w url then cpath else None) with
  | Some cp => (w, ret cp)
  | None =>
  if OFFLINE cfg then (w, raise (RuntimeError_OfflineNotCached url))
  else
    match get_attempts cfg url (py_range 1 (MAX_RETRIES cfg + 1)) w with
    | (w1, Raised e) => (w1, raise e)
    | (w1, Exhausted) =>
        (* no iteration bound [resp]: the temporary file is made, then
           [resp.content] fails *)
        (write_file (mkstemp w1) w1, raise UnboundLocalError_resp)
    | (w1, Broke resp) =>
        let path := mkstemp w1 in
        let w2 := write_file path w1 in
        match cpath with
        | Some (String _ _ as cp) =>
            if replace_ok path cp then (move_file path cp w2, ret cp)
            else (w2, ret path)
        | _ => (w2, ret path)
        end
    end
  end.

(** The [try] body of one attempt of [prefetch_tiger.download], after the
    request. *)
Definition prefetch_check_response (r : result response) : result response :=
  let! resp := r in
  if transient (status_code resp) then raise (RuntimeError_HTTP (status_code resp))
  else if negb (status_code resp =? 200) then raise (RuntimeError_HTTP (status_code resp))
  else ret resp.

Definition prefetch_attempt_failed (answer : result response) : bool :=
  match prefetch_check_response answer with
  | inl _ => true
  | inr _ => false
  end.

(** The retry loop of [prefetch_tiger.download]. *)
Fixpoint prefetch_attempts (url out : string) (max_retries : Z)
    (retry_wait : float) (attempts : list Z) (w : world)
  : world * loop_exit unit :=
  match attempts with
  | [] => (w, Exhausted)
  | attempt :: rest =>
      let '(w1, r) := request GET url w in
      match prefetch_check_response r with
      | inr resp => (write_file out w1, Broke tt)
      | inl last_err =>
          if attempt =? max_retries
          then (w1, Raised (RuntimeError_FailedAfter attempt url last_err))
          else
            match sleep retry_wait (2 ^ (attempt - 1)) w1 with
            | (w2, inl e') => (w2, Raised e')
            | (w2, inr _) =>
                prefetch_attempts url out max_retries retry_wait rest w2
            end
      end
  end.

(** [prefetch_tiger.download] *)
Definition download (url dest_dir : string) (max_retries : Z)
    (retry_wait : float) (w : world) : world * result string :=
  let fn := PyStr.basename url in
  let out := PyStr.path_join dest_dir fn in
  if exists_ w out then (w, ret out)
  else
    match prefetch_attempts url out max_retries retry_wait
            (py_range 1 (max_retries + 1)) w with
    | (w1, Raised e) => (w1, raise e)
    | (w1, _) => (w1, ret out)
    end.

End Network.

(** The error classes of the specification. *)
Definition FetchFailed (e : exn) : Prop :=
  match e with
  | RuntimeError_HTTP _ | HTTPError _ | RequestException _
  | RuntimeError_FailedAfter _ _ _ => True
  | _ => False
  end.

Definition OfflineFetchDenied (e : exn) : Prop :=
  match e with RuntimeError_OfflineNotCached _ => True | _ => False end.

Definition OfflineCacheMiss (e : exn) : Prop :=
  match e with RuntimeError_OfflineNoneCached => True | _ => False end.

Definition NoSourceAvailable (e : exn) : Prop :=
  match e with
  | RuntimeError_NoneAvailable _ | RuntimeError_NoAvailableUrl _ => True
  | _ => False
  end.

(** The requests of a trace, in order: method, URL and answer. *)
Definition requests (t : list event) : list (method * string * result response) :=
  omap (fun e => match e with
                 | Request m u a => Some (m, u, a)
                 | Sleep _ _ => None
                 end) t.

(** The backoff factors of a trace, in order. *)
Definition sleeps (t : list event) : list Z :=
  omap (fun e => match e with
                 | Sleep _ f => Some f
                 | Request _ _ _ => None
                 end) t.

(** A reachability probe that did not succeed: no response, or a
    response that is not [ok]. *)
Definition probe_failed (answer : result response) : bool :=
  match answer with
  | inr h => negb (ok h)
  | inl _ => true
  end.

(** The probes that exhaust candidate [u]: [n] HEAD requests to it. *)
Definition probes_of (n : nat) (u : string) : list (method * string) :=
  repeat (HEAD, u) n.

(** A probe with its answer. *)
Definition head_probe (u : string) (a : result response)
  : method * string * result response := (HEAD, u, a).

(** What the specification asks of a resolution over [urls] with [n]
    attempts per candidate and base wait [wait], given the probes it made
    (oldest first) and what it returned or raised: the probes go through
    the candidates in list order, [n] failed probes for each candidate
    before the returned one, then at most [n] probes of the returned one,
    of which only the last succeeded; when every candidate got [n] failed
    probes the error is [NoSourceAvailable].  The only other way out is
    the error of [time.sleep] itself: it is raised after a failed probe
    that is not the last of its candidate, the probes up to there being
    in the same order. *)
Definition resolved_in_order (n : nat) (wait : float) (urls : list string)
    (probes : list (method * string * result response)) (r : result string)
  : Prop :=
  match r with
  | inr u =>
      exists pre post k fails a,
        urls = (pre ++ u :: post)%list
        /\ (k < n)%nat
        /\ probes = (fails ++ [head_probe u a])%list
        /\ map fst fails = (flat_map (probes_of n) pre ++ probes_of k u)%list
        /\ Forall (fun p => probe_failed p.2 = true) fails
        /\ probe_failed a = false
  | inl e =>
      (NoSourceAvailable e
       /\ map fst probes = flat_map (probes_of n) urls
       /\ Forall (fun p => probe_failed p.2 = true) probes)
      \/ (exists pre u post k,
            urls = (pre ++ u :: post)%list
            /\ (0 < k < n)%nat
            /\ sleep_error wait (2 ^ (Z.of_nat k - 1)) = Some e
            /\ map fst probes = (flat_map (probes_of n) pre ++ probes_of k u)%list
            /\ Forall (fun p => probe_failed p.2 = true) probes)
  end.

(** Attempts [attempt], [attempt + 1], ... on one URL, as events: a
    request per answer and, after each but the last, the sleep of
    [wait * 2 ** (attempt - 1)]. *)
Fixpoint backoff_trace (m : method) (url : string) (wait : float) (attempt : Z)
    (answers : list (result response)) : list event :=
  match answers with
  | [] => []
  | [a] => [Request m url a]
  | a :: rest =>
      Request m url a :: Sleep wait (2 ^ (attempt - 1))
        :: backoff_trace m url wait (attempt + 1) rest
  end.

(** A candidate that got all its [n] probes, none of which succeeded. *)
Definition exhausted_answers (n : nat) (answers : list (result response)) : Prop :=
  length answers = n /\ Forall (fun x => probe_failed x = true) answers.

(** The events of a resolution over [urls], given the answers each
    candidate got: candidate by candidate, in list order. *)
Definition probes_trace (wait : float) (urls : list string)
    (answers : list (list (result response))) : list event :=
  concat (zip_with (fun u a => backoff_trace HEAD u wait 1 a) urls answers).

(** The events of a resolution with [max_retries] attempts per candidate
    and base wait [wait]: the probes of the first candidates of [urls],
    in list order, at most [max_retries] per candidate. *)
Definition within_budget (max_retries : Z) (wait : float) (urls : list string)
    (delta : list event) : Prop :=
  exists answers,
    delta = probes_trace wait urls answers
    /\ (length answers <= length urls)%nat
    /\ Forall (fun a => (length a <= Z.to_nat max_retries)%nat) answers.

(** The answers to the [n] requests that follow request number [c], all
    of them [m] requests to [url]. *)
Definition answers_from (network : nat -> method -> string -> result response)
    (m : method) (url : string) (c n : nat) : list (result response) :=
  map (fun j => network (c + j)%nat m url) (seq 0 n).

(** The candidate list of the zcta level, newest vintage first. *)
Definition CB_BASE (year : string) : string :=
  "https://www2.census.gov/geo/tiger/GENZ" ++ year ++ "/shp".

Definition zcta_url (year : string) : string :=
  CB_BASE year ++ "/cb_" ++ year ++ "_us_zcta520_500k.zip".

Definition zcta_urls : list string :=
  [zcta_url "2023"; zcta_url "2022"; zcta_url "2021"; zcta_url "2020"].

Definition state_us_url : string := CB_BASE "2023" ++ "/cb_2023_us_state_500k.zip".

End Net.

(** ** Join engine: best-effort steps *)

Module Post.

(** A GeoDataFrame as far as the two steps look at it: its rows, its
    column labels and the label of the active geometry column. *)
Record table (Row : Type) : Type := {
  rows : list Row;
  columns : list string;
  active_geometry : option string
}.
Arguments rows {Row} t.
Arguments columns {Row} t.
Arguments active_geometry {Row} t.

(** Calling a function that may raise on every item, in order. *)
Fixpoint traverse {A B : Type} (f : A -> result B) (l : list A) : result (list B) :=
  match l with
  | [] => ret []
  | a :: l' => let! b := f a in let! bs := traverse f l' in ret (b :: bs)
  end.

(** Truth value of an optional float: [None] and zero are false. *)
Definition float_truthy (o : option float) : bool :=
  match o with
  | Some x => negb (PrimFloat.eqb x 0%float)
  | None => false
  end.

Section BestEffort.

Variable geometry : Type.
Variable Row : Type.
Variable geometry_of : Row -> geometry.
Variable with_geometry : Row -> geometry -> Row.

(** What the geometry libraries do:
    [gpd.read_file] on the national state file, giving the pairs
    ([STUSPS], [geometry]) of its rows;
    [a.centroid.within(b)];
    [g.simplify(tolerance, preserve_topology=True)]. *)
Variable read_states : string -> result (list (string * geometry)).
Variable centroid_within : geometry -> geometry -> result bool.
Variable simplify : float -> geometry -> result geometry.

Variable network : nat -> Net.method -> string -> result Net.response.
Variable mkstemp : Net.world -> string.
Variable replace_ok : string -> string -> bool.

(** [t.set_geometry(col)] *)
Definition set_geometry (col : string) (t : table Row) : result (table Row) :=
  if States.mem col (columns t)
  then ret {| rows := rows t; columns := columns t; active_geometry := Some col |}
  else raise (LibraryError "ValueError: Unknown column").

(** [states.loc[states['STUSPS'] == state_abbr, 'geometry'].values[0]] *)
Definition state_polygon (states : list (string * geometry)) (state_abbr : string)
  : result geometry :=
  match List.filter (fun r => String.eqb r.1 state_abbr) states with
  | (_, g) :: _ => ret g
  | [] => raise (LibraryError "IndexError")
  end.

(** [t[mask]] *)
Definition select (t : table Row) (mask : list bool) : table Row :=
  {| rows := map fst (List.filter snd (zip (rows t) mask));
     columns := columns t; active_geometry := active_geometry t |}.

(** [t.geometry]: the active geometry column. *)
Definition geometry_column (t : table Row) : result (list geometry) :=
  match active_geometry t with
  | Some _ => ret (map geometry_of (rows t))
  | None => raise (LibraryError "AttributeError: no active geometry column")
  end.

(** The statements after the download inside the [try] of
    [prepare_zcta], run on the path of the state archive.  They assign to
    [merged] twice: the result is the value [merged] has when they stop,
    with the exception that stopped them, if any. *)
Definition filter_statements (state_abbr : string) (merged : table Row)
    (zpath : string) : table Row * option exn :=
  match read_states ("zip://" ++ zpath) with
  | inl e => (merged, Some e)
  | inr states =>
      match state_polygon states state_abbr with
      | inl e => (merged, Some e)
      | inr state_poly =>
          match set_geometry "geometry" merged with
          | inl e => (merged, Some e)
          | inr merged1 =>
              match
                (let! gs := geometry_column merged1 in
                 traverse (fun g => centroid_within g state_poly) gs)
              with
              | inl e => (merged1, Some e)
              | inr mask => (select merged1 mask, None)
              end
          end
      end
  end.

(** The [try] body of [prepare_zcta]. *)
Definition filter_body (cfg : Net.config) (state_abbr : string)
    (merged : table Row) (w : Net.world)
  : Net.world * (table Row * option exn) :=
  match Net.download_to_temp network mkstemp replace_ok cfg Net.state_us_url w with
  | (w1, inl e) => (w1, (merged, Some e))
  | (w1, inr zpath) => (w1, filter_statements state_abbr merged zpath)
  end.

(** The end of [prepare_zcta]: [try: ... except Exception: pass] and
    [return merged]. *)
Definition prepare_zcta_filter (cfg : Net.config) (state_abbr : string)
    (merged : table Row) (w : Net.world) : Net.world * table Row :=
  let '(w1, (merged', _)) := filter_body cfg state_abbr merged w in
  (w1, merged').

(** [gdf['geometry'] = gdf.geometry.simplify(tol, preserve_topology=True)] *)
Definition simplify_statement (tol : float) (t : table Row) : result (table Row) :=
  let! gs := geometry_column t in
  let! gs' := traverse (simplify tol) gs in
  ret {| rows := zip_with with_geometry (rows t) gs';
         columns := if States.mem "geometry" (columns t) then columns t
                    else columns t ++ ["geometry"];
         active_geometry := active_geometry t |}.

(** The simplify step of [alice_choropleth.main]:
    [if simp and hasattr(gdf, 'geometry'): try: ... except Exception: pass]. *)
Definition main_simplify (simp : option float) (gdf : table Row) : table Row :=
  match simp with
  | Some tol =>
      if (float_truthy simp && bool_decide (is_Some (active_geometry gdf)))%bool
      then
        match simplify_statement tol gdf with
        | inr gdf' => gdf'
        | inl _ => gdf
        end
      else gdf
  | None => gdf
  end.

(** The simplify step of [local_api.join]:
    [if simplify and 'geometry' in mg: try: ... except Exception: pass]. *)
Definition join_simplify (simp : option float) (mg : table Row) : table Row :=
  match simp with
  | Some tol =>
      if (float_truthy simp && States.mem "geometry" (columns mg))%bool
      then
        match simplify_statement tol mg with
        | inr mg' => mg'
        | inl _ => mg
        end
      else mg
  | None => mg
  end.

End BestEffort.

End Post.

(** ** Boundary URLs *)

Module Urls.

(** [place_url], [cousub_url], [county_us_url], [tract_url] and [bg_url]
    of [alice_choropleth.py], which [prefetch_tiger.py] imports
    ([zcta_urls] and [state_us_url] are in [Net]). *)
Definition place_url : string := Net.CB_BASE "2023" ++ "/cb_2023_us_place_500k.zip".

Definition cousub_url (state_fips : string) : string :=
  Net.CB_BASE "2023" ++ "/cb_2023_" ++ state_fips ++ "_cousub_500k.zip".

Definition county_us_url : string := Net.CB_BASE "2023" ++ "/cb_2023_us_county_500k.zip".

Definition tract_url (state_fips : string) : string :=
  Net.CB_BASE "2023" ++ "/cb_2023_" ++ state_fips ++ "_tract_500k.zip".

Definition bg_url (state_fips : string) : string :=
  Net.CB_BASE "2023" ++ "/cb_2023_" ++ state_fips ++ "_bg_500k.zip".

(** A text with no slash in it. *)
Definition no_slash (s : string) : Prop :=
  forallb (fun c => negb (Ascii.eqb c "/")) (PyStr.chars s) = true.

End Urls.

(** ** Serving layer: scopes and boundary selection *)

Module Boundary.

(** The dict [REGIONS] of [load_boundary]. *)
Definition REGIONS : list (string * list string) :=
  [ ("NORTHEAST", ["CT"; "MA"; "ME"; "NH"; "NJ"; "NY"; "PA"; "RI"; "VT"]);
    ("MIDWEST", ["IL"; "IN"; "IA"; "KS"; "MI"; "MN"; "MO"; "NE"; "ND"; "OH";
                 "SD"; "WI"]);
    ("SOUTH", ["AL"; "AR"; "DE"; "FL"; "GA"; "KY"; "LA"; "MD"; "MS"; "NC";
               "OK"; "SC"; "TN"; "TX"; "VA"; "WV"; "DC"]);
    ("WEST", ["AZ"; "CA"; "CO"; "ID"; "MT"; "NV"; "NM"; "OR"; "UT"; "WA";
              "WY"; "AK"; "HI"]) ].

(** [REGIONS[state_abbr]], [None] when [state_abbr not in REGIONS]. *)
Fixpoint region_members_in (d : list (string * list string)) (state_abbr : string)
  : option (list string) :=
  match d with
  | [] => None
  | (k, v) :: d' => if String.eqb k state_abbr then Some v else region_members_in d' state_abbr
  end.

Definition region_members (state_abbr : string) : option (list string) :=
  region_members_in REGIONS state_abbr.

(** [[STATE_ABBR_TO_FIPS[st] for st in members if st in STATE_ABBR_TO_FIPS]] *)
Definition region_fips (members : list string) : list string :=
  omap (States.dict_get States.STATE_ABBR_TO_FIPS_api) members.

(** The digits of [int(s)], with the single underscores Python allows
    between them: the value, [None] where [int] raises ValueError. *)
Fixpoint digits_value (l : list ascii) (acc : Z) (after_digit : bool) : option Z :=
  match l with
  | [] => if after_digit then Some acc else None
  | c :: l' =>
      if PyStr.is_digit c
      then digits_value l' (10 * acc + (Z.of_N (PyStr.code c) - 48)) true
      else if Ascii.eqb c "_"
      then (if after_digit then digits_value l' acc false else None)
      else None
  end.

(** [int(s)] on a text: white space around it, an optional sign, decimal
    digits. *)
Definition py_int (s : string) : option Z :=
  match PyStr.chars (PyStr.strip s) with
  | c :: l =>
      if Ascii.eqb c "+" then digits_value l 0 false
      else if Ascii.eqb c "-" then Z.opp <$> digits_value l 0 false
      else digits_value (c :: l) 0 false
  | [] => None
  end.

(** The [join] endpoint's own test of the scope tokens, before it calls
    [norm_state]. *)
Definition join_state (state : string) : result (string * string) :=
  if States.mem state ["US"; "NORTHEAST"; "MIDWEST"; "SOUTH"; "WEST"]
  then ret (state, state)
  else States.norm_state state.

Section Selection.

(** A row of a boundary table, with its [STUSPS] and [STATEFP] values. *)
Variable Row : Type.
Variable stusps : Row -> string.
Variable statefp : Row -> string.

(** [gdf['STATEFP'].astype(int) < 60], row by row; the conversion of the
    column raises when it raises on one value. *)
Definition below_60 (gdf : list Row) : result (list bool) :=
  Post.traverse
    (fun r => match py_int (statefp r) with
              | Some n => ret (n <? 60)
              | None => raise (LibraryError "ValueError: invalid literal for int()")
              end) gdf.

(** What [load_boundary] selects from the national state table. *)
Definition select_states (state_abbr : string) (gdf : list Row) : result (list Row) :=
  if String.eqb state_abbr "US" then
    let! mask := below_60 gdf in
    ret (map fst (List.filter snd (zip gdf mask)))
  else
    match region_members state_abbr with
    | Some members => ret (List.filter (fun r => States.mem (stusps r) members) gdf)
    | None => ret (List.filter (fun r => String.eqb (stusps r) state_abbr) gdf)
    end.

(** What [load_boundary] selects from the national county table and from
    the national place table. *)
Definition select_by_statefp (state_abbr state_fips : string) (gdf : list Row)
  : list Row :=
  if String.eqb state_abbr "US" then gdf
  else
    match region_members state_abbr with
    | Some members =>
        List.filter (fun r => States.mem (statefp r) (region_fips members)) gdf
    | None => List.filter (fun r => String.eqb (statefp r) state_fips) gdf
    end.

End Selection.

Section LoadZcta.

Variable geometry : Type.
Variable Row : Type.
Variable geometry_of : Row -> geometry.

(** What the geometry libraries do: reading the ZCTA table and the
    national state table, the latter as the pairs ([STUSPS], [geometry])
    of its rows, by [gpd.read_parquet(p)] or [gpd.read_file(p)] on the
    path given; [unary_union]; [a.centroid.within(b)]. *)
Variable read_zcta : string -> result (Post.table Row).
Variable read_states : string -> result (list (string * geometry)).
Variable unary_union : list geometry -> result geometry.
Variable centroid_within : geometry -> geometry -> result bool.

(** The module settings [_HAS_ARROW] and [CACHE_DIR]. *)
Variable has_arrow : bool.
Variable cache_dir : string.

Definition PARQUET_DIR : string := PyStr.path_join cache_dir "parquet".

(** [local_api.parquet_or_zip] *)
Definition parquet_or_zip (w : Net.world) (path_parquet path_zip : string) : string :=
  if (has_arrow && Net.exists_ w path_parquet)%bool then path_parquet else path_zip.

(** [gpd.read_parquet(p) if p.endswith('.parquet') else gpd.read_file(f'zip://{p}')] *)
Definition read_path {A : Type} (read : string -> result A) (p : string) : result A :=
  if PyStr.endswith p ".parquet" then read p else read ("zip://" ++ p).

(** [gdf[gdf.geometry.centroid.within(geom)]] *)
Definition centroid_filter (gdf : Post.table Row) (geom : geometry)
  : result (Post.table Row) :=
  let! gs := Post.geometry_column geometry Row geometry_of gdf in
  let! mask := Post.traverse (fun g => centroid_within g geom) gs in
  ret (Post.select Row gdf mask).

(** The zcta level of [local_api.load_boundary] once [require_geopandas]
    has passed; the endpoints [boundaries] and [join] call
    [load_boundary] outside any [try]. *)
Definition load_boundary_zcta (state_abbr : string) (w : Net.world)
  : result (Post.table Row) :=
  let zp := parquet_or_zip w
              (PyStr.path_join PARQUET_DIR "cb_2020_us_zcta520_500k.parquet")
              (PyStr.path_join cache_dir "cb_2020_us_zcta520_500k.zip") in
  let! gdf := read_path read_zcta zp in
  if String.eqb state_abbr "US" then ret gdf
  else
    let sp := parquet_or_zip w
                (PyStr.path_join PARQUET_DIR "cb_2023_us_state_500k.parquet")
                (PyStr.path_join cache_dir "cb_2023_us_state_500k.zip") in
    match region_members state_abbr with
    | Some members =>
        let! states := read_path read_states sp in
        let region_states := List.filter (fun r => States.mem r.1 members) states in
        let! region_geom := unary_union (map snd region_states) in
        centroid_filter gdf region_geom
    | None =>
        let! states := read_path read_states sp in
        let! geom := Post.state_polygon geometry states state_abbr in
        centroid_filter gdf geom
    end.

End LoadZcta.

End Boundary.

(** ** Prefetcher: targets and passes *)

Module Prefetch.

(** [raise SystemExit(msg)]: not an [Exception], so no [except Exception]
    clause catches it. *)
Inductive exit : Type := SystemExit (msg : string).

(** [s.split(',')] on the characters that are left, [cur] being the piece
    read so far. *)
Fixpoint split_aux (l cur : list ascii) : list (list ascii) :=
  match l with
  | [] => [cur]
  | c :: l' =>
      if Ascii.eqb c "," then cur :: split_aux l' [] else split_aux l' (cur ++ [c])
  end.

Definition split_comma (s : string) : list string :=
  map PyStr.text (split_aux (PyStr.chars s) []).

(** [[t.strip() for t in states.split(',') if t.strip()]] *)
Definition tokens (states : string) : list string :=
  List.filter (fun t => negb (String.eqb t EmptyString))
    (map PyStr.strip (split_comma states)).

(** [[k for k, v in STATE_ABBR_TO_FIPS.items() if v == t]] *)
Definition keys_with_code (t : string) : list string :=
  map fst (List.filter (fun kv => String.eqb kv.2 t) States.STATE_ABBR_TO_FIPS).

(** One turn of the loop of [main] over the tokens: what it appends to
    [stusps], or the exit it raises. *)
Definition state_token (t : string) : exit + string :=
  if (Z.eqb (PyStr.len t) 2
      && bool_decide (is_Some (States.dict_get States.STATE_ABBR_TO_FIPS (PyStr.upper t))))%bool
  then inr (PyStr.upper t)
  else if (Z.eqb (PyStr.len t) 2 && PyStr.isdigit t)%bool
  then
    match keys_with_code t with
    | k :: _ => inr k
    | [] => inr t
    end
  else inl (SystemExit ("Unrecognized state token: " ++ t)).

Fixpoint state_tokens (ts : list string) : exit + list string :=
  match ts with
  | [] => inr []
  | t :: ts' =>
      match state_token t with
      | inl e => inl e
      | inr st =>
          match state_tokens ts' with
          | inl e => inl e
          | inr sts => inr (st :: sts)
          end
      end
  end.

(** The target list [stusps] of [main], from the [--states] option. *)
Definition targets (states : option string) : exit + list string :=
  match states with
  | Some (String _ _ as s) => state_tokens (tokens s)
  | _ => inr (map fst States.STATE_ABBR_TO_FIPS)
  end.

(** [STATE_ABBR_TO_FIPS.get(st, st)] *)
Definition fips_of (st : string) : string :=
  default st (States.dict_get States.STATE_ABBR_TO_FIPS st).

(** The path [download] writes [url] to, which is the path [pending_urls]
    tests. *)
Definition cache_file (dest url : string) : string :=
  PyStr.path_join dest (PyStr.basename url).

(** The entries of [pending_urls] for one target. *)
Definition pending_of (dest : string) (no_cousub no_tracts : bool) (w : Net.world)
    (st : string) : list (string * string * string) :=
  let fips := fips_of st in
  ((if negb no_cousub
    then (let url := Urls.cousub_url fips in
          if negb (Net.exists_ w (cache_file dest url)) then [(st, fips, url)] else [])
    else [])
   ++
   (if negb no_tracts
    then (let turl := Urls.tract_url fips in
          if negb (Net.exists_ w (cache_file dest turl)) then [(st, fips, turl)] else [])
    else []))%list.

(** [pending_urls()] of [main] *)
Definition pending_urls (dest : string) (no_cousub no_tracts : bool)
    (stusps : list string) (w : Net.world) : list (string * string * string) :=
  flat_map (pending_of dest no_cousub no_tracts w) stusps.

Section Passes.

Variable network : nat -> Net.method -> string -> result Net.response.

(** A pass over the pending files:
    [try: download(url, ...) except Exception as e: print(...)]. *)
Fixpoint download_all (dest : string) (max_retries : Z) (retry_wait : float)
    (pend : list (string * string * string)) (w : Net.world) : Net.world :=
  match pend with
  | [] => w
  | (_, _, url) :: rest =>
      let '(w1, _) := Net.download network url dest max_retries retry_wait w in
      download_all dest max_retries retry_wait rest w1
  end.

(** The [--until-complete] loop of [main], for at most [fuel] turns:
    [None] when it is still looping after them; otherwise how it ended,
    by its [break] or on what [time.sleep(retry_wait * 5)] raised, which
    nothing catches. *)
Fixpoint until_complete (fuel : nat) (dest : string) (no_cousub no_tracts : bool)
    (stusps : list string) (max_retries : Z) (retry_wait : float)
    (w : Net.world) : option (Net.world * result unit) :=
  match fuel with
  | O => None
  | S fuel' =>
      match pending_urls dest no_cousub no_tracts stusps w with
      | [] => Some (w, ret tt)
      | pend =>
          let w1 := download_all dest max_retries retry_wait pend w in
          match Net.sleep retry_wait 5 w1 with
          | (w2, inl e) => Some (w2, raise e)
          | (w2, inr _) =>
              until_complete fuel' dest no_cousub no_tracts stusps max_retries
                retry_wait w2
          end
      end
  end.

End Passes.

End Prefetch.

(** ** Specification predicates for the fetch layer *)

Module FetchSpec.

(** Every answer of the network makes an attempt of the prefetcher fail /
    succeed. *)
Definition always_fails (network : nat -> Net.method -> string -> result Net.response)
  : Prop :=
  forall n m u, Net.prefetch_attempt_failed (network n m u) = true.

Definition never_fails (network : nat -> Net.method -> string -> result Net.response)
  : Prop :=
  forall n m u, Net.prefetch_attempt_failed (network n m u) = false.

End FetchSpec.

(** ** Specification helpers for the key normalizer *)

Module KeySpec.

(** The candidate columns [normalize_csv_key] goes through: the provided
    column alone when one is given, the defaults of the level otherwise. *)
Definition candidates (level : string) (provided : option string) : list string :=
  if States.truthy provided then
    match provided with Some p => [p] | None => [] end
  else Keys.defaults level.

(** The shape of a derived key at width [w]: empty, or digits only and
    at least [w] of them. *)
Definition key_shape (w : Z) (key : string) : Prop :=
  key = EmptyString \/ (Keys.all_digits key /\ w <= PyStr.len key).

End KeySpec.

(** ** Specification helpers for the boundary selection *)

Module BoundarySpec.

(** [abbr] is a member of one of the four regions. *)
Definition in_some_region (abbr : string) : bool :=
  existsb (fun kv : string * list string => States.mem abbr kv.2) Boundary.REGIONS.

End BoundarySpec.

(** * Theorems *)

(** ** State identifier resolver *)

Lemma dict_get_In (d : list (string * string)) (k v : string) :
  States.dict_get d k = Some v -> In (k, v) d.
Proof.
  induction d as [|[k' v'] d IH]; simpl; [discriminate|].
  destruct (String.eqb_spec k' k) as [->|_].
  - intros [= ->]. now left.
  - intros H. right. now apply IH.
Qed.

Lemma first_key_of_In (d : list (string * string)) (fips k : string) :
  States.first_key_of d fips = Some k -> In (k, fips) d.
Proof.
  induction d as [|[k' v'] d IH]; simpl; [discriminate|].
  destruct (String.eqb_spec v' fips) as [->|_].
  - intros [= ->]. now left.
  - intros H. right. now apply IH.
Qed.

Lemma api_table_same : States.STATE_ABBR_TO_FIPS_api = States.STATE_ABBR_TO_FIPS.
Proof. reflexivity. Qed.

(** Splits membership in a literal list into its entries. *)
Ltac each_entry H :=
  repeat (destruct H as [H|H]; [injection H as <- <-|]); try contradiction H.

Ltac no_entry H :=
  simpl in H; repeat (destruct H as [H|H]; [discriminate H|]); contradiction H.

Ltac each_token H :=
  repeat (destruct H as [H|H]; [subst|]); try contradiction H.

Lemma upper_char_digit (c : ascii) : PyStr.is_digit c = true -> PyStr.upper_char c = c.
Proof.
  unfold PyStr.upper_char, PyStr.is_lower, PyStr.is_digit.
  intros H. apply andb_true_iff in H as [_ H]. apply N.leb_le in H.
  destruct (N.leb_spec 97 (PyStr.code c)); [lia|reflexivity].
Qed.

Lemma text_chars (s : string) : PyStr.text (PyStr.chars s) = s.
Proof. apply string_of_list_ascii_of_string. Qed.

Lemma upper_digits (s : string) : PyStr.isdigit s = true -> PyStr.upper s = s.
Proof.
  unfold PyStr.isdigit, PyStr.upper. intros H.
  assert (Hall : forallb PyStr.is_digit (PyStr.chars s) = true)
    by (destruct (PyStr.chars s); [discriminate|exact H]).
  rewrite <- (text_chars s) at 2. f_equal. clear H.
  induction (PyStr.chars s) as [|c l IH]; [reflexivity|].
  simpl in *. apply andb_true_iff in Hall as [Hc Hl].
  rewrite upper_char_digit by exact Hc. now rewrite IH.
Qed.

Lemma scope_token_upper (t : string) :
  In t States.SCOPE_TOKENS -> PyStr.upper t = t.
Proof. intros H. simpl in H. each_token H; reflexivity. Qed.

Lemma mem_In (x : string) (l : list string) : States.mem x l = true <-> In x l.
Proof.
  unfold States.mem. rewrite existsb_exists. split.
  - intros (y & Hy & E). apply String.eqb_eq in E. now subst.
  - intros H. exists x. split; [exact H|apply String.eqb_refl].
Qed.

Lemma key_not_scope (abbr fips : string) :
  In (abbr, fips) States.STATE_ABBR_TO_FIPS ->
  States.mem abbr States.SCOPE_TOKENS = false /\ PyStr.isdigit abbr = false
  /\ States.dict_get States.STATE_ABBR_TO_FIPS abbr = Some fips
  /\ States.first_key_of States.STATE_ABBR_TO_FIPS fips = Some abbr.
Proof. intros H. simpl in H. each_entry H; repeat split; reflexivity. Qed.

Lemma scope_not_key (s : string) :
  In s States.SCOPE_TOKENS ->
  States.dict_get States.STATE_ABBR_TO_FIPS s = None /\ PyStr.isdigit s = false.
Proof. intros H. simpl in H. each_token H; split; reflexivity. Qed.

(** C8: every abbreviation of the reference table resolves to its code
    in the table, and resolving that code gives the abbreviation back;
    this holds for the resolver of the command-line tool and for the one
    of the serving layer. *)
Theorem state_round_trip (abbr fips : string) :
  In (abbr, fips) States.STATE_ABBR_TO_FIPS ->
  States.normalize_state abbr = inr (abbr, fips)
  /\ States.normalize_state fips = inr (abbr, fips)
  /\ States.norm_state abbr = inr (abbr, fips)
  /\ States.norm_state fips = inr (abbr, fips).
Proof.
  intros H. simpl in H. each_entry H; repeat split; vm_compute; reflexivity.
Qed.

Lemma state_round_trip_witness :
  States.normalize_state "FL" = inr ("FL", "12")
  /\ States.normalize_state "12" = inr ("FL", "12")
  /\ States.norm_state "FL" = inr ("FL", "12")
  /\ States.norm_state "12" = inr ("FL", "12").
Proof.
  apply (state_round_trip "FL" "12"). simpl. do 9 right. left. reflexivity.
Defined.

(** What [normalize_state] returns is an entry of the table. *)
Lemma normalize_state_In (state abbr fips : string) :
  States.normalize_state state = inr (abbr, fips) ->
  In (abbr, fips) States.STATE_ABBR_TO_FIPS.
Proof.
  unfold States.normalize_state.
  destruct (PyStr.fullmatch_2digits _).
  - destruct (States.first_key_of _ _) as [k|] eqn:E; [|discriminate].
    apply first_key_of_In in E.
    destruct (States.truthy _); [|discriminate].
    unfold ret. intros [= <- <-]. exact E.
  - destruct (States.dict_get _ _) as [v|] eqn:E; [|discriminate].
    apply dict_get_In in E. unfold ret. intros [= <- <-]. exact E.
Qed.

(** What [norm_state] returns is an entry of the table, or a scope token
    passed through in both fields. *)
Lemma norm_state_In (token abbr fips : string) :
  States.norm_state token = inr (abbr, fips) ->
  In (abbr, fips) States.STATE_ABBR_TO_FIPS
  \/ (abbr = fips /\ In abbr States.SCOPE_TOKENS /\ PyStr.strip token = abbr).
Proof.
  unfold States.norm_state. rewrite api_table_same.
  destruct (String.eqb _ EmptyString); [discriminate|].
  destruct (String.eqb_spec (PyStr.strip token) "US") as [E|_].
  { unfold ret. intros [= <- <-]. right. rewrite E. simpl. auto. }
  destruct (States.mem _ States.REGION_TOKENS) eqn:Hreg.
  { unfold ret. intros [= <- <-]. right. apply mem_In in Hreg.
    repeat split. now right. }
  destruct (_ && _)%bool.
  - destruct (States.first_key_of _ _) as [k|] eqn:E; [|discriminate].
    apply first_key_of_In in E.
    destruct (States.truthy _); [|discriminate].
    unfold ret. intros [= <- <-]. now left.
  - destruct (States.dict_get _ _) as [v|] eqn:E; [|discriminate].
    apply dict_get_In in E. unfold ret. intros [= <- <-]. now left.
Qed.

Lemma table_keys_NoDup : List.NoDup (map fst States.STATE_ABBR_TO_FIPS).
Proof. apply NoDup_ListNoDup. apply (bool_decide_unpack _). vm_compute. exact I. Qed.

Lemma table_codes_NoDup : List.NoDup (map snd States.STATE_ABBR_TO_FIPS).
Proof. apply NoDup_ListNoDup. apply (bool_decide_unpack _). vm_compute. exact I. Qed.

Lemma NoDup_fst_unique {A B : Type} (l : list (A * B)) (a : A) (b b' : B) :
  List.NoDup (map fst l) -> In (a, b) l -> In (a, b') l -> b = b'.
Proof.
  induction l as [|[x y] l IH]; simpl; [contradiction|].
  intros Hnd. inversion Hnd as [|? ? Hx Hl]; subst.
  intros [E1|H1] [E2|H2].
  - congruence.
  - injection E1 as -> ->. exfalso. apply Hx.
    change a with (fst (a, b')). now apply in_map.
  - injection E2 as -> ->. exfalso. apply Hx.
    change a with (fst (a, b)). now apply in_map.
  - now apply IH.
Qed.

Lemma NoDup_snd_unique {A B : Type} (l : list (A * B)) (a a' : A) (b : B) :
  List.NoDup (map snd l) -> In (a, b) l -> In (a', b) l -> a = a'.
Proof.
  induction l as [|[x y] l IH]; simpl; [contradiction|].
  intros Hnd. inversion Hnd as [|? ? Hy Hl]; subst.
  intros [E1|H1] [E2|H2].
  - congruence.
  - injection E1 as -> ->. exfalso. apply Hy.
    change b with (snd (a', b)). now apply in_map.
  - injection E2 as -> ->. exfalso. apply Hy.
    change b with (snd (a, b)). now apply in_map.
  - now apply IH.
Qed.

Lemma In_single_entry (abbr fips : string) :
  In (abbr, fips) States.STATE_ABBR_TO_FIPS -> States.single_entry abbr fips.
Proof.
  intros H. split; [exact H|].
  intros a f Haf [-> | ->].
  - split; [reflexivity|].
    exact (NoDup_fst_unique _ _ _ _ table_keys_NoDup Haf H).
  - split; [|reflexivity].
    exact (NoDup_snd_unique _ _ _ _ table_codes_NoDup Haf H).
Qed.

(** C9, as the code has it: the reference table has 57 entries (50
    states, DC and the six codes AS, GU, MP, PR, VI, UM), the same in
    both modules; every pair the command-line resolver returns is one
    entry of it, the only one with that abbreviation and the only one
    with that code, and so is every pair the serving-layer resolver
    returns for a token that is not a scope token. *)
Theorem state_identity_single_entry :
  length States.STATE_ABBR_TO_FIPS = 57%nat
  /\ States.STATE_ABBR_TO_FIPS_api = States.STATE_ABBR_TO_FIPS
  /\ (forall state abbr fips,
        States.normalize_state state = inr (abbr, fips) ->
        States.single_entry abbr fips)
  /\ (forall token abbr fips,
        States.norm_state token = inr (abbr, fips) ->
        ~ In (PyStr.strip token) States.SCOPE_TOKENS ->
        States.single_entry abbr fips).
Proof.
  split; [reflexivity|]. split; [reflexivity|]. split.
  - intros state abbr fips H. apply In_single_entry.
    exact (normalize_state_In _ _ _ H).
  - intros token abbr fips H Hns. apply In_single_entry.
    destruct (norm_state_In _ _ _ H) as [Hin|(_ & Hs & E)]; [exact Hin|].
    exfalso. apply Hns. now rewrite E.
Qed.

Lemma state_identity_single_entry_witness :
  States.single_entry "FL" "12" /\ States.single_entry "PR" "72".
Proof.
  destruct state_identity_single_entry as (_ & _ & Hcli & Hapi). split.
  - apply (Hcli " fl "). reflexivity.
  - apply (Hapi "72"); [reflexivity|].
    vm_compute. intros H. each_token H; discriminate.
Defined.

(** C9 as stated fails: the table has 57 entries, not 56, and the
    serving-layer resolver returns the pair (US, US), which is no entry
    of the table. *)
Lemma state_table_counterexample :
  length States.STATE_ABBR_TO_FIPS = 57%nat
  /\ Nat.eqb (length States.STATE_ABBR_TO_FIPS) 56 = false
  /\ States.norm_state "US" = inr ("US", "US")
  /\ ~ States.single_entry "US" "US".
Proof.
  split; [reflexivity|]. split; [reflexivity|]. split; [reflexivity|].
  intros [H _]. no_entry H.
Qed.

(** C10: [norm_state] tests the scope tokens before it uppercases.  A
    token that uppercases to an abbreviation of the table resolves to
    that entry; a token resolves to a scope exactly when, stripped, it is
    that scope token letter for letter; a token in other case than
    uppercase that only uppercases to a scope token is rejected as an
    unknown state. *)
Theorem norm_state_case_sensitivity :
  States.norm_state "fl" = inr ("FL", "12")
  /\ States.norm_state "us" = inl (HTTP400_UnknownState "us")
  /\ States.norm_state "northeast" = inl (HTTP400_UnknownState "northeast")
  /\ (forall token abbr fips,
        In (abbr, fips) States.STATE_ABBR_TO_FIPS ->
        PyStr.upper (PyStr.strip token) = abbr ->
        States.norm_state token = inr (abbr, fips))
  /\ (forall token s,
        In s States.SCOPE_TOKENS ->
        (States.norm_state token = inr (s, s) <-> PyStr.strip token = s))
  /\ (forall token,
        In (PyStr.upper (PyStr.strip token)) States.SCOPE_TOKENS ->
        PyStr.strip token <> PyStr.upper (PyStr.strip token) ->
        States.norm_state token = inl (HTTP400_UnknownState token)).
Proof.
  split; [reflexivity|]. split; [reflexivity|]. split; [reflexivity|].
  split; [|split].
  - intros token abbr fips Hin Hup.
    destruct (key_not_scope _ _ Hin) as (Hscope & Hdig & Hget & _).
    unfold States.norm_state. rewrite api_table_same.
    set (t := PyStr.strip token) in *.
    destruct (String.eqb_spec t EmptyString) as [E|_].
    { rewrite E in Hup. change (EmptyString = abbr) in Hup. subst abbr.
      no_entry Hin. }
    assert (Hnot : States.mem t States.SCOPE_TOKENS = false).
    { destruct (States.mem t States.SCOPE_TOKENS) eqn:E; [|reflexivity].
      apply mem_In in E. rewrite (scope_token_upper _ E) in Hup.
      subst t. rewrite Hup in E. apply mem_In in E. congruence. }
    unfold States.SCOPE_TOKENS in Hnot. simpl in Hnot.
    apply orb_false_iff in Hnot as [Hus Hreg].
    change (States.mem t States.REGION_TOKENS = false) in Hreg.
    rewrite Hus, Hreg.
    assert (Hd : PyStr.isdigit t = false).
    { destruct (PyStr.isdigit t) eqn:E; [|reflexivity].
      rewrite (upper_digits _ E) in Hup. congruence. }
    rewrite Hd, andb_false_r, Hup, Hget. reflexivity.
  - intros token s Hs. destruct (scope_not_key _ Hs) as [Hget Hdig]. split.
    + intros H. destruct (norm_state_In _ _ _ H) as [Hin|(_ & _ & E)]; [|exact E].
      exfalso.
      destruct (key_not_scope _ _ Hin) as (_ & _ & Hg & _). congruence.
    + intros E. unfold States.norm_state. rewrite E.
      simpl in Hs. each_token Hs; reflexivity.
  - intros token Hs Hne.
    destruct (scope_not_key _ Hs) as [Hget Hdig].
    unfold States.norm_state. rewrite api_table_same.
    set (t := PyStr.strip token) in *.
    destruct (String.eqb_spec t EmptyString) as [E|_].
    { exfalso. apply Hne. now rewrite E. }
    destruct (String.eqb_spec t "US") as [E|_].
    { exfalso. apply Hne. now rewrite E. }
    destruct (States.mem t States.REGION_TOKENS) eqn:Hreg.
    { exfalso. apply Hne. symmetry. apply scope_token_upper.
      right. now apply mem_In. }
    assert (Hd : PyStr.isdigit t = false).
    { destruct (PyStr.isdigit t) eqn:E; [|reflexivity].
      exfalso. apply Hne. symmetry. now apply upper_digits. }
    rewrite Hd, andb_false_r, Hget. reflexivity.
Qed.

Lemma norm_state_case_sensitivity_witness :
  States.norm_state " Ga " = inr ("GA", "13")
  /\ (States.norm_state "WEST" = inr ("WEST", "WEST") <-> PyStr.strip "WEST" = "WEST")
  /\ States.norm_state "West" = inl (HTTP400_UnknownState "West").
Proof.
  destruct norm_state_case_sensitivity as (_ & _ & _ & Hany & Hscope & Hrej).
  split; [|split].
  - apply (Hany " Ga " "GA" "13"); [|reflexivity].
    simpl. do 10 right. left. reflexivity.
  - apply (Hscope "WEST" "WEST"). simpl. do 4 right. left. reflexivity.
  - apply (Hrej "West").
    + vm_compute. do 4 right. left. reflexivity.
    + vm_compute. discriminate.
Defined.

(** ** Key normalizer *)

Lemma chars_app (a b : string) :
  PyStr.chars (a ++ b) = (PyStr.chars a ++ PyStr.chars b)%list.
Proof. induction a as [|c a IH]; simpl; [reflexivity|]. now rewrite IH. Qed.

Lemma text_app (a b : list ascii) :
  PyStr.text (a ++ b) = PyStr.text a ++ PyStr.text b.
Proof. induction a as [|c a IH]; simpl; [reflexivity|]. now rewrite IH. Qed.

Lemma chars_text (l : list ascii) : PyStr.chars (PyStr.text l) = l.
Proof. apply list_ascii_of_string_of_list_ascii. Qed.

Lemma drop_non_digits (pre l : list ascii) :
  forallb (fun c => negb (PyStr.is_digit c)) pre = true ->
  PyStr.drop_while (fun c => negb (PyStr.is_digit c)) (pre ++ l)
  = PyStr.drop_while (fun c => negb (PyStr.is_digit c)) l.
Proof.
  induction pre as [|c pre IH]; simpl; [reflexivity|].
  intros H. apply andb_true_iff in H as [Hc Hpre]. rewrite Hc. now apply IH.
Qed.

Lemma take_digits (d rest : list ascii) :
  forallb PyStr.is_digit d = true ->
  match rest with c :: _ => PyStr.is_digit c = false | [] => True end ->
  PyStr.take_while PyStr.is_digit (d ++ rest) = d.
Proof.
  induction d as [|c d IH]; simpl.
  - intros _. destruct rest as [|c rest]; simpl; [reflexivity|]. now intros ->.
  - intros H Hr. apply andb_true_iff in H as [Hc Hd]. rewrite Hc.
    f_equal. now apply IH.
Qed.

Lemma no_digit_ahead_chars (rest : string) :
  Keys.no_digit_ahead rest ->
  match PyStr.chars rest with c :: _ => PyStr.is_digit c = false | [] => True end.
Proof. destruct rest; simpl; auto. Qed.

(** What [re.search(r'(\d+)', s)] finds: the first run of digits. *)
Lemma search_digits_run (pre d rest : string) :
  Keys.no_digit pre -> Keys.all_digits d -> d <> EmptyString ->
  Keys.no_digit_ahead rest ->
  PyStr.search_digits (pre ++ d ++ rest) = Some d.
Proof.
  unfold Keys.no_digit, Keys.all_digits, PyStr.search_digits.
  intros Hpre Hd Hne Hrest.
  rewrite !chars_app, drop_non_digits by exact Hpre.
  destruct (PyStr.chars d) as [|c l] eqn:E.
  { exfalso. apply Hne. rewrite <- (text_chars d), E. reflexivity. }
  simpl in Hd. apply andb_true_iff in Hd as [Hc Hl].
  simpl. rewrite Hc. simpl. rewrite Hc. f_equal.
  rewrite take_digits; [|exact Hl|now apply no_digit_ahead_chars].
  change (PyStr.text (c :: l) = d). rewrite <- E. apply text_chars.
Qed.

Lemma search_digits_none (s : string) :
  Keys.no_digit s -> PyStr.search_digits s = None.
Proof.
  unfold Keys.no_digit, PyStr.search_digits. intros H.
  rewrite <- (app_nil_r (PyStr.chars s)), drop_non_digits by exact H.
  reflexivity.
Qed.

Lemma append_empty (s : string) : s ++ EmptyString = s.
Proof.
  rewrite <- (text_chars (s ++ EmptyString)), chars_app.
  simpl. rewrite app_nil_r. apply text_chars.
Qed.

(** On a text that starts with a digit [zfill] only puts zeros in front. *)
Lemma zfill_digits (w : Z) (d : string) :
  Keys.all_digits d ->
  PyStr.zfill w d = PyStr.zeros (Z.to_nat (w - PyStr.len d)) ++ d.
Proof.
  unfold Keys.all_digits, PyStr.zfill. destruct d as [|c d]; simpl.
  - intros _. now rewrite append_empty.
  - intros H. apply andb_true_iff in H as [Hc _].
    assert (Hs : (Ascii.eqb c "+" || Ascii.eqb c "-")%bool = false).
    { apply orb_false_iff. split; apply Ascii.eqb_neq; intros ->; discriminate. }
    now rewrite Hs.
Qed.

Lemma normalize_key_digits (level : string) (w : Z) (pre d rest : string) :
  Keys.key_width level = Some w ->
  Keys.no_digit pre -> Keys.all_digits d -> d <> EmptyString ->
  Keys.no_digit_ahead rest ->
  Keys.normalize_key level (pre ++ d ++ rest)
  = PyStr.zeros (Z.to_nat (w - PyStr.len d)) ++ d.
Proof.
  intros Hw Hpre Hd Hne Hrest. unfold Keys.normalize_key, Keys.extract_zfill.
  rewrite Hw, (search_digits_run _ _ _ Hpre Hd Hne Hrest). simpl.
  now apply zfill_digits.
Qed.

Lemma normalize_key_no_digit (level : string) (w : Z) (s : string) :
  Keys.key_width level = Some w -> Keys.no_digit s ->
  Keys.normalize_key level s = EmptyString.
Proof.
  intros Hw Hs. unfold Keys.normalize_key, Keys.extract_zfill.
  now rewrite Hw, (search_digits_none _ Hs).
Qed.

Lemma zeros_length (n : nat) : String.length (PyStr.zeros n) = n.
Proof.
  unfold PyStr.zeros. induction n as [|n IH]; simpl; [reflexivity|].
  now rewrite IH.
Qed.

Lemma string_length_app (a b : string) :
  String.length (a ++ b) = (String.length a + String.length b)%nat.
Proof.
  induction a as [|c a IH]; [reflexivity|].
  change (S (String.length (a ++ b)) = S (String.length a + String.length b)).
  now rewrite IH.
Qed.

(** A zcta geometry key, [zfill(5)] of a text, is never empty. *)
Lemma zfill_5_not_empty (g : string) : PyStr.zfill 5 g <> EmptyString.
Proof.
  unfold PyStr.zfill. destruct g as [|c g].
  - discriminate.
  - destruct (_ || _)%bool; [discriminate|].
    intros H. apply (f_equal String.length) in H.
    rewrite string_length_app in H. simpl in H. lia.
Qed.

(** ** The merge *)

Section MergeFacts.

Context {K L R : Type} `{EqDecision K}.
Variable lkey : L -> K.
Variable rkey : R -> K.

Lemma matches_In (k : K) (right : list R) (r : R) :
  In r (Join.matches rkey k right) <-> In r right /\ rkey r = k.
Proof.
  unfold Join.matches. rewrite filter_In. split.
  - intros [H1 H2]. split; [exact H1|]. now apply bool_decide_eq_true in H2.
  - intros [H1 H2]. split; [exact H1|]. now apply bool_decide_eq_true.
Qed.

Lemma merge_row_Some (right : list R) (l l' : L) (r : R) :
  In (l', Some r) (Join.merge_row lkey rkey right l)
  <-> l' = l /\ In r right /\ rkey r = lkey l.
Proof.
  unfold Join.merge_row.
  pose proof (matches_In (lkey l) right r) as Hm.
  destruct (Join.matches rkey (lkey l) right) as [|m ms] eqn:E.
  - simpl. split.
    + intros [H|[]]. discriminate.
    + intros (_ & H1 & H2). exfalso. now apply Hm.
  - rewrite in_map_iff. split.
    + intros (x & [= <- <-] & Hx). split; [reflexivity|]. now apply Hm.
    + intros (-> & H1 & H2). exists r. split; [reflexivity|]. now apply Hm.
Qed.

Lemma merge_row_None (right : list R) (l l' : L) :
  In (l', None) (Join.merge_row lkey rkey right l)
  <-> l' = l /\ forall r, In r right -> rkey r <> lkey l.
Proof.
  unfold Join.merge_row.
  pose proof (fun r => matches_In (lkey l) right r) as Hm.
  destruct (Join.matches rkey (lkey l) right) as [|m ms] eqn:E.
  - simpl. split.
    + intros [[= <-]|[]]. split; [reflexivity|].
      intros r Hr Hk. now apply (Hm r).
    + intros [-> _]. now left.
  - split.
    + rewrite in_map_iff. intros (x & [=] & _).
    + intros [_ Hno]. exfalso. apply (Hno m).
      * apply (Hm m). now left.
      * apply (Hm m). now left.
Qed.

Lemma merge_In_Some (left : list L) (right : list R) (l : L) (r : R) :
  In (l, Some r) (Join.merge lkey rkey left right)
  <-> In l left /\ In r right /\ rkey r = lkey l.
Proof.
  unfold Join.merge. rewrite in_flat_map. split.
  - intros (x & Hx & H). apply merge_row_Some in H as (-> & H1 & H2). auto.
  - intros (H1 & H2 & H3). exists l. split; [exact H1|].
    apply merge_row_Some. auto.
Qed.

Lemma merge_In_None (left : list L) (right : list R) (l : L) :
  In (l, None) (Join.merge lkey rkey left right)
  <-> In l left /\ forall r, In r right -> rkey r <> lkey l.
Proof.
  unfold Join.merge. rewrite in_flat_map. split.
  - intros (x & Hx & H). apply merge_row_None in H as (-> & H). auto.
  - intros (H1 & H2). exists l. split; [exact H1|].
    apply merge_row_None. auto.
Qed.

(** The geometry part of the rows one geometry row gives rise to. *)
Lemma merge_row_fst (right : list R) (l : L) :
  map fst (Join.merge_row lkey rkey right l)
  = repeat l (Nat.max 1 (length (Join.matches rkey (lkey l) right))).
Proof.
  unfold Join.merge_row.
  destruct (Join.matches rkey (lkey l) right) as [|m ms]; [reflexivity|].
  change (Nat.max 1 (length (m :: ms))) with (S (length ms)).
  simpl. f_equal. induction ms as [|x ms IH]; simpl; [reflexivity|].
  now rewrite IH.
Qed.

Lemma merge_fst (left : list L) (right : list R) :
  map fst (Join.merge lkey rkey left right)
  = flat_map
      (fun l => repeat l (Nat.max 1 (length (Join.matches rkey (lkey l) right))))
      left.
Proof.
  unfold Join.merge. induction left as [|l left IH]; simpl; [reflexivity|].
  now rewrite map_app, merge_row_fst, IH.
Qed.

Lemma matches_unique (k : K) (right : list R) :
  List.NoDup (map rkey right) -> (length (Join.matches rkey k right) <= 1)%nat.
Proof.
  unfold Join.matches. induction right as [|r right IH]; simpl; [lia|].
  intros Hnd. inversion Hnd as [|? ? Hr Hright]; subst.
  specialize (IH Hright).
  destruct (bool_decide (rkey r = k)) eqn:E; [|exact IH].
  apply bool_decide_eq_true in E. simpl.
  destruct (List.filter _ right) as [|x xs] eqn:F; [simpl; lia|].
  exfalso. apply Hr.
  assert (Hx : In x (List.filter (fun r0 => bool_decide (rkey r0 = k)) right))
    by (rewrite F; now left).
  apply filter_In in Hx as [Hx1 Hx2]. apply bool_decide_eq_true in Hx2.
  rewrite E, <- Hx2. now apply in_map.
Qed.

Lemma merge_fst_unique_keys (left : list L) (right : list R) :
  List.NoDup (map rkey right) ->
  map fst (Join.merge lkey rkey left right) = left.
Proof.
  intros Hnd. rewrite merge_fst.
  induction left as [|l left IH]; simpl; [reflexivity|].
  rewrite IH. pose proof (matches_unique (lkey l) right Hnd) as Hle.
  destruct (length (Join.matches rkey (lkey l) right)) as [|[|n]];
    [reflexivity|reflexivity|lia].
Qed.

End MergeFacts.

Lemma level_width (level : string) :
  In level Keys.LEVELS ->
  exists w, Keys.key_width level = Some w /\ In (level, w) Keys.SPEC_WIDTHS.
Proof.
  intros H. simpl in H.
  each_token H; eexists; (split; [reflexivity|]); simpl; auto 10.
Qed.

Lemma defaults_not_empty (level key : string) :
  In level Keys.LEVELS -> In key (Keys.defaults level) -> key <> EmptyString.
Proof.
  intros H Hk. simpl in H.
  each_token H; simpl in Hk; each_token Hk; discriminate.
Qed.

(** [normalize_csv_key] returns whenever the table has one of the
    level's candidate columns: [_J] then holds the normalized key of
    every value of the first candidate that is present. *)
Lemma normalize_csv_key_returns (float_str : float -> string)
    (level : string) (df : Frame.frame) :
  In level Keys.LEVELS ->
  (exists c, In c (Keys.defaults level) /\ Frame.has_column df c = true) ->
  exists key col,
    Keys.first_present df (Keys.defaults level) = Some key
    /\ df !! key = Some col
    /\ Keys.normalize_csv_key float_str level df None
       = inr (<["_J" := Frame.Object
                  (map (fun v => Some (Keys.normalize_key level v))
                       (Frame.astype_str float_str col))]> df, "_J").
Proof.
  intros Hlevel (c & Hc & Hhas).
  unfold Keys.normalize_csv_key. simpl States.truthy. cbv iota.
  destruct (Keys.first_present df (Keys.defaults level)) as [key|] eqn:E.
  - unfold Keys.first_present in E. apply find_some in E as [Hin Hk].
    pose proof (defaults_not_empty _ _ Hlevel Hin) as Hne.
    unfold Frame.has_column in Hk. apply bool_decide_eq_true in Hk as [col Hcol].
    exists key, col. split; [reflexivity|]. split; [exact Hcol|].
    destruct key as [|a key]; [contradiction Hne; reflexivity|].
    now rewrite Hcol.
  - exfalso. unfold Keys.first_present in E.
    pose proof (find_none _ _ E c Hc) as Hn. congruence.
Qed.

(** The CSV key of the command-line tool at the zcta level is derived the
    same way, to width 5, but with no [fillna]: a value with no digit
    gives a missing key, which equals no geometry key. *)
Lemma prepare_zcta_csv_key_spec :
  (forall pre d rest,
     Keys.no_digit pre -> Keys.all_digits d -> d <> EmptyString ->
     Keys.no_digit_ahead rest ->
     Keys.prepare_zcta_csv_key (pre ++ d ++ rest)
     = Some (PyStr.zeros (Z.to_nat (5 - PyStr.len d)) ++ d))
  /\ (forall s, Keys.no_digit s -> Keys.prepare_zcta_csv_key s = None)
  /\ (forall (L R : Type) (lkey : L -> string) (rkey : R -> option string)
             (left : list L) (right : list R) (l : L) (r : R),
        rkey r = None ->
        ~ In (l, Some r) (Join.merge (fun x => Some (lkey x)) rkey left right)).
Proof.
  split; [|split].
  - intros pre d rest Hpre Hd Hne Hrest.
    unfold Keys.prepare_zcta_csv_key, Keys.extract_zfill.
    rewrite (search_digits_run _ _ _ Hpre Hd Hne Hrest). simpl.
    now rewrite zfill_digits.
  - intros s Hs. unfold Keys.prepare_zcta_csv_key, Keys.extract_zfill.
    now rewrite (search_digits_none _ Hs).
  - intros L R lkey rkey left right l r Hr Hin.
    apply merge_In_Some in Hin as (_ & _ & E). congruence.
Qed.

(** [int.__str__] writes a non-negative integer in digits only. *)
Lemma pretty_N_char_digit (x : N) :
  (x < 10)%N -> PyStr.is_digit (pretty_N_char x) = true.
Proof.
  intros H.
  assert (Hc : (x = 0 \/ x = 1 \/ x = 2 \/ x = 3 \/ x = 4 \/ x = 5 \/ x = 6
                \/ x = 7 \/ x = 8 \/ x = 9)%N) by lia.
  repeat (destruct Hc as [->|Hc]; [reflexivity|]). now subst.
Qed.

Lemma pretty_N_go_digits (x : N) :
  forall s,
    Keys.all_digits s ->
    Keys.all_digits (pretty_N_go x s)
    /\ (String.length s <= String.length (pretty_N_go x s))%nat.
Proof.
  induction (N.lt_wf_0 x) as [x _ IH]. intros s Hs.
  destruct (N.eq_dec x 0%N) as [->|Hx].
  - rewrite pretty_N_go_0. split; [exact Hs|lia].
  - rewrite pretty_N_go_step by lia.
    assert (Hlt : (N.div x 10 < x)%N) by (apply N.div_lt; lia).
    destruct (IH (N.div x 10) Hlt
                (String (pretty_N_char (N.modulo x 10)) s)) as [Hd Hl].
    + unfold Keys.all_digits in *. simpl. rewrite Hs, andb_true_r.
      apply pretty_N_char_digit. apply N.mod_lt. lia.
    + split; [exact Hd|]. simpl in Hl. lia.
Qed.

Lemma int_str_digits (n : Z) :
  0 <= n ->
  Keys.all_digits (Frame.int_str n) /\ Frame.int_str n <> EmptyString.
Proof.
  intros Hn. unfold Frame.int_str, pretty, pretty_Z.
  destruct n as [|p|p]; [split; [reflexivity|discriminate]| |lia].
  unfold pretty, pretty_positive, pretty, pretty_N.
  destruct (decide (N.pos p = 0%N)) as [E|_]; [discriminate E|].
  destruct (pretty_N_go_digits (N.pos p) EmptyString eq_refl) as [Hd Hl].
  split; [exact Hd|].
  rewrite pretty_N_go_step in Hl |- * by lia.
  destruct (pretty_N_go_digits (N.div (N.pos p) 10)
              (String (pretty_N_char (N.modulo (N.pos p) 10)) EmptyString))
    as [_ Hl'].
  { unfold Keys.all_digits. simpl. rewrite andb_true_r.
    apply pretty_N_char_digit. apply N.mod_lt. lia. }
  simpl in Hl'. intros E. rewrite E in Hl'. simpl in Hl'. lia.
Qed.

(** The key of an integer value: the digits of its absolute value,
    padded. *)
Lemma extract_zfill_int (w : Z) (n : Z) :
  Keys.extract_zfill w (Frame.int_str n)
  = Some (PyStr.zeros (Z.to_nat (w - PyStr.len (Frame.int_str (Z.abs n))))
          ++ Frame.int_str (Z.abs n)).
Proof.
  destruct (int_str_digits (Z.abs n) ltac:(lia)) as [Hd Hne].
  set (d := Frame.int_str (Z.abs n)) in *.
  assert (Hsearch : PyStr.search_digits (Frame.int_str n) = Some d).
  { destruct (Z.neg_nonneg_cases n) as [Hneg|Hpos].
    - pose proof (search_digits_run "-" d EmptyString eq_refl Hd Hne I) as Hrun.
      rewrite append_empty in Hrun. rewrite <- Hrun. f_equal.
      destruct n as [|p|p]; [lia|lia|reflexivity].
    - pose proof (search_digits_run EmptyString d EmptyString eq_refl Hd Hne I)
        as Hrun.
      rewrite append_empty in Hrun. change (EmptyString ++ d) with d in Hrun.
      rewrite <- Hrun. f_equal. unfold d. now rewrite Z.abs_eq. }
  unfold Keys.extract_zfill. rewrite Hsearch. simpl. now rewrite zfill_digits.
Qed.

Lemma normalize_key_int (level : string) (w : Z) (n : Z) :
  Keys.key_width level = Some w ->
  Keys.normalize_key level (Frame.int_str n)
  = PyStr.zeros (Z.to_nat (w - PyStr.len (Frame.int_str (Z.abs n))))
    ++ Frame.int_str (Z.abs n).
Proof.
  intros Hw. unfold Keys.normalize_key. now rewrite Hw, extract_zfill_int.
Qed.

Lemma zfill_no_sign (w : Z) (s : string) :
  match s with
  | String c _ => (Ascii.eqb c "+" || Ascii.eqb c "-")%bool = false
  | EmptyString => True
  end ->
  PyStr.zfill w s = PyStr.zeros (Z.to_nat (w - PyStr.len s)) ++ s.
Proof.
  unfold PyStr.zfill. destruct s as [|c s].
  - intros _. now rewrite append_empty.
  - now intros ->.
Qed.

Section KeyColumns.

Variable float_str : float -> string.

(** The column [_J] that [normalize_csv_key] derives, by the dtype of
    the key column: the key of a text is the key of that text and a
    missing value gets the empty key; an integer is keyed by its decimal
    digits, a float by its [str]. *)
Lemma normalize_csv_key_column (level : string) (w : Z) (df : Frame.frame)
    (key : string) (col : Frame.series) :
  In level Keys.LEVELS -> Keys.key_width level = Some w ->
  Keys.first_present df (Keys.defaults level) = Some key ->
  df !! key = Some col ->
  Keys.normalize_csv_key float_str level df None
  = inr (<["_J" :=
            Frame.Object
              match col with
              | Frame.Object xs =>
                  map (fun o => Some match o with
                                     | Some t => Keys.normalize_key level t
                                     | None => EmptyString
                                     end) xs
              | Frame.Int64 ns =>
                  map (fun n =>
                         Some (PyStr.zeros
                                 (Z.to_nat (w - PyStr.len (Frame.int_str (Z.abs n))))
                               ++ Frame.int_str (Z.abs n))) ns
              | Frame.Float64 xs =>
                  map (fun x => Some (Keys.normalize_key level (float_str x))) xs
              end]> df, "_J").
Proof.
  intros Hlevel Hw Hfirst Hcol.
  unfold Keys.normalize_csv_key. simpl States.truthy. cbv iota.
  rewrite Hfirst.
  unfold Keys.first_present in Hfirst. apply find_some in Hfirst as [Hin _].
  pose proof (defaults_not_empty _ _ Hlevel Hin) as Hne.
  destruct key as [|a key]; [contradiction Hne; reflexivity|].
  rewrite Hcol. unfold ret. do 3 f_equal.
  destruct col as [xs|ns|xs]; simpl Frame.astype_str; rewrite map_map; f_equal.
  - apply map_ext. intros n. f_equal. now apply normalize_key_int.
  - apply map_ext. intros [t|]; [reflexivity|]. f_equal.
    apply (normalize_key_no_digit level w); [exact Hw|reflexivity].
Qed.

(** The column [_ZCTA5] that [prepare_zcta] derives from the CSV: as in
    the serving layer at the zcta level, but a value with no digit, or a
    missing one, leaves the key missing. *)
Lemma prepare_zcta_csv_column (df : Frame.frame) (key : string)
    (col : Frame.series) :
  Keys.first_present df Keys.ZIP_COLUMNS = Some key ->
  df !! key = Some col ->
  Keys.prepare_zcta_csv float_str df
  = inr (<["_ZCTA5" :=
            Frame.Object
              match col with
              | Frame.Object xs =>
                  map (fun o => match o with
                                | Some t => Keys.prepare_zcta_csv_key t
                                | None => None
                                end) xs
              | Frame.Int64 ns =>
                  map (fun n =>
                         Some (PyStr.zeros
                                 (Z.to_nat (5 - PyStr.len (Frame.int_str (Z.abs n))))
                               ++ Frame.int_str (Z.abs n))) ns
              | Frame.Float64 xs =>
                  map (fun x => Keys.prepare_zcta_csv_key (float_str x)) xs
              end]> df).
Proof.
  intros Hfirst Hcol. unfold Keys.prepare_zcta_csv. rewrite Hfirst.
  unfold Keys.first_present in Hfirst. apply find_some in Hfirst as [Hin _].
  assert (Hne : key <> EmptyString)
    by (simpl in Hin; each_token Hin; discriminate).
  destruct key as [|a key]; [contradiction Hne; reflexivity|].
  rewrite Hcol. unfold ret. do 2 f_equal.
  destruct col as [xs|ns|xs]; simpl Frame.astype_str; rewrite ?map_map; f_equal.
  - apply map_ext. intros n. apply extract_zfill_int.
  - apply map_ext. now intros [t|].
Qed.

End KeyColumns.

(** C3, as the code has it.  In the serving layer, at each of the seven
    levels, the key normalizer takes the first run of digits of the text
    form of the value and puts zeros in front of it up to the width of
    the level; a value with no digit, or a missing one, gets the empty
    text, and the normalizer returns, rather than raising, whenever the
    key column is there; in the join an empty key meets only a geometry
    row whose own key is the empty text, so none at the zcta level.  In
    the command-line tool [prepare_zcta] derives the key the same way to
    width 5 but leaves the key of a value with no digit missing, which
    equals no geometry key, and [prepare_place] and [prepare_cousub] pad
    the whole text to 7 and 10 and extract nothing. *)
Theorem key_normalizer_spec :
  (forall level,
     In level Keys.LEVELS ->
     exists w,
       Keys.key_width level = Some w
       /\ In (level, w) Keys.SPEC_WIDTHS
       /\ (forall pre d rest,
             Keys.no_digit pre -> Keys.all_digits d -> d <> EmptyString ->
             Keys.no_digit_ahead rest ->
             Keys.normalize_key level (pre ++ d ++ rest)
             = PyStr.zeros (Z.to_nat (w - PyStr.len d)) ++ d)
       /\ (forall s, Keys.no_digit s -> Keys.normalize_key level s = EmptyString)
       /\ (forall float_str df,
             (exists c, In c (Keys.defaults level) /\ Frame.has_column df c = true) ->
             exists key col,
               Keys.first_present df (Keys.defaults level) = Some key
               /\ df !! key = Some col
               /\ Keys.normalize_csv_key float_str level df None
                  = inr (<["_J" :=
                            Frame.Object
                              match col with
                              | Frame.Object xs =>
                                  map (fun o =>
                                         Some match o with
                                              | Some t => Keys.normalize_key level t
                                              | None => EmptyString
                                              end) xs
                              | Frame.Int64 ns =>
                                  map (fun n =>
                                         Some (PyStr.zeros
                                                 (Z.to_nat
                                                    (w - PyStr.len
                                                           (Frame.int_str (Z.abs n))))
                                               ++ Frame.int_str (Z.abs n))) ns
                              | Frame.Float64 xs =>
                                  map (fun x =>
                                         Some (Keys.normalize_key level
                                                 (float_str x))) xs
                              end]> df, "_J"))
       /\ (forall (L R : Type) (lkey : L -> string) (rkey : R -> string)
                  (left : list L) (right : list R) (l : L) (r : R),
             rkey r = EmptyString ->
             In (l, Some r)
                (Join.merge (fun x => Keys.geometry_key level (lkey x)) rkey
                   left right)
             <-> In l left /\ In r right
                 /\ Keys.geometry_key level (lkey l) = EmptyString))
  /\ (forall g, Keys.geometry_key "zcta" g <> EmptyString)
  /\ (forall pre d rest,
        Keys.no_digit pre -> Keys.all_digits d -> d <> EmptyString ->
        Keys.no_digit_ahead rest ->
        Keys.prepare_zcta_csv_key (pre ++ d ++ rest)
        = Some (PyStr.zeros (Z.to_nat (5 - PyStr.len d)) ++ d))
  /\ (forall s, Keys.no_digit s -> Keys.prepare_zcta_csv_key s = None)
  /\ (forall float_str df key col,
        Keys.first_present df Keys.ZIP_COLUMNS = Some key ->
        df !! key = Some col ->
        Keys.prepare_zcta_csv float_str df
        = inr (<["_ZCTA5" :=
                  Frame.Object
                    match col with
                    | Frame.Object xs =>
                        map (fun o => match o with
                                      | Some t => Keys.prepare_zcta_csv_key t
                                      | None => None
                                      end) xs
                    | Frame.Int64 ns =>
                        map (fun n =>
                               Some (PyStr.zeros
                                       (Z.to_nat
                                          (5 - PyStr.len (Frame.int_str (Z.abs n))))
                                     ++ Frame.int_str (Z.abs n))) ns
                    | Frame.Float64 xs =>
                        map (fun x => Keys.prepare_zcta_csv_key (float_str x)) xs
                    end]> df))
  /\ (forall (L R : Type) (lkey : L -> string) (rkey : R -> option string)
             (left : list L) (right : list R) (l : L) (r : R),
        rkey r = None ->
        ~ In (l, Some r)
            (Join.merge (fun x => Keys.prepare_zcta_geometry_key (lkey x)) rkey
               left right))
  /\ (forall s,
        match s with
        | String c _ => (Ascii.eqb c "+" || Ascii.eqb c "-")%bool = false
        | EmptyString => True
        end ->
        Keys.prepare_place_csv_key s
        = PyStr.zeros (Z.to_nat (7 - PyStr.len s)) ++ s
        /\ Keys.prepare_cousub_csv_key s
           = PyStr.zeros (Z.to_nat (10 - PyStr.len s)) ++ s).
Proof.
  split; [|split; [|split; [|split; [|split; [|split]]]]].
  - intros level Hlevel. destruct (level_width _ Hlevel) as (w & Hw & Hin).
    exists w. split; [exact Hw|]. split; [exact Hin|].
    split; [|split; [|split]].
    + intros pre d rest. now apply normalize_key_digits.
    + intros s. now apply (normalize_key_no_digit level w).
    + intros float_str df Hc.
      destruct (normalize_csv_key_returns float_str level df Hlevel Hc)
        as (key & col & Hfirst & Hcol & _).
      exists key, col. split; [exact Hfirst|]. split; [exact Hcol|].
      exact (normalize_csv_key_column float_str level w df key col Hlevel Hw
               Hfirst Hcol).
    + intros L R lkey rkey left right l r Hr.
      rewrite merge_In_Some, Hr. split.
      * intros (Hl & Hrr & E). auto.
      * intros (Hl & Hrr & E). auto.
  - intros g. apply zfill_5_not_empty.
  - intros pre d rest Hpre Hd Hne Hrest.
    unfold Keys.prepare_zcta_csv_key, Keys.extract_zfill.
    rewrite (search_digits_run _ _ _ Hpre Hd Hne Hrest). simpl.
    now rewrite zfill_digits.
  - intros s Hs. unfold Keys.prepare_zcta_csv_key, Keys.extract_zfill.
    now rewrite (search_digits_none _ Hs).
  - intros float_str df key col. apply prepare_zcta_csv_column.
  - intros L R lkey rkey left right l r Hr Hin.
    apply merge_In_Some in Hin as (_ & _ & E).
    unfold Keys.prepare_zcta_geometry_key in E. congruence.
  - intros s Hs. unfold Keys.prepare_place_csv_key, Keys.prepare_cousub_csv_key.
    split; now apply zfill_no_sign.
Qed.

(** A CSV whose ZIP column was parsed as integers, and one with texts
    and a missing value: the keys of the serving layer. *)
Lemma key_normalizer_spec_witness :
  Keys.normalize_key "place" "FL-012345" = "0012345"
  /\ Keys.normalize_key "place" "n/a" = EmptyString
  /\ Keys.normalize_csv_key (fun _ => "nan") "zcta"
       (<["ZIP" := Frame.Int64 [1001; 33101]]> ∅) None
     = inr (<["_J" := Frame.Object [Some "01001"; Some "33101"]]>
              (<["ZIP" := Frame.Int64 [1001; 33101]]> ∅), "_J")
  /\ Keys.normalize_csv_key (fun _ => "nan") "county"
       (<["FIPS" := Frame.Object [Some "1001"; None; Some "n/a"]]> ∅) None
     = inr (<["_J" := Frame.Object [Some "01001"; Some EmptyString; Some EmptyString]]>
              (<["FIPS" := Frame.Object [Some "1001"; None; Some "n/a"]]> ∅), "_J").
Proof.
  destruct key_normalizer_spec as (Hserve & _).
  split; [|split; [|split]].
  - destruct (Hserve "place" ltac:(simpl; auto)) as (w & Hw & _ & Hrun & _).
    injection Hw as <-.
    apply (Hrun "FL-" "012345" EmptyString); try reflexivity. discriminate.
  - destruct (Hserve "place" ltac:(simpl; auto)) as (w & Hw & _ & _ & Hnone & _).
    apply (Hnone "n/a"). reflexivity.
  - destruct (Hserve "zcta" ltac:(simpl; auto 10))
      as (w & Hw & _ & _ & _ & Hcol & _).
    injection Hw as <-.
    destruct (Hcol (fun _ => "nan") (<["ZIP" := Frame.Int64 [1001; 33101]]> ∅))
      as (key & col & Hfirst & Hc & Hrun).
    { exists "ZIP". split; [simpl; auto|reflexivity]. }
    vm_compute in Hfirst. injection Hfirst as <-.
    vm_compute in Hc. injection Hc as <-. exact Hrun.
  - destruct (Hserve "county" ltac:(simpl; auto 10))
      as (w & Hw & _ & _ & _ & Hcol & _).
    injection Hw as <-.
    destruct (Hcol (fun _ => "nan")
                (<["FIPS" := Frame.Object [Some "1001"; None; Some "n/a"]]> ∅))
      as (key & col & Hfirst & Hc & Hrun).
    { exists "FIPS". split; [simpl; auto|reflexivity]. }
    vm_compute in Hfirst. injection Hfirst as <-.
    vm_compute in Hc. injection Hc as <-. exact Hrun.
Defined.

(** C3 as stated fails.  In [prepare_zcta], which has no [fillna], a
    value with no digit gets a missing key, not the empty text; in
    [prepare_place] and [prepare_cousub] no digits are extracted, so a
    prefixed value keeps its prefix; and in the serving layer the empty
    key of a value with no digit does match: a geometry row whose own
    identifier is the empty text. *)
Lemma key_normalizer_counterexample :
  Keys.prepare_zcta_csv_key "n/a" = None
  /\ Keys.prepare_place_csv_key "FL-012345" = "FL-012345"
  /\ Keys.prepare_cousub_csv_key "n/a" = "0000000n/a"
  /\ Keys.normalize_key "place" "n/a" = EmptyString
  /\ Join.merge (fun g : string => Keys.geometry_key "place" g)
       (fun v : string => Keys.normalize_key "place" v)
       [EmptyString; "1200100"] ["n/a"; "1200100"]
     = [(EmptyString, Some "n/a"); ("1200100", Some "1200100")].
Proof. repeat split; vm_compute; reflexivity. Qed.

(** C2, as the code has it: the merge keeps the geometry rows in order,
    each at least once, and exactly once when no two CSV rows share a
    key; a geometry row whose key matches no CSV row appears once, with
    null in every CSV column; a CSV row is in the output only beside a
    geometry row with its key, so one whose key matches no geometry row is
    absent. *)
Theorem left_merge_rows {K L R : Type} `{EqDecision K}
    (lkey : L -> K) (rkey : R -> K) (left : list L) (right : list R) :
  map fst (Join.merge lkey rkey left right)
  = flat_map
      (fun l => repeat l (Nat.max 1 (length (Join.matches rkey (lkey l) right))))
      left
  /\ (List.NoDup (map rkey right) ->
      map fst (Join.merge lkey rkey left right) = left)
  /\ (forall l, (forall r, In r right -> rkey r <> lkey l) ->
        Join.merge_row lkey rkey right l = [(l, None)]
        /\ forall (V : Type) (col : R -> V), Join.csv_cell col (l, None) = None)
  /\ (forall l r, In (l, Some r) (Join.merge lkey rkey left right) ->
        In l left /\ In r right /\ rkey r = lkey l)
  /\ (forall r, (forall l, In l left -> lkey l <> rkey r) ->
        forall l, ~ In (l, Some r) (Join.merge lkey rkey left right)).
Proof.
  split; [apply merge_fst|]. split; [apply merge_fst_unique_keys|].
  split; [|split].
  - intros l Hno. split; [|reflexivity].
    unfold Join.merge_row.
    destruct (Join.matches rkey (lkey l) right) as [|m ms] eqn:E; [reflexivity|].
    exfalso. apply (Hno m); apply (matches_In rkey (lkey l) right m);
      rewrite E; now left.
  - intros l r. apply merge_In_Some.
  - intros r Hno l Hin. apply merge_In_Some in Hin as (Hl & _ & E).
    now apply (Hno l Hl).
Qed.

(** Three geometry rows and a CSV with one matching key and one key that
    matches nothing: three output rows, two of them with null CSV
    columns, and the unmatched CSV row is gone. *)
Lemma left_merge_rows_witness :
  map fst (Join.merge (K:=string) fst fst
             [("12001", 1%nat); ("12003", 2%nat); ("12005", 3%nat)]
             [("12003", 40%nat); ("99999", 50%nat)])
  = [("12001", 1%nat); ("12003", 2%nat); ("12005", 3%nat)].
Proof.
  apply (left_merge_rows (K:=string) fst fst).
  apply NoDup_ListNoDup. apply (bool_decide_unpack _). vm_compute. exact I.
Defined.

(** C2 as stated fails: one geometry row and two CSV rows with its key
    give two output rows. *)
Lemma merge_duplicate_keys_counterexample :
  Join.merge (K:=string) fst fst
    [("12001", 1%nat)] [("12001", 10%nat); ("12001", 11%nat)]
  = [ (("12001", 1%nat), Some ("12001", 10%nat));
      (("12001", 1%nat), Some ("12001", 11%nat)) ].
Proof. reflexivity. Qed.

(** ** Derived rates *)

Lemma where_div_rate (num hh : list float) :
  Rates.where_ (Rates.div_series num hh) (Rates.gt_zero hh)
  = zip_with Rates.rate num hh.
Proof.
  unfold Rates.where_, Rates.div_series, Rates.gt_zero.
  revert hh. induction num as [|x num IH]; intros [|h hh]; simpl; try reflexivity.
  now rewrite IH.
Qed.

Lemma has_columns_true (df : Frame.frame) (cols : list string) :
  Frame.has_columns df cols = true <-> forall c, In c cols -> is_Some (df !! c).
Proof.
  unfold Frame.has_columns, Frame.has_column. rewrite forallb_forall.
  split; intros H c Hc.
  - specialize (H c Hc). now apply bool_decide_eq_true in H.
  - apply bool_decide_eq_true. now apply H.
Qed.

Lemma column_as_float_present (parse_float : string -> option float)
    (df : Frame.frame) (c : string) (xs : list float) :
  Rates.column_as_float parse_float df c = inr xs -> is_Some (df !! c).
Proof.
  unfold Rates.column_as_float, Rates.getitem.
  destruct (df !! c); [eauto|discriminate].
Qed.

Lemma column_as_float_insert (parse_float : string -> option float)
    (df : Frame.frame) (c c' : string) (s : Frame.series) :
  c' <> c ->
  Rates.column_as_float parse_float (<[c' := s]> df) c
  = Rates.column_as_float parse_float df c.
Proof.
  intros Hne. unfold Rates.column_as_float, Rates.getitem, Frame.frame in *.
  now rewrite lookup_insert_ne.
Qed.

(** The table [compute_rates] returns when the three columns are there. *)
Lemma compute_rates_present (parse_float : string -> option float)
    (df : Frame.frame) (hh pov alice : list float) :
  Rates.column_as_float parse_float df "Households" = inr hh ->
  Rates.column_as_float parse_float df "Poverty Households" = inr pov ->
  Rates.column_as_float parse_float df "ALICE Households" = inr alice ->
  Rates.compute_rates parse_float df
  = inr (<["ALICE_Rate" := Frame.Float64 (zip_with Rates.rate alice hh)]>
         (<["Poverty_Rate" := Frame.Float64 (zip_with Rates.rate pov hh)]>
          (<["Below_ALICE_Rate" :=
               Frame.Float64
                 (zip_with Rates.rate (zip_with PrimFloat.add pov alice) hh)]> df))).
Proof.
  intros Hh Hp Ha. unfold Rates.compute_rates.
  assert (Hall : Frame.has_columns df Rates.NEEDED = true).
  { apply has_columns_true. intros c Hc. simpl in Hc.
    each_token Hc; eauto using column_as_float_present. }
  rewrite Hall, Hh, Hp, Ha. simpl bind.
  rewrite !column_as_float_insert by discriminate.
  rewrite Hp. simpl bind.
  rewrite !column_as_float_insert by discriminate.
  rewrite Ha. simpl bind.
  rewrite !where_div_rate. reflexivity.
Qed.





(** ** Source resolver *)

Lemma py_range_cons (a hi : Z) :
  a < hi -> Net.py_range a hi = a :: Net.py_range (a + 1) hi.
Proof.
  intros H. unfold Net.py_range.
  replace (Z.to_nat (hi - a)) with (S (Z.to_nat (hi - (a + 1)))) by lia.
  simpl. f_equal; [lia|].
  rewrite <- seq_shift, map_map. apply map_ext. intros i. lia.
Qed.

Lemma py_range_nil (a hi : Z) : hi <= a -> Net.py_range a hi = [].
Proof.
  intros H. unfold Net.py_range.
  now replace (Z.to_nat (hi - a)) with 0%nat by lia.
Qed.

Lemma requests_app (t t' : list Net.event) :
  Net.requests (t ++ t') = (Net.requests t ++ Net.requests t')%list.
Proof. apply omap_app. Qed.

Lemma answers_from_S (network : nat -> Net.method -> string -> result Net.response)
    (m : Net.method) (url : string) (c n : nat) :
  Net.answers_from network m url c (S n)
  = network c m url :: Net.answers_from network m url (S c) n.
Proof.
  unfold Net.answers_from. simpl. rewrite Nat.add_0_r. f_equal.
  rewrite <- seq_shift, map_map. apply map_ext. intros j. f_equal. lia.
Qed.

(** [time.sleep] either sleeps, which the trace records, or raises and
    leaves the world as it was. *)
Lemma sleep_cases (wait : float) (factor : Z) (w : Net.world) :
  (Net.sleep_error wait factor = None
   /\ Net.sleep wait factor w
      = ({| Net.files := Net.files w; Net.clock := Net.clock w;
            Net.trace := (Net.trace w ++ [Net.Sleep wait factor])%list |}, inr tt))
  \/ (exists e, Net.sleep_error wait factor = Some e
                /\ Net.sleep wait factor w = (w, inl e)).
Proof.
  unfold Net.sleep. destruct (Net.sleep_error wait factor) as [e|].
  - right. exists e. split; reflexivity.
  - left. split; reflexivity.
Qed.

Lemma sleepable_error (wait : float) (factor : Z) :
  Net.sleepable wait factor = true <-> Net.sleep_error wait factor = None.
Proof.
  unfold Net.sleepable. destruct (Net.sleep_error wait factor); split;
    congruence.
Qed.

Lemma backoff_trace_cons (m : Net.method) (url : string) (wait : float) (a : Z)
    (x y : result Net.response) (rest : list (result Net.response)) :
  Net.backoff_trace m url wait a (x :: y :: rest)
  = Net.Request m url x :: Net.Sleep wait (2 ^ (a - 1))
      :: Net.backoff_trace m url wait (a + 1) (y :: rest).
Proof. reflexivity. Qed.

Lemma backoff_trace_step (m : Net.method) (url : string) (wait : float) (a : Z)
    (x : result Net.response) (rest : list (result Net.response)) :
  (0 < length rest)%nat ->
  Net.backoff_trace m url wait a (x :: rest)
  = Net.Request m url x :: Net.Sleep wait (2 ^ (a - 1))
      :: Net.backoff_trace m url wait (a + 1) rest.
Proof. destruct rest; simpl; [lia|reflexivity]. Qed.

Lemma requests_request (m : Net.method) (url : string) (x : result Net.response)
    (t : list Net.event) :
  Net.requests (Net.Request m url x :: t) = (m, url, x) :: Net.requests t.
Proof. reflexivity. Qed.

Lemma requests_sleep (wait : float) (f : Z) (t : list Net.event) :
  Net.requests (Net.Sleep wait f :: t) = Net.requests t.
Proof. reflexivity. Qed.

Lemma requests_backoff_trace (m : Net.method) (url : string) (wait : float)
    (answers : list (result Net.response)) :
  forall a,
    Net.requests (Net.backoff_trace m url wait a answers)
    = map (fun x => (m, url, x)) answers.
Proof.
  induction answers as [|x [|y rest] IH]; intros a; [reflexivity..|].
  rewrite backoff_trace_cons, requests_request, requests_sleep, IH.
  reflexivity.
Qed.

Lemma world_eta (w : Net.world) :
  w = {| Net.files := Net.files w; Net.clock := (Net.clock w + 0)%nat;
         Net.trace := (Net.trace w ++ [])%list |}.
Proof. destruct w. simpl. now rewrite Nat.add_0_r, app_nil_r. Qed.

Lemma answers_from_length (network : nat -> Net.method -> string -> result Net.response)
    (m : Net.method) (url : string) (c n : nat) :
  length (Net.answers_from network m url c n) = n.
Proof. unfold Net.answers_from. now rewrite length_map, length_seq. Qed.

Lemma answers_from_snoc (network : nat -> Net.method -> string -> result Net.response)
    (m : Net.method) (url : string) (c n : nat) :
  Net.answers_from network m url c (S n)
  = (Net.answers_from network m url c n ++ [network (c + n)%nat m url])%list.
Proof. unfold Net.answers_from. now rewrite seq_S, map_app. Qed.

Section ResolverFacts.

Variable network : nat -> Net.method -> string -> result Net.response.

(** The inner loop, from attempt [a] on: it makes [k] probes of [u], at
    most one per attempt that is left, sleeping after each but the last;
    it stops at the first probe that succeeds, or on what [time.sleep]
    raises after a failed probe, or when the attempts are over. *)
Lemma probe_spec (max_retries : Z) (wait : float) (u : string) (n : nat) :
  forall (a : Z) (w : Net.world),
    Z.to_nat (max_retries + 1 - a) = n ->
    let '(w', out) :=
      Net.probe network max_retries wait u (Net.py_range a (max_retries + 1)) w in
    exists k,
      (k <= n)%nat
      /\ w' = {| Net.files := Net.files w; Net.clock := (Net.clock w + k)%nat;
                 Net.trace :=
                   (Net.trace w
                    ++ Net.backoff_trace Net.HEAD u wait a
                         (Net.answers_from network Net.HEAD u (Net.clock w) k))%list |}
      /\ match out with
         | Net.Broke _ =>
             exists k', k = S k'
               /\ Forall (fun x => Net.probe_failed x = true)
                    (Net.answers_from network Net.HEAD u (Net.clock w) k')
               /\ Net.probe_failed (network (Net.clock w + k')%nat Net.HEAD u) = false
         | Net.Exhausted =>
             k = n
             /\ Forall (fun x => Net.probe_failed x = true)
                  (Net.answers_from network Net.HEAD u (Net.clock w) n)
         | Net.Raised e =>
             exists k', k = S k' /\ (S k' < n)%nat
               /\ Forall (fun x => Net.probe_failed x = true)
                    (Net.answers_from network Net.HEAD u (Net.clock w) k)
               /\ Net.sleep_error wait (2 ^ (a + Z.of_nat k' - 1)) = Some e
         end.
Proof.
  induction n as [|n IH]; intros a w Hn.
  - rewrite py_range_nil by lia. simpl. exists 0%nat.
    split; [lia|]. split; [apply world_eta|]. split; [reflexivity|constructor].
  - rewrite py_range_cons by lia. cbn [Net.probe Net.request].
    set (x := network (Net.clock w) Net.HEAD u).
    set (w1 := {| Net.files := Net.files w; Net.clock := S (Net.clock w);
                  Net.trace := (Net.trace w ++ [Net.Request Net.HEAD u x])%list |}).
    assert (Hret : match x with inr h => Net.ok h | inl _ => false end
                   = negb (Net.probe_failed x)).
    { destruct x as [e|h]; simpl; [reflexivity|]. now rewrite negb_involutive. }
    rewrite Hret. destruct (Net.probe_failed x) eqn:Hfail; simpl negb; cbv iota.
    + destruct (Z.ltb_spec a max_retries) as [Hlt|Hge].
      * destruct (sleep_cases wait (2 ^ (a - 1)) w1) as [[Hs ->]|(e & Hs & ->)].
        -- (* the sleep returns: the attempts that follow *)
           set (w2 := {| Net.files := Net.files w1; Net.clock := Net.clock w1;
                         Net.trace := (Net.trace w1 ++ [Net.Sleep wait (2 ^ (a - 1))])%list |}).
           specialize (IH (a + 1) w2 ltac:(lia)).
           destruct (Net.probe network max_retries wait u _ w2) as [w' out].
           destruct IH as (k & Hk & -> & Hout).
           assert (Hpos : exists k0, k = S k0).
           { destruct k as [|k0]; [|now exists k0]. exfalso.
             destruct out as [t|e|].
             - destruct Hout as (k' & [=] & _).
             - destruct Hout as (k' & [=] & _).
             - destruct Hout as [Hz _]. lia. }
           destruct Hpos as [k0 ->].
           exists (S (S k0)). split; [lia|]. split.
           { rewrite (answers_from_S network Net.HEAD u (Net.clock w) (S k0)).
             fold x. rewrite backoff_trace_step
               by (rewrite answers_from_length; lia).
             subst w2 w1. cbn [Net.files Net.clock Net.trace].
             f_equal; [lia|]. rewrite <- !app_assoc. reflexivity. }
           subst w2 w1. cbn [Net.clock] in Hout.
           destruct out as [t|e|].
           ++ destruct Hout as (k' & [= ->] & Hall & Hok).
              exists (S k'). split; [reflexivity|].
              rewrite answers_from_S. fold x. split.
              ** constructor; [exact Hfail|exact Hall].
              ** now replace (Net.clock w + S k')%nat
                   with (S (Net.clock w) + k')%nat by lia.
           ++ destruct Hout as (k' & [= ->] & Hlt' & Hall & He).
              exists (S k'). split; [reflexivity|]. split; [lia|].
              rewrite answers_from_S. fold x. split.
              ** constructor; [exact Hfail|exact Hall].
              ** now replace (a + Z.of_nat (S k') - 1)
                   with (a + 1 + Z.of_nat k' - 1) by lia.
           ++ destruct Hout as (-> & Hall). split; [reflexivity|].
              rewrite answers_from_S. fold x.
              constructor; [exact Hfail|exact Hall].
        -- (* the sleep raises *)
           exists 1%nat. split; [lia|]. split.
           { rewrite answers_from_S. fold x. simpl.
             unfold w1. f_equal. lia. }
           exists 0%nat. split; [reflexivity|]. split; [lia|]. split.
           { rewrite answers_from_S. fold x. repeat constructor. exact Hfail. }
           now replace (a + Z.of_nat 0 - 1) with (a - 1) by lia.
      * (* the last attempt *)
        rewrite py_range_nil by lia. simpl.
        exists 1%nat. split; [lia|]. split.
        { rewrite answers_from_S. fold x. simpl. unfold w1. f_equal. lia. }
        assert (Hn1 : n = 0%nat) by lia. subst n. split; [reflexivity|].
        rewrite answers_from_S. fold x. repeat constructor. exact Hfail.
    + exists 1%nat. split; [lia|]. split.
      { rewrite answers_from_S. fold x. simpl. unfold w1. f_equal. lia. }
      exists 0%nat. split; [reflexivity|]. split; [constructor|].
      rewrite Nat.add_0_r. exact Hfail.
Qed.

End ResolverFacts.

Lemma head_probes_targets (u : string) (l : list (result Net.response)) :
  map fst (map (Net.head_probe u) l) = Net.probes_of (length l) u.
Proof. induction l as [|a l IH]; simpl; [reflexivity|]. now rewrite IH. Qed.

Lemma head_probes_failed (u : string) (l : list (result Net.response)) :
  Forall (fun a => Net.probe_failed a = true) l ->
  Forall (fun p : Net.method * string * result Net.response =>
            Net.probe_failed p.2 = true) (map (Net.head_probe u) l).
Proof. intros H. apply Forall_map. exact H. Qed.

Lemma requests_probes_trace (wait : float) (urls : list string)
    (answers : list (list (result Net.response))) :
  Net.requests (Net.probes_trace wait urls answers)
  = concat (zip_with (fun u a => map (Net.head_probe u) a) urls answers).
Proof.
  unfold Net.probes_trace. revert answers.
  induction urls as [|u urls IH]; intros [|a answers]; try reflexivity.
  simpl. rewrite requests_app, requests_backoff_trace, IH. reflexivity.
Qed.

Lemma concat_zip_with_last {A B C : Type} (f : A -> B -> list C)
    (pre : list A) (u : A) (post : list A) (fails : list B) (last : B) :
  length fails = length pre ->
  concat (zip_with f (pre ++ u :: post) (fails ++ [last]))
  = (concat (zip_with f pre fails) ++ f u last)%list.
Proof.
  intros H. rewrite zip_with_app by (symmetry; exact H).
  rewrite concat_app. f_equal. destruct post; simpl; apply app_nil_r.
Qed.

Lemma probes_trace_cons (wait : float) (u : string) (rest : list string)
    (a : list (result Net.response)) (answers : list (list (result Net.response))) :
  Net.probes_trace wait (u :: rest) (a :: answers)
  = (Net.backoff_trace Net.HEAD u wait 1 a ++ Net.probes_trace wait rest answers)%list.
Proof. reflexivity. Qed.

Lemma probes_trace_one (wait : float) (u : string) (rest : list string)
    (a : list (result Net.response)) :
  Net.probes_trace wait (u :: rest) [a] = Net.backoff_trace Net.HEAD u wait 1 a.
Proof.
  rewrite probes_trace_cons. unfold Net.probes_trace.
  destruct rest; simpl; apply app_nil_r.
Qed.

Lemma exhausted_probes (n : nat) (pre : list string)
    (fails : list (list (result Net.response))) :
  length fails = length pre -> Forall (Net.exhausted_answers n) fails ->
  map fst (concat (zip_with (fun u a => map (Net.head_probe u) a) pre fails))
  = flat_map (Net.probes_of n) pre
  /\ Forall (fun p : Net.method * string * result Net.response =>
               Net.probe_failed p.2 = true)
       (concat (zip_with (fun u a => map (Net.head_probe u) a) pre fails)).
Proof.
  revert fails. induction pre as [|u pre IH]; intros [|a fails]; simpl;
    try discriminate; [split; [reflexivity|constructor]|].
  intros [= Hlen] Hall. apply Forall_cons in Hall as [[Hn Hf] Hall].
  destruct (IH fails Hlen Hall) as [Hm Hfl]. split.
  - rewrite map_app, head_probes_targets, Hn, Hm. reflexivity.
  - apply Forall_app. split; [now apply head_probes_failed|exact Hfl].
Qed.

Section ResolverOrder.

Variable network : nat -> Net.method -> string -> result Net.response.

(** The outer loop: the events are the probes of the candidates, in list
    order, each candidate before the one the loop stopped at with all its
    [n] probes failed. *)
Lemma probe_all_spec (max_retries : Z) (wait : float) (urls : list string) :
  forall (w : Net.world),
    let n := Z.to_nat max_retries in
    let '(w', out) := Net.probe_all network max_retries wait urls w in
    Net.files w' = Net.files w
    /\ exists answers,
         Net.trace w' = (Net.trace w ++ Net.probes_trace wait urls answers)%list
         /\ (length answers <= length urls)%nat
         /\ Forall (fun a => (length a <= n)%nat) answers
         /\ match out with
            | Net.Broke u =>
                exists pre post fails fl a,
                  urls = (pre ++ u :: post)%list
                  /\ answers = (fails ++ [fl ++ [a]])%list
                  /\ length fails = length pre
                  /\ Forall (Net.exhausted_answers n) fails
                  /\ (length fl < n)%nat
                  /\ Forall (fun x => Net.probe_failed x = true) fl
                  /\ Net.probe_failed a = false
            | Net.Exhausted =>
                length answers = length urls
                /\ Forall (Net.exhausted_answers n) answers
            | Net.Raised e =>
                exists pre u post fails last,
                  urls = (pre ++ u :: post)%list
                  /\ answers = (fails ++ [last])%list
                  /\ length fails = length pre
                  /\ Forall (Net.exhausted_answers n) fails
                  /\ (0 < length last < n)%nat
                  /\ Forall (fun x => Net.probe_failed x = true) last
                  /\ Net.sleep_error wait (2 ^ (Z.of_nat (length last) - 1)) = Some e
            end.
Proof.
  induction urls as [|u rest IH]; intros w n; cbn [Net.probe_all].
  - split; [reflexivity|]. exists []. unfold Net.probes_trace. simpl.
    rewrite app_nil_r. repeat split; constructor.
  - pose proof (probe_spec network max_retries wait u n 1 w ltac:(unfold n; lia))
      as Hp.
    destruct (Net.probe network max_retries wait u _ w) as [w1 out1].
    destruct Hp as (k & Hk & -> & Hout).
    set (a1 := Net.answers_from network Net.HEAD u (Net.clock w) k) in *.
    assert (Hlen1 : length a1 = k) by apply answers_from_length.
    destruct out1 as [t|e|].
    + (* the candidate is returned *)
      destruct Hout as (k' & -> & Hall & Hok).
      split; [reflexivity|]. exists [a1]. split.
      { now rewrite probes_trace_one. }
      split; [simpl; lia|]. split; [repeat constructor; lia|].
      exists [], rest,  [],
        (Net.answers_from network Net.HEAD u (Net.clock w) k'),
        (network (Net.clock w + k')%nat Net.HEAD u).
      split; [reflexivity|]. split.
      { unfold a1. now rewrite answers_from_snoc. }
      split; [reflexivity|]. split; [constructor|].
      rewrite answers_from_length. split; [lia|]. split; assumption.
    + (* the sleep raised *)
      destruct Hout as (k' & -> & Hlt & Hall & He).
      split; [reflexivity|]. exists [a1]. split.
      { now rewrite probes_trace_one. }
      split; [simpl; lia|]. split; [repeat constructor; lia|].
      exists [], u, rest, [], a1.
      split; [reflexivity|]. split; [reflexivity|]. split; [reflexivity|].
      split; [constructor|]. rewrite Hlen1. split; [lia|]. split; [exact Hall|].
      now replace (Z.of_nat (S k') - 1) with (1 + Z.of_nat k' - 1) by lia.
    + (* on to the next candidate *)
      destruct Hout as (-> & Hall).
      match goal with |- context [Net.probe_all _ _ _ rest ?w0] =>
        specialize (IH w0); cbv zeta in IH;
        destruct (Net.probe_all network max_retries wait rest w0) as [w' out]
      end.
      destruct IH as (Hf & answers & Ht & Hlen & Hle & Hout).
      split; [exact Hf|]. exists (a1 :: answers). split.
      { rewrite Ht, probes_trace_cons. cbn [Net.trace].
        now rewrite <- app_assoc. }
      split; [simpl; lia|]. split; [constructor; [lia|exact Hle]|].
      assert (Hex : Net.exhausted_answers n a1) by (split; assumption).
      destruct out as [v|e|].
      * destruct Hout as (pre & post & fails & fl & a & -> & -> & Hl & Hfl & Hout).
        exists (u :: pre), post, (a1 :: fails), fl, a.
        split; [reflexivity|]. split; [reflexivity|]. split; [simpl; lia|].
        split; [constructor; assumption|exact Hout].
      * destruct Hout as (pre & v & post & fails & last & -> & -> & Hl & Hfl & Hout).
        exists (u :: pre), v, post, (a1 :: fails), last.
        split; [reflexivity|]. split; [reflexivity|]. split; [simpl; lia|].
        split; [constructor; assumption|exact Hout].
      * destruct Hout as [Hl Hfl]. split; [simpl; lia|].
        constructor; assumption.
Qed.

(** What the outer loop means for the probes and the result of a
    resolution. *)
Lemma probe_all_in_order (max_retries : Z) (wait : float) (urls : list string)
    (w : Net.world) (none : exn) :
  Net.NoSourceAvailable none ->
  let '(w', out) := Net.probe_all network max_retries wait urls w in
  let r := match out with
           | Net.Broke u => inr u
           | Net.Raised e => inl e
           | Net.Exhausted => inl none
           end in
  Net.files w' = Net.files w
  /\ exists delta,
       Net.trace w' = (Net.trace w ++ delta)%list
       /\ Net.resolved_in_order (Z.to_nat max_retries) wait urls
            (Net.requests delta) r
       /\ ((forall attempt, 1 <= attempt < max_retries ->
              Net.sleepable wait (2 ^ (attempt - 1)) = true) ->
           match r with
           | inl e => Net.NoSourceAvailable e
           | inr _ => True
           end).
Proof.
  intros Hnone.
  pose proof (probe_all_spec max_retries wait urls w) as H. cbv zeta in H.
  destruct (Net.probe_all network max_retries wait urls w) as [w' out].
  destruct H as (Hf & answers & Ht & _ & _ & Hout). cbv zeta.
  split; [exact Hf|]. exists (Net.probes_trace wait urls answers).
  split; [exact Ht|]. rewrite requests_probes_trace.
  destruct out as [u|e|].
  - destruct Hout as (pre & post & fails & fl & a & -> & -> & Hl & Hfl & Hlt & Hall & Hok).
    split; [|trivial].
    rewrite concat_zip_with_last by exact Hl. rewrite map_app, app_assoc.
    destruct (exhausted_probes _ pre fails Hl Hfl) as [Hm Hfail].
    exists pre, post, (length fl),
      (concat (zip_with (fun u a => map (Net.head_probe u) a) pre fails)
       ++ map (Net.head_probe u) fl)%list, a.
    split; [reflexivity|]. split; [exact Hlt|]. split; [reflexivity|]. split.
    { rewrite map_app, Hm, head_probes_targets. reflexivity. }
    split; [|exact Hok].
    apply Forall_app. split; [exact Hfail|now apply head_probes_failed].
  - destruct Hout as (pre & u & post & fails & last & -> & -> & Hl & Hfl & Hk & Hall & He).
    split.
    + right. exists pre, u, post, (length last).
      split; [reflexivity|]. split; [exact Hk|]. split; [exact He|].
      rewrite concat_zip_with_last by exact Hl.
      destruct (exhausted_probes _ pre fails Hl Hfl) as [Hm Hfail]. split.
      * rewrite map_app, Hm, head_probes_targets. reflexivity.
      * apply Forall_app. split; [exact Hfail|now apply head_probes_failed].
    + intros Hsleep. exfalso.
      assert (Hs : Net.sleepable wait (2 ^ (Z.of_nat (length last) - 1)) = true)
        by (apply Hsleep; lia).
      apply sleepable_error in Hs. congruence.
  - destruct Hout as [Hl Hfl]. split; [|intros _; exact Hnone].
    left. split; [exact Hnone|].
    destruct (exhausted_probes _ urls answers Hl Hfl) as [Hm Hfail].
    split; assumption.
Qed.

End ResolverOrder.

(** C6: the source resolver probes the candidates strictly in list
    order and returns the first one for which a probe succeeds; when it
    returns a candidate, each earlier candidate has had all its N probes
    fail, and the returned one is probed at most N times, only the last
    probe succeeding; when every candidate has had N failed probes it
    raises the error the specification calls NoSourceAvailable.  The
    resolver returns or raises that error whenever every backoff wait
    [retry_wait * 2 ** (attempt - 1)] is a duration [time.sleep] accepts;
    otherwise [time.sleep] raises after a failed probe and that error
    ends the resolution, the probes made till then being in the same
    order.  This holds for the resolver of the prefetcher, and for the
    resolver of the join tool unless it resolves from the cache (offline
    with a cache directory). *)
Theorem source_resolver_order
    (network : nat -> Net.method -> string -> result Net.response)
    (urls : list string) (w : Net.world) :
  (forall max_retries retry_wait,
     let '(w', r) :=
       Net.prefetch_resolve_first_available network urls max_retries retry_wait w in
     Net.files w' = Net.files w
     /\ exists delta,
          Net.trace w' = (Net.trace w ++ delta)%list
          /\ Net.resolved_in_order (Z.to_nat max_retries) retry_wait urls
               (Net.requests delta) r
          /\ ((forall attempt, 1 <= attempt < max_retries ->
                 Net.sleepable retry_wait (2 ^ (attempt - 1)) = true) ->
              match r with
              | inl e => Net.NoSourceAvailable e
              | inr _ => True
              end))
  /\ (forall cfg,
        (Net.OFFLINE cfg && States.truthy (Net.CACHE_DIR cfg))%bool = false ->
        let '(w', r) := Net.resolve_first_available network cfg urls w in
        Net.files w' = Net.files w
        /\ exists delta,
             Net.trace w' = (Net.trace w ++ delta)%list
             /\ Net.resolved_in_order (Z.to_nat (Net.MAX_RETRIES cfg))
                  (Net.RETRY_WAIT cfg) urls (Net.requests delta) r
             /\ ((forall attempt, 1 <= attempt < Net.MAX_RETRIES cfg ->
                    Net.sleepable (Net.RETRY_WAIT cfg) (2 ^ (attempt - 1)) = true) ->
                 match r with
                 | inl e => Net.NoSourceAvailable e
                 | inr _ => True
                 end)).
Proof.
  split.
  - intros max_retries retry_wait.
    unfold Net.prefetch_resolve_first_available.
    pose proof (probe_all_in_order network max_retries retry_wait urls w
                  (RuntimeError_NoAvailableUrl urls) I) as H.
    destruct (Net.probe_all network max_retries retry_wait urls w) as [w' [u|e|]];
      exact H.
  - intros cfg Hon. unfold Net.resolve_first_available. rewrite Hon.
    pose proof (probe_all_in_order network (Net.MAX_RETRIES cfg)
                  (Net.RETRY_WAIT cfg) urls w
                  (RuntimeError_NoneAvailable urls) I) as H.
    destruct (Net.probe_all network _ _ urls w) as [w' [u|e|]]; exact H.
Qed.

(** The candidate list the specification gives as its example: the first
    candidate never answers, the second always does. *)
Lemma source_resolver_order_witness :
  let network := fun (_ : nat) (_ : Net.method) (u : string) =>
    if String.eqb u "https://old.example/z.zip"
    then inr {| Net.status_code := 200; Net.content := EmptyString |}
    else inl (RequestException "ConnectionError") in
  let cfg := {| Net.CACHE_DIR := None; Net.OFFLINE := false;
                Net.MAX_RETRIES := 6; Net.RETRY_WAIT := 2%float |} in
  let urls := ["https://new.example/z.zip"; "https://old.example/z.zip"] in
  let w0 := {| Net.files := ∅; Net.clock := 0; Net.trace := [] |} in
  let out := Net.resolve_first_available network cfg urls w0 in
  out.2 = inr "https://old.example/z.zip"
  /\ length (Net.requests (Net.trace out.1)) = 7%nat
  /\ Net.sleeps (Net.trace out.1) = [1; 2; 4; 8; 16]
  /\ Net.resolved_in_order 6 2%float urls (Net.requests (Net.trace out.1)) out.2.
Proof.
  cbv zeta. split; [vm_compute; reflexivity|]. split; [vm_compute; reflexivity|].
  split; [vm_compute; reflexivity|].
  match goal with
  | |- Net.resolved_in_order _ _ ?urls (Net.requests (Net.trace (?f ?net ?cfg _ ?w).1)) _ =>
      pose proof (proj2 (source_resolver_order net urls w) cfg eq_refl) as H;
      destruct (f net cfg urls w) as [w' r]
  end.
  destruct H as (_ & delta & Ht & H & _). simpl in Ht. simpl. rewrite Ht. exact H.
Defined.

(** ** Fetch layer *)

Section FetchFacts.

Variable network : nat -> Net.method -> string -> result Net.response.

Lemma sleep_ok (wait : float) (factor : Z) (w : Net.world) :
  Net.sleepable wait factor = true ->
  Net.sleep wait factor w
  = ({| Net.files := Net.files w; Net.clock := Net.clock w;
        Net.trace := (Net.trace w ++ [Net.Sleep wait factor])%list |}, inr tt).
Proof.
  intros H. apply sleepable_error in H.
  destruct (sleep_cases wait factor w) as [[_ E]|(e & He & _)];
    [exact E|congruence].
Qed.

(** When every attempt that is left fails and every backoff wait is a
    duration [time.sleep] accepts, the loop of [download_to_temp] makes
    the attempts, sleeps in between, and raises what the last attempt
    raised. *)
Lemma get_attempts_all_fail (cfg : Net.config) (url : string) (k : nat) :
  forall (a : Z) (w : Net.world),
    Z.to_nat (Net.MAX_RETRIES cfg + 1 - a) = S k ->
    (forall attempt, a <= attempt < Net.MAX_RETRIES cfg ->
       Net.sleepable (Net.RETRY_WAIT cfg) (2 ^ (attempt - 1)) = true) ->
    Forall (fun r => Net.attempt_failed r = true)
      (Net.answers_from network Net.GET url (Net.clock w) (S k)) ->
    exists e,
      Net.check_response (network (Net.clock w + k)%nat Net.GET url) = inl e
      /\ Net.get_attempts network cfg url
           (Net.py_range a (Net.MAX_RETRIES cfg + 1)) w
         = ({| Net.files := Net.files w;
               Net.clock := (Net.clock w + S k)%nat;
               Net.trace :=
                 (Net.trace w
                  ++ Net.backoff_trace Net.GET url (Net.RETRY_WAIT cfg) a
                       (Net.answers_from network Net.GET url (Net.clock w) (S k)))%list |},
            Net.Raised e).
Proof.
  induction k as [|k IH]; intros a w Hk Hs Hall.
  - rewrite py_range_cons by lia. rewrite py_range_nil by lia.
    rewrite answers_from_S in Hall |- *.
    inversion Hall as [|? ? Hfail _]; subst.
    unfold Net.attempt_failed in Hfail.
    cbn [Net.get_attempts Net.request].
    rewrite Nat.add_0_r.
    destruct (Net.check_response (network (Net.clock w) Net.GET url)) as [e|]
      eqn:E; [|discriminate].
    exists e. split; [reflexivity|].
    replace (a =? Net.MAX_RETRIES cfg) with true by lia.
    replace (Net.clock w + 1)%nat with (S (Net.clock w)) by lia.
    reflexivity.
  - rewrite py_range_cons by lia.
    rewrite answers_from_S in Hall |- *.
    inversion Hall as [|? ? Hfail Hrest]; subst.
    unfold Net.attempt_failed in Hfail.
    cbn [Net.get_attempts Net.request].
    destruct (Net.check_response (network (Net.clock w) Net.GET url)) as [e0|]
      eqn:E; [|discriminate].
    replace (a =? Net.MAX_RETRIES cfg) with false by lia.
    rewrite sleep_ok by (apply Hs; lia). cbn [Net.files Net.clock Net.trace].
    match goal with |- context [Net.get_attempts _ _ _ _ ?w0] => set (w2 := w0) end.
    destruct (IH (a + 1) w2) as (e & He & Hrun);
      [lia|intros; apply Hs; lia|exact Hrest|].
    exists e. split.
    { simpl in He. now replace (Net.clock w + S k)%nat
        with (S (Net.clock w + k)) by lia. }
    rewrite Hrun. subst w2. cbn [Net.files Net.clock Net.trace].
    rewrite backoff_trace_step by (rewrite answers_from_length; lia).
    replace (S (Net.clock w) + S k)%nat with (Net.clock w + S (S k))%nat by lia.
    rewrite <- !app_assoc. reflexivity.
Qed.

(** The same for the loop of [prefetch_tiger.download], which wraps the
    last error. *)
Lemma prefetch_attempts_all_fail (url out : string) (max_retries : Z)
    (retry_wait : float) (k : nat) :
  forall (a : Z) (w : Net.world),
    Z.to_nat (max_retries + 1 - a) = S k ->
    (forall attempt, a <= attempt < max_retries ->
       Net.sleepable retry_wait (2 ^ (attempt - 1)) = true) ->
    Forall (fun r => Net.prefetch_attempt_failed r = true)
      (Net.answers_from network Net.GET url (Net.clock w) (S k)) ->
    exists e,
      Net.prefetch_check_response (network (Net.clock w + k)%nat Net.GET url)
      = inl e
      /\ Net.prefetch_attempts network url out max_retries retry_wait
           (Net.py_range a (max_retries + 1)) w
         = ({| Net.files := Net.files w;
               Net.clock := (Net.clock w + S k)%nat;
               Net.trace :=
                 (Net.trace w
                  ++ Net.backoff_trace Net.GET url retry_wait a
                       (Net.answers_from network Net.GET url (Net.clock w) (S k)))%list |},
            Net.Raised (RuntimeError_FailedAfter max_retries url e)).
Proof.
  induction k as [|k IH]; intros a w Hk Hs Hall.
  - rewrite py_range_cons by lia. rewrite py_range_nil by lia.
    rewrite answers_from_S in Hall |- *.
    inversion Hall as [|? ? Hfail _]; subst.
    unfold Net.prefetch_attempt_failed in Hfail.
    cbn [Net.prefetch_attempts Net.request].
    rewrite Nat.add_0_r.
    destruct (Net.prefetch_check_response (network (Net.clock w) Net.GET url))
      as [e|] eqn:E; [|discriminate].
    exists e. split; [reflexivity|].
    assert (Ha : a = max_retries) by lia. subst a.
    rewrite Z.eqb_refl.
    replace (Net.clock w + 1)%nat with (S (Net.clock w)) by lia.
    reflexivity.
  - rewrite py_range_cons by lia.
    rewrite answers_from_S in Hall |- *.
    inversion Hall as [|? ? Hfail Hrest]; subst.
    unfold Net.prefetch_attempt_failed in Hfail.
    cbn [Net.prefetch_attempts Net.request].
    destruct (Net.prefetch_check_response (network (Net.clock w) Net.GET url))
      as [e0|] eqn:E; [|discriminate].
    replace (a =? max_retries) with false by lia.
    rewrite sleep_ok by (apply Hs; lia). cbn [Net.files Net.clock Net.trace].
    match goal with |- context [Net.prefetch_attempts _ _ _ _ _ _ ?w0] =>
      set (w2 := w0) end.
    destruct (IH (a + 1) w2) as (e & He & Hrun);
      [lia|intros; apply Hs; lia|exact Hrest|].
    exists e. split.
    { simpl in He. now replace (Net.clock w + S k)%nat
        with (S (Net.clock w + k)) by lia. }
    rewrite Hrun. subst w2. cbn [Net.files Net.clock Net.trace].
    rewrite backoff_trace_step by (rewrite answers_from_length; lia).
    replace (S (Net.clock w) + S k)%nat with (Net.clock w + S (S k))%nat by lia.
    rewrite <- !app_assoc. reflexivity.
Qed.

(** When the first [k] attempts fail and the next one does not, with
    attempts to spare and waits that [time.sleep] accepts, the loop
    sleeps after each failure, asks again and leaves with the response. *)
Lemma get_attempts_recover (cfg : Net.config) (url : string) (k : nat) :
  forall (a : Z) (w : Net.world) (resp : Net.response),
    (k < Z.to_nat (Net.MAX_RETRIES cfg + 1 - a))%nat ->
    (forall attempt, a <= attempt < a + Z.of_nat k ->
       Net.sleepable (Net.RETRY_WAIT cfg) (2 ^ (attempt - 1)) = true) ->
    Forall (fun r => Net.attempt_failed r = true)
      (Net.answers_from network Net.GET url (Net.clock w) k) ->
    Net.check_response (network (Net.clock w + k)%nat Net.GET url) = inr resp ->
    Net.get_attempts network cfg url
      (Net.py_range a (Net.MAX_RETRIES cfg + 1)) w
    = ({| Net.files := Net.files w;
          Net.clock := (Net.clock w + S k)%nat;
          Net.trace :=
            (Net.trace w
             ++ Net.backoff_trace Net.GET url (Net.RETRY_WAIT cfg) a
                  (Net.answers_from network Net.GET url (Net.clock w) (S k)))%list |},
       Net.Broke resp).
Proof.
  induction k as [|k IH]; intros a w resp Hk Hs Hall Hok.
  - rewrite py_range_cons by lia. rewrite answers_from_S.
    cbn [Net.get_attempts Net.request].
    rewrite Nat.add_0_r in Hok. rewrite Hok.
    replace (Net.clock w + 1)%nat with (S (Net.clock w)) by lia.
    reflexivity.
  - rewrite py_range_cons by lia.
    rewrite answers_from_S in Hall |- *.
    inversion Hall as [|? ? Hfail Hrest]; subst.
    unfold Net.attempt_failed in Hfail.
    cbn [Net.get_attempts Net.request].
    destruct (Net.check_response (network (Net.clock w) Net.GET url)) as [e0|]
      eqn:E; [|discriminate].
    replace (a =? Net.MAX_RETRIES cfg) with false by lia.
    rewrite sleep_ok by (apply Hs; lia). cbn [Net.files Net.clock Net.trace].
    match goal with |- context [Net.get_attempts _ _ _ _ ?w0] => set (w2 := w0) end.
    rewrite (IH (a + 1) w2 resp); [|lia|intros; apply Hs; lia|exact Hrest|].
    + subst w2. cbn [Net.files Net.clock Net.trace].
      rewrite backoff_trace_step by (rewrite answers_from_length; lia).
      replace (S (Net.clock w) + S k)%nat with (Net.clock w + S (S k))%nat by lia.
      rewrite <- !app_assoc. reflexivity.
    + simpl. now replace (S (Net.clock w + k)) with (Net.clock w + S k)%nat by lia.
Qed.

End FetchFacts.

(** Which answers make an attempt fail. *)
Lemma attempt_failed_status (resp : Net.response) :
  Net.attempt_failed (inr resp)
  = (Net.transient (Net.status_code resp)
     || Net.is_error_status (Net.status_code resp))%bool.
Proof.
  unfold Net.attempt_failed, Net.check_response, Net.raise_for_status. simpl.
  destruct (Net.transient _); [reflexivity|].
  now destruct (Net.is_error_status _).
Qed.

Lemma prefetch_attempt_failed_status (resp : Net.response) :
  Net.prefetch_attempt_failed (inr resp) = negb (Net.status_code resp =? 200).
Proof.
  unfold Net.prefetch_attempt_failed, Net.prefetch_check_response. simpl.
  destruct (Net.transient (Net.status_code resp)) eqn:Ht.
  - unfold Net.transient in Ht. simpl in Ht.
    destruct (Net.status_code resp =? 200) eqn:E; [|reflexivity].
    apply Z.eqb_eq in E. rewrite E in Ht. discriminate.
  - now destruct (Net.status_code resp =? 200).
Qed.

(** What a failed attempt of [download_to_temp] raises. *)
Lemma check_response_error (answer : result Net.response) (e : exn) :
  Net.check_response answer = inl e ->
  match answer with
  | inl e0 => e = e0
  | inr resp =>
      e = (if Net.transient (Net.status_code resp)
           then RuntimeError_HTTP (Net.status_code resp)
           else HTTPError (Net.status_code resp))
      /\ Net.FetchFailed e
  end.
Proof.
  unfold Net.check_response, Net.raise_for_status.
  destruct answer as [e0|resp]; simpl; [now intros [= ->]|].
  destruct (Net.transient _); [intros [= <-]; now split|].
  destruct (Net.is_error_status _); simpl; [|discriminate].
  intros [= <-]. now split.
Qed.

(** C1 fails on the code: a status that is not transient is retried
    like a transient one.  [download_to_temp] tests the typical transient
    statuses, as its comment says, and then calls [raise_for_status]
    inside the same [try], whose [except Exception] clause sleeps and
    asks again whatever was raised; [prefetch_tiger.download] does the
    same for every status other than 200.  Here the first answer is a
    404 and the second a 200: both fetches sleep for [RETRY_WAIT], send a
    second request and return the file, where the claim has an immediate
    failure and no second request. *)
Theorem not_found_is_retried :
  let network := fun (n : nat) (_ : Net.method) (_ : string) =>
    inr {| Net.status_code := match n with O => 404 | S _ => 200 end;
           Net.content := "PK" |} in
  let cfg := {| Net.CACHE_DIR := Some "/cache"; Net.OFFLINE := false;
                Net.MAX_RETRIES := 6; Net.RETRY_WAIT := 2%float |} in
  let url := "https://www2.census.gov/geo/tiger/GENZ2023/shp/cb_2023_us_place_500k.zip" in
  let w0 := {| Net.files := ∅; Net.clock := 0; Net.trace := [] |} in
  let retried :=
    [ Net.Request Net.GET url
        (inr {| Net.status_code := 404; Net.content := "PK" |});
      Net.Sleep 2%float 1;
      Net.Request Net.GET url
        (inr {| Net.status_code := 200; Net.content := "PK" |}) ] in
  let out :=
    Net.download_to_temp network (fun _ => "/tmp/tmpq1.zip") (fun _ _ => true)
      cfg url w0 in
  let out' := Net.download network url "/cache" 6 2%float w0 in
  Net.transient 404 = false
  /\ Net.attempt_failed (inr {| Net.status_code := 404; Net.content := "PK" |}) = true
  /\ Net.prefetch_attempt_failed
       (inr {| Net.status_code := 404; Net.content := "PK" |}) = true
  /\ out.2 = inr "/cache/cb_2023_us_place_500k.zip"
  /\ Net.trace out.1 = retried
  /\ out'.2 = inr "/cache/cb_2023_us_place_500k.zip"
  /\ Net.trace out'.1 = retried.
Proof. cbv zeta. repeat split; vm_compute; reflexivity. Qed.

(** ** Offline mode *)

(** With a cache directory, offline resolution does nothing to the
    outside: it returns the first candidate whose cache file exists, or
    raises the error the specification calls OfflineCacheMiss. *)
Lemma offline_resolve_from_cache
    (network : nat -> Net.method -> string -> result Net.response)
    (cfg : Net.config) (urls : list string) (w : Net.world) :
  Net.OFFLINE cfg = true -> States.truthy (Net.CACHE_DIR cfg) = true ->
  (forall u, List.find (Net.cached cfg w) urls = Some u ->
     Net.resolve_first_available network cfg urls w = (w, inr u))
  /\ (List.find (Net.cached cfg w) urls = None ->
      Net.resolve_first_available network cfg urls w
      = (w, inl RuntimeError_OfflineNoneCached)).
Proof.
  intros Hoff Hdir. unfold Net.resolve_first_available. rewrite Hoff, Hdir.
  simpl. split.
  - intros u ->. reflexivity.
  - intros ->. reflexivity.
Qed.

(** Offline, a fetch does nothing to the outside: it returns the cache
    path of a URL that is cached and raises the error the specification
    calls OfflineFetchDenied for one that is not. *)
Lemma offline_fetch_no_request
    (network : nat -> Net.method -> string -> result Net.response)
    (mkstemp : Net.world -> string) (replace_ok : string -> string -> bool)
    (cfg : Net.config) (url : string) (w : Net.world) :
  Net.OFFLINE cfg = true ->
  (Net.cached cfg w url = false ->
   Net.download_to_temp network mkstemp replace_ok cfg url w
   = (w, inl (RuntimeError_OfflineNotCached url)))
  /\ (Net.cached cfg w url = true ->
      exists cpath, Net._cache_path_for cfg url = Some cpath
        /\ Net.download_to_temp network mkstemp replace_ok cfg url w
           = (w, inr cpath)).
Proof.
  intros Hoff. unfold Net.download_to_temp. split.
  - intros ->. now rewrite Hoff.
  - intros Hc. rewrite Hc. unfold Net.cached in Hc.
    destruct (Net._cache_path_for cfg url) as [cpath|]; [|discriminate].
    exists cpath. split; reflexivity.
Qed.

(** C5 fails on the code: offline mode without a cache directory.  The
    guard of [resolve_first_available] is [OFFLINE and CACHE_DIR], so
    with [--offline] alone the resolver goes to the network: here it
    sends a HEAD request for the newest zcta vintage and returns it,
    where the claim has no request and OfflineCacheMiss. *)
Theorem offline_without_cache_dir_probes :
  let network := fun (_ : nat) (_ : Net.method) (_ : string) =>
    inr {| Net.status_code := 200; Net.content := EmptyString |} in
  let cfg := {| Net.CACHE_DIR := None; Net.OFFLINE := true;
                Net.MAX_RETRIES := 6; Net.RETRY_WAIT := 2%float |} in
  let w0 := {| Net.files := ∅; Net.clock := 0; Net.trace := [] |} in
  Net.resolve_first_available network cfg Net.zcta_urls w0
  = ({| Net.files := ∅; Net.clock := 1;
        Net.trace :=
          [ Net.Request Net.HEAD
              "https://www2.census.gov/geo/tiger/GENZ2023/shp/cb_2023_us_zcta520_500k.zip"
              (inr {| Net.status_code := 200; Net.content := EmptyString |}) ] |},
     inr "https://www2.census.gov/geo/tiger/GENZ2023/shp/cb_2023_us_zcta520_500k.zip").
Proof. reflexivity. Qed.

(** ** Best-effort steps *)

Section BestEffortFacts.

Variable geometry : Type.
Variable Row : Type.
Variable geometry_of : Row -> geometry.
Variable with_geometry : Row -> geometry -> Row.
Variable read_states : string -> result (list (string * geometry)).
Variable centroid_within : geometry -> geometry -> result bool.
Variable simplify : float -> geometry -> result geometry.
Variable network : nat -> Net.method -> string -> result Net.response.
Variable mkstemp : Net.world -> string.
Variable replace_ok : string -> string -> bool.

Lemma set_geometry_rows (col : string) (t t' : Post.table Row) :
  Post.set_geometry Row col t = inr t' ->
  Post.rows t' = Post.rows t /\ Post.columns t' = Post.columns t.
Proof.
  unfold Post.set_geometry. destruct (States.mem col (Post.columns t)).
  - intros [= <-]. split; reflexivity.
  - discriminate.
Qed.

(** Whatever stops the statements of the [try] in [prepare_zcta], the
    variable [merged] still holds every row of the merge. *)
Lemma filter_statements_raise (state_abbr : string) (merged : Post.table Row)
    (zpath : string) (out : Post.table Row) (e : exn) :
  Post.filter_statements geometry Row geometry_of read_states centroid_within
    state_abbr merged zpath = (out, Some e) ->
  Post.rows out = Post.rows merged /\ Post.columns out = Post.columns merged.
Proof.
  unfold Post.filter_statements.
  destruct (read_states _) as [e1|states]; [now intros [= <- _]|].
  destruct (Post.state_polygon _ _ _) as [e2|poly]; [now intros [= <- _]|].
  destruct (Post.set_geometry Row "geometry" merged) as [e3|merged1] eqn:E;
    [now intros [= <- _]|].
  apply set_geometry_rows in E.
  destruct (bind _ _) as [e4|mask]; [|discriminate].
  now intros [= <- _].
Qed.

Lemma filter_body_raise (cfg : Net.config) (state_abbr : string)
    (merged : Post.table Row) (w w' : Net.world) (out : Post.table Row) (e : exn) :
  Post.filter_body geometry Row geometry_of read_states centroid_within
    network mkstemp replace_ok cfg state_abbr merged w = (w', (out, Some e)) ->
  Post.rows out = Post.rows merged /\ Post.columns out = Post.columns merged.
Proof.
  unfold Post.filter_body.
  destruct (Net.download_to_temp _ _ _ _ _ _) as [w1 [e1|zpath]].
  - now intros [= _ <- _].
  - intros [= _ H]. now apply filter_statements_raise in H.
Qed.

End BestEffortFacts.

(** X24: the best-effort steps that do swallow.  When anything inside
    the [try] of the zcta containment filter of the command-line tool
    raises (the download of the state file, reading it, finding the
    state's polygon, setting the geometry column, the containment test),
    [prepare_zcta] raises nothing and returns all the rows of the merge;
    when the simplification raises, the simplify step of the
    command-line tool and that of the serving layer return the table they
    were given. *)
Theorem best_effort_steps_swallow (geometry Row : Type)
    (geometry_of : Row -> geometry) (with_geometry : Row -> geometry -> Row)
    (read_states : string -> result (list (string * geometry)))
    (centroid_within : geometry -> geometry -> result bool)
    (simplify : float -> geometry -> result geometry)
    (network : nat -> Net.method -> string -> result Net.response)
    (mkstemp : Net.world -> string) (replace_ok : string -> string -> bool) :
  (forall cfg state_abbr merged w e,
     (Post.filter_body geometry Row geometry_of read_states centroid_within
        network mkstemp replace_ok cfg state_abbr merged w).2.2 = Some e ->
     Post.rows
       (Post.prepare_zcta_filter geometry Row geometry_of read_states
          centroid_within network mkstemp replace_ok cfg state_abbr merged w).2
     = Post.rows merged
     /\ Post.columns
          (Post.prepare_zcta_filter geometry Row geometry_of read_states
             centroid_within network mkstemp replace_ok cfg state_abbr merged w).2
        = Post.columns merged)
  /\ (forall tol gdf e,
        Post.simplify_statement geometry Row geometry_of with_geometry simplify
          tol gdf = inl e ->
        Post.main_simplify geometry Row geometry_of with_geometry simplify
          (Some tol) gdf = gdf
        /\ Post.join_simplify geometry Row geometry_of with_geometry simplify
             (Some tol) gdf = gdf).
Proof.
  split.
  - intros cfg state_abbr merged w e. unfold Post.prepare_zcta_filter.
    destruct (Post.filter_body _ _ _ _ _ _ _ _ _ _ _ _) as [w' [out o]] eqn:E.
    simpl. intros ->. now apply filter_body_raise in E.
  - intros tol gdf e He. unfold Post.main_simplify, Post.join_simplify.
    rewrite He. split.
    + now destruct (_ && _)%bool.
    + now destruct (_ && _)%bool.
Qed.

(** A merged table of two rows; the containment test raises (a missing
    optional dependency), and so does the simplification: both steps hand
    back the two rows. *)
Lemma best_effort_steps_swallow_witness :
  let network := fun (_ : nat) (_ : Net.method) (_ : string) =>
    inr {| Net.status_code := 200; Net.content := "PK" |} in
  let cfg := {| Net.CACHE_DIR := None; Net.OFFLINE := false;
                Net.MAX_RETRIES := 6; Net.RETRY_WAIT := 2%float |} in
  let w0 := {| Net.files := ∅; Net.clock := 0; Net.trace := [] |} in
  let merged := {| Post.rows := [("33101", 1%nat); ("30301", 2%nat)];
                   Post.columns := ["_ZCTA5"; "geometry"];
                   Post.active_geometry := Some "geometry" |} in
  let broken := fun (_ _ : nat) => @inl exn bool (LibraryError "ImportError") in
  let no_simplify := fun (_ : float) (_ : nat) =>
    @inl exn nat (LibraryError "GEOSException") in
  Post.rows
    (Post.prepare_zcta_filter nat (string * nat) snd
       (fun _ => inr [("FL", 7%nat)]) broken network
       (fun _ => "/tmp/tmpq1.zip") (fun _ _ => true) cfg "FL" merged w0).2
  = [("33101", 1%nat); ("30301", 2%nat)]
  /\ Post.main_simplify nat (string * nat) snd (fun r g => (r.1, g)) no_simplify
       (Some 0x1p-11%float) merged = merged.
Proof.
  cbv zeta. split.
  - match goal with
    | |- Post.rows (Post.prepare_zcta_filter ?G ?R ?go ?rs ?cw ?net ?mk ?rp
                      ?cfg ?st ?m ?w).2 = _ =>
        apply (proj1 (best_effort_steps_swallow G R go (fun r g => (r.1, g))
                        rs cw (fun _ _ => inl (LibraryError "GEOSException"))
                        net mk rp)
                 cfg st m w (LibraryError "ImportError"))
    end.
    reflexivity.
  - match goal with
    | |- Post.main_simplify ?G ?R ?go ?wg ?sf (Some ?tol) ?m = _ =>
        apply (proj2 (best_effort_steps_swallow G R go wg
                        (fun _ => inr [("FL", 7%nat)])
                        (fun _ _ => inl (LibraryError "ImportError")) sf
                        (fun _ _ _ => inr {| Net.status_code := 200;
                                             Net.content := "PK" |})
                        (fun _ => "/tmp/tmpq1.zip") (fun _ _ => true))
                 tol m (LibraryError "GEOSException"))
    end.
    reflexivity.
Defined.

(** C7 fails on the code: the serving layer runs the containment filter
    outside any [try].  The zcta level of [load_boundary] reads the state
    table, looks the polygon up and tests the centroids like the filter
    of [prepare_zcta], but nothing catches what these raise, and the
    endpoints call [load_boundary] unguarded.  Here the state table has
    no row for UM, a token [norm_state] accepts: the lookup raises
    IndexError, which leaves [load_boundary]; so does what the
    containment test raises (a missing dependency).  On the same inputs
    the filter of the command-line tool returns every row, as the claim
    has it. *)
Theorem serving_layer_zcta_filter_raises :
  let zctas := {| Post.rows := [("33101", 1%nat); ("30301", 2%nat)];
                  Post.columns := ["GEOID20"; "geometry"];
                  Post.active_geometry := Some "geometry" |} in
  let read_zcta := fun (_ : string) => @inr exn _ zctas in
  let read_states := fun (_ : string) =>
    @inr exn (list (string * nat)) [("FL", 7%nat); ("GA", 8%nat)] in
  let union := fun (gs : list nat) => @inr exn nat (hd 0%nat gs) in
  let within := fun (a b : nat) => @inr exn bool (Nat.eqb a 1 && Nat.eqb b 7)%bool in
  let broken := fun (_ _ : nat) => @inl exn bool (LibraryError "ImportError") in
  let network := fun (_ : nat) (_ : Net.method) (_ : string) =>
    inr {| Net.status_code := 200; Net.content := "PK" |} in
  let cfg := {| Net.CACHE_DIR := None; Net.OFFLINE := false;
                Net.MAX_RETRIES := 6; Net.RETRY_WAIT := 2%float |} in
  let w0 := {| Net.files := ∅; Net.clock := 0; Net.trace := [] |} in
  let load := fun cw state =>
    Boundary.load_boundary_zcta nat (string * nat) snd read_zcta read_states
      union cw false "/cache" state w0 in
  let prepare := fun cw state =>
    (Post.prepare_zcta_filter nat (string * nat) snd read_states cw network
       (fun _ => "/tmp/tmpq1.zip") (fun _ _ => true) cfg state zctas w0).2 in
  States.norm_state "UM" = inr ("UM", "74")
  /\ load within "UM" = inl (LibraryError "IndexError")
  /\ load broken "FL" = inl (LibraryError "ImportError")
  /\ (let! t := load within "FL" in ret (Post.rows t)) = inr [("33101", 1%nat)]
  /\ Post.rows (prepare within "UM") = Post.rows zctas
  /\ Post.rows (prepare broken "FL") = Post.rows zctas
  /\ Post.rows (prepare within "FL") = [("33101", 1%nat)].
Proof. cbv zeta. repeat split; vm_compute; reflexivity. Qed.

(** * Further properties of the code *)

(** ** Fetch and cache layer *)

Lemma find_first {A : Type} (f : A -> bool) (l : list A) (x : A) :
  List.find f l = Some x ->
  exists pre post,
    l = (pre ++ x :: post)%list /\ Forall (fun y => f y = false) pre /\ f x = true.
Proof.
  induction l as [|y l IH]; simpl; [discriminate|].
  destruct (f y) eqn:E.
  - intros [= ->]. exists [], l. repeat split; [constructor|exact E].
  - intros H. destruct (IH H) as (pre & post & -> & Hpre & Hx).
    exists (y :: pre), post. repeat split; [constructor; assumption|exact Hx].
Qed.

Lemma find_none_all {A : Type} (f : A -> bool) (l : list A) :
  List.find f l = None -> Forall (fun y => f y = false) l.
Proof.
  induction l as [|y l IH]; simpl; [constructor|].
  destruct (f y) eqn:E; [discriminate|]. intros H. constructor; auto.
Qed.

Lemma string_not_empty_length (s : string) :
  (0 < String.length s)%nat -> s <> EmptyString.
Proof. destruct s; simpl; [lia|discriminate]. Qed.

Lemma path_join_not_empty (a b : string) :
  a <> EmptyString -> PyStr.path_join a b <> EmptyString.
Proof.
  intros Ha. assert (Hla : (0 < String.length a)%nat)
    by (destruct a; [contradiction|simpl; lia]).
  unfold PyStr.path_join. destruct b as [|c b].
  - destruct (_ || _)%bool; [exact Ha|].
    apply string_not_empty_length. rewrite string_length_app. lia.
  - destruct (Ascii.eqb c "/"); [discriminate|].
    destruct (_ || _)%bool; apply string_not_empty_length;
      rewrite string_length_app; lia.
Qed.

(** With a cache directory, the cache path of a URL is a non-empty
    path. *)
Lemma cache_path_some (cfg : Net.config) (url : string) :
  States.truthy (Net.CACHE_DIR cfg) = true ->
  exists dir a p,
    Net.CACHE_DIR cfg = Some dir
    /\ Net._cache_path_for cfg url = Some (String a p)
    /\ String a p = PyStr.path_join dir (PyStr.basename url).
Proof.
  intros H. unfold Net._cache_path_for. rewrite H. simpl.
  destruct (Net.CACHE_DIR cfg) as [dir|]; [|discriminate].
  destruct dir as [|d dir]; [discriminate|].
  pose proof (path_join_not_empty (String d dir) (PyStr.basename url)) as Hne.
  destruct (PyStr.path_join (String d dir) (PyStr.basename url)) as [|a p] eqn:E.
  - exfalso. now apply Hne.
  - exists (String d dir), a, p. repeat split. now rewrite E.
Qed.

(** Whether a URL is cached depends on the cache directory and the files
    only. *)
Lemma cached_same_dir (cfg cfg' : Net.config) (w : Net.world) (url : string) :
  Net.CACHE_DIR cfg' = Net.CACHE_DIR cfg ->
  Net._cache_path_for cfg' url = Net._cache_path_for cfg url
  /\ Net.cached cfg' w url = Net.cached cfg w url.
Proof.
  intros H. unfold Net.cached, Net._cache_path_for. rewrite H. split; reflexivity.
Qed.

(** A fetch of a cached URL returns its cache path and does nothing. *)
Lemma fetch_cached
    (network : nat -> Net.method -> string -> result Net.response)
    (mkstemp : Net.world -> string) (replace_ok : string -> string -> bool)
    (cfg : Net.config) (url : string) (w : Net.world) :
  Net.cached cfg w url = true ->
  exists p, Net._cache_path_for cfg url = Some p
    /\ Net.exists_ w p = true
    /\ Net.download_to_temp network mkstemp replace_ok cfg url w = (w, inr p).
Proof.
  intros Hc. unfold Net.download_to_temp. rewrite Hc. unfold Net.cached in Hc.
  destruct (Net._cache_path_for cfg url) as [p|]; [|discriminate].
  apply andb_true_iff in Hc as [_ Hex]. exists p. repeat split. exact Hex.
Qed.

Section FetchMore.

Variable network : nat -> Net.method -> string -> result Net.response.
Variable mkstemp : Net.world -> string.
Variable replace_ok : string -> string -> bool.

(** The retry loop of [download_to_temp] touches no file. *)
Lemma get_attempts_files (cfg : Net.config) (url : string) (attempts : list Z)
    (w : Net.world) :
  Net.files (Net.get_attempts network cfg url attempts w).1 = Net.files w.
Proof.
  revert w. induction attempts as [|a rest IH]; intros w;
    cbn [Net.get_attempts Net.request]; [reflexivity|].
  destruct (Net.check_response _); [|reflexivity].
  destruct (a =? Net.MAX_RETRIES cfg); [reflexivity|].
  match goal with
  | |- context [Net.sleep ?x ?f ?w0] =>
      destruct (sleep_cases x f w0) as [[_ ->]|(e' & _ & ->)]
  end.
  - rewrite IH. reflexivity.
  - reflexivity.
Qed.

(** What a fetch that returns a path leaves behind: the file exists. *)
Lemma fetch_result_exists (cfg : Net.config) (url : string) (w w1 : Net.world)
    (p : string) :
  Net.download_to_temp network mkstemp replace_ok cfg url w = (w1, inr p) ->
  Net.exists_ w1 p = true.
Proof.
  unfold Net.download_to_temp.
  destruct (Net.cached cfg w url) eqn:Hc.
  - unfold Net.cached in Hc.
    destruct (Net._cache_path_for cfg url) as [cp|]; [|discriminate].
    apply andb_true_iff in Hc as [_ Hex]. now intros [= <- <-].
  - destruct (Net.OFFLINE cfg); [discriminate|].
    destruct (Net.get_attempts _ _ _ _ _) as [w' [resp|e|]]; try discriminate.
    assert (Htmp : Net.exists_ (Net.write_file (mkstemp w') w') (mkstemp w') = true).
    { unfold Net.exists_, Net.write_file. simpl.
      apply bool_decide_eq_true. set_solver. }
    destruct (Net._cache_path_for cfg url) as [[|a cp]|].
    + now intros [= <- <-].
    + destruct (replace_ok _ _).
      * intros [= <- <-]. unfold Net.exists_, Net.move_file. simpl.
        apply bool_decide_eq_true. set_solver.
      * now intros [= <- <-].
    + now intros [= <- <-].
Qed.

End FetchMore.

(** X1: a fetch that succeeds with a cache directory, when [os.replace]
    works, returns the cache path of the URL and leaves the file there;
    any later fetch of the URL with that cache directory (online or
    offline, whatever the network does) returns the same path and does
    nothing else. *)
Theorem fetch_again_is_served_from_cache
    (network : nat -> Net.method -> string -> result Net.response)
    (mkstemp : Net.world -> string) (replace_ok : string -> string -> bool)
    (cfg : Net.config) (url : string) (w w1 : Net.world) (p : string) :
  States.truthy (Net.CACHE_DIR cfg) = true ->
  (forall src dst, replace_ok src dst = true) ->
  Net.download_to_temp network mkstemp replace_ok cfg url w = (w1, inr p) ->
  Net._cache_path_for cfg url = Some p
  /\ Net.exists_ w1 p = true
  /\ forall network' mkstemp' replace_ok' cfg',
       Net.CACHE_DIR cfg' = Net.CACHE_DIR cfg ->
       Net.download_to_temp network' mkstemp' replace_ok' cfg' url w1 = (w1, inr p).
Proof.
  intros Hdir Hrep Hrun.
  pose proof (fetch_result_exists network mkstemp replace_ok cfg url w w1 p Hrun)
    as Hex.
  destruct (cache_path_some cfg url Hdir) as (dir & a & cp & _ & Hcp & _).
  assert (Hp : p = String a cp).
  { revert Hrun. unfold Net.download_to_temp. rewrite Hcp.
    destruct (Net.cached cfg w url); [now intros [= _ <-]|].
    destruct (Net.OFFLINE cfg); [discriminate|].
    destruct (Net.get_attempts _ _ _ _ _) as [w' [resp|e|]]; try discriminate.
    rewrite Hrep. now intros [= _ <-]. }
  subst p. split; [exact Hcp|]. split; [exact Hex|].
  intros network' mkstemp' replace_ok' cfg' Hsame.
  destruct (cached_same_dir cfg cfg' w1 url Hsame) as [Hpath Hcached].
  assert (Hc : Net.cached cfg' w1 url = true).
  { rewrite Hcached. unfold Net.cached. rewrite Hcp. simpl. exact Hex. }
  destruct (fetch_cached network' mkstemp' replace_ok' cfg' url w1 Hc)
    as (p' & Hp' & _ & Hrun').
  rewrite Hrun'. rewrite Hpath, Hcp in Hp'. now injection Hp' as <-.
Qed.

Lemma fetch_again_is_served_from_cache_witness :
  let online := fun (_ : nat) (_ : Net.method) (_ : string) =>
    inr {| Net.status_code := 200; Net.content := "PK" |} in
  let offline_net := fun (_ : nat) (_ : Net.method) (_ : string) =>
    @inl exn Net.response (RequestException "ConnectionError") in
  let cfg := {| Net.CACHE_DIR := Some "/cache"; Net.OFFLINE := false;
                Net.MAX_RETRIES := 6; Net.RETRY_WAIT := 2%float |} in
  let cfg' := {| Net.CACHE_DIR := Some "/cache"; Net.OFFLINE := true;
                 Net.MAX_RETRIES := 6; Net.RETRY_WAIT := 2%float |} in
  let w0 := {| Net.files := ∅; Net.clock := 0; Net.trace := [] |} in
  let first := Net.download_to_temp online (fun _ => "/tmp/tmpq1.zip")
                 (fun _ _ => true) cfg Urls.place_url w0 in
  Net.download_to_temp offline_net (fun _ => "/tmp/tmpq2.zip") (fun _ _ => true)
    cfg' Urls.place_url first.1
  = (first.1, inr "/cache/cb_2023_us_place_500k.zip").
Proof.
  cbv zeta.
  match goal with
  | |- Net.download_to_temp ?net' ?mk' ?rp' ?cfg' ?url (?f ?net ?mk ?rp ?cfg _ ?w).1 = _ =>
      destruct (f net mk rp cfg url w) as [w1 r] eqn:E;
      assert (Hr : r = inr "/cache/cb_2023_us_place_500k.zip")
        by (apply (f_equal snd) in E; simpl in E; rewrite <- E; reflexivity);
      subst r;
      apply (fetch_again_is_served_from_cache net mk rp cfg url w w1 _
               eq_refl (fun _ _ => eq_refl) E)
  end.
  reflexivity.
Defined.

Lemma basename_aux_no_slash (f acc : list ascii) :
  forallb (fun c => negb (Ascii.eqb c "/")) f = true ->
  PyStr.basename_aux f acc = (acc ++ f)%list.
Proof.
  revert acc. induction f as [|c f IH]; intros acc; simpl.
  - intros _. now rewrite app_nil_r.
  - intros H. apply andb_true_iff in H as [Hc Hf].
    apply negb_true_iff in Hc. rewrite Hc, IH by exact Hf.
    now rewrite <- app_assoc.
Qed.

Lemma basename_aux_after_slash (l f acc : list ascii) :
  PyStr.basename_aux (l ++ "/"%char :: f) acc = PyStr.basename_aux f [].
Proof.
  revert acc. induction l as [|c l IH]; intros acc; simpl.
  - reflexivity.
  - destruct (Ascii.eqb c "/"); apply IH.
Qed.

(** [os.path.basename] of a path that ends in a slash and a name. *)
Lemma basename_dir_name (dir fname : string) :
  Urls.no_slash fname -> PyStr.basename (dir ++ "/" ++ fname) = fname.
Proof.
  intros H. unfold PyStr.basename. rewrite !chars_app.
  change (PyStr.chars "/") with ["/"%char]. simpl app.
  rewrite basename_aux_after_slash, basename_aux_no_slash by exact H.
  apply text_chars.
Qed.

(** X2: the cache is keyed by file name alone.  Two URLs that end in the
    same file name have the same cache path, so once the file of one is in
    the cache a fetch of the other returns that file and sends no
    request. *)
Theorem cache_is_keyed_by_file_name
    (network : nat -> Net.method -> string -> result Net.response)
    (mkstemp : Net.world -> string) (replace_ok : string -> string -> bool)
    (cfg : Net.config) (w : Net.world) (base1 base2 fname : string) :
  Urls.no_slash fname ->
  Net._cache_path_for cfg (base1 ++ "/" ++ fname)
  = Net._cache_path_for cfg (base2 ++ "/" ++ fname)
  /\ (Net.cached cfg w (base1 ++ "/" ++ fname) = true ->
      exists p,
        Net._cache_path_for cfg (base1 ++ "/" ++ fname) = Some p
        /\ Net.download_to_temp network mkstemp replace_ok cfg
             (base2 ++ "/" ++ fname) w = (w, inr p)).
Proof.
  intros Hf.
  assert (Hsame : Net._cache_path_for cfg (base1 ++ "/" ++ fname)
                  = Net._cache_path_for cfg (base2 ++ "/" ++ fname)).
  { unfold Net._cache_path_for. now rewrite !basename_dir_name. }
  split; [exact Hsame|]. intros Hc.
  assert (Hc2 : Net.cached cfg w (base2 ++ "/" ++ fname) = true).
  { unfold Net.cached in *. now rewrite <- Hsame. }
  destruct (fetch_cached network mkstemp replace_ok cfg _ w Hc2)
    as (p & Hp & _ & Hrun).
  exists p. split; [now rewrite Hsame|exact Hrun].
Qed.

(** The 2023 place archive is in the cache; a fetch of a file of that
    name from another server is answered from the cache. *)
Lemma cache_is_keyed_by_file_name_witness :
  let network := fun (_ : nat) (_ : Net.method) (_ : string) =>
    @inl exn Net.response (RequestException "ConnectionError") in
  let cfg := {| Net.CACHE_DIR := Some "/cache"; Net.OFFLINE := false;
                Net.MAX_RETRIES := 6; Net.RETRY_WAIT := 2%float |} in
  let w := {| Net.files := {["/cache/cb_2023_us_place_500k.zip"]};
              Net.clock := 0; Net.trace := [] |} in
  exists p,
    Net._cache_path_for cfg
      (Net.CB_BASE "2023" ++ "/" ++ "cb_2023_us_place_500k.zip") = Some p
    /\ Net.download_to_temp network (fun _ => "/tmp/tmpq1.zip") (fun _ _ => true)
         cfg ("https://mirror.example/pub" ++ "/" ++ "cb_2023_us_place_500k.zip") w
       = (w, inr p).
Proof.
  cbv zeta.
  match goal with
  | |- exists p, _ /\ Net.download_to_temp ?net ?mk ?rp ?cfg _ ?w = _ =>
      apply (cache_is_keyed_by_file_name net mk rp cfg w (Net.CB_BASE "2023")
               "https://mirror.example/pub" "cb_2023_us_place_500k.zip")
  end.
  - reflexivity.
  - reflexivity.
Defined.

(** X23: a fetch whose attempts all fail uses up its retries.  With at
    least one attempt allowed and backoff waits that [time.sleep]
    accepts, an attempt of [download_to_temp] fails when the request
    raises and on every status that is transient or from 400 to 599, an
    attempt of [prefetch_tiger.download] when the request raises and on
    every status other than 200; when all [MAX_RETRIES] attempts fail,
    the fetch has made [MAX_RETRIES] requests, has slept
    [RETRY_WAIT * 2 ** (attempt - 1)] after each attempt but the last,
    has written no file, and raises the error of the last attempt (the
    prefetcher wraps it), which is a FetchFailed. *)
Theorem fetch_retries_then_fails
    (network : nat -> Net.method -> string -> result Net.response)
    (mkstemp : Net.world -> string) (replace_ok : string -> string -> bool)
    (cfg : Net.config) (url dest_dir : string) (w : Net.world) :
  1 <= Net.MAX_RETRIES cfg ->
  (forall attempt, 1 <= attempt < Net.MAX_RETRIES cfg ->
     Net.sleepable (Net.RETRY_WAIT cfg) (2 ^ (attempt - 1)) = true) ->
  let n := Z.to_nat (Net.MAX_RETRIES cfg) in
  let answers := Net.answers_from network Net.GET url (Net.clock w) n in
  let w' := {| Net.files := Net.files w;
               Net.clock := (Net.clock w + n)%nat;
               Net.trace :=
                 (Net.trace w
                  ++ Net.backoff_trace Net.GET url (Net.RETRY_WAIT cfg) 1
                       answers)%list |} in
  (forall resp,
     Net.attempt_failed (inr resp)
     = (Net.transient (Net.status_code resp)
        || Net.is_error_status (Net.status_code resp))%bool
     /\ Net.prefetch_attempt_failed (inr resp)
        = negb (Net.status_code resp =? 200))
  /\ (forall e, Net.attempt_failed (inl e) = true
                /\ Net.prefetch_attempt_failed (inl e) = true)
  /\ (Net.OFFLINE cfg = false -> Net.cached cfg w url = false ->
      Forall (fun r => Net.attempt_failed r = true) answers ->
      exists e,
        Net.check_response (network (Net.clock w + (n - 1))%nat Net.GET url) = inl e
        /\ match network (Net.clock w + (n - 1))%nat Net.GET url with
           | inl e0 => e = e0
           | inr resp =>
               e = (if Net.transient (Net.status_code resp)
                    then RuntimeError_HTTP (Net.status_code resp)
                    else HTTPError (Net.status_code resp))
               /\ Net.FetchFailed e
           end
        /\ Net.download_to_temp network mkstemp replace_ok cfg url w = (w', inl e))
  /\ (Net.exists_ w (PyStr.path_join dest_dir (PyStr.basename url)) = false ->
      Forall (fun r => Net.prefetch_attempt_failed r = true) answers ->
      exists e,
        Net.prefetch_check_response
          (network (Net.clock w + (n - 1))%nat Net.GET url) = inl e
        /\ Net.download network url dest_dir (Net.MAX_RETRIES cfg)
             (Net.RETRY_WAIT cfg) w
           = (w', inl (RuntimeError_FailedAfter (Net.MAX_RETRIES cfg) url e))
        /\ Net.FetchFailed (RuntimeError_FailedAfter (Net.MAX_RETRIES cfg) url e)).
Proof.
  intros Hn Hs n answers w'.
  assert (Hk : exists k, n = S k) by (exists (Nat.pred n); unfold n; lia).
  destruct Hk as [k Hk].
  split.
  { intros resp. split;
      [apply attempt_failed_status|apply prefetch_attempt_failed_status]. }
  split; [intros e; split; reflexivity|]. split.
  - intros Hoff Hnc Hall. unfold answers in Hall. rewrite Hk in Hall.
    destruct (get_attempts_all_fail network cfg url k 1 w) as (e & He & Hrun);
      [unfold n in Hk; lia|exact Hs|exact Hall|].
    exists e. replace (n - 1)%nat with k by lia.
    split; [exact He|]. split; [now apply check_response_error|].
    unfold Net.download_to_temp. rewrite Hnc, Hoff, Hrun.
    unfold w', answers. rewrite Hk. reflexivity.
  - intros Hnc Hall. unfold answers in Hall. rewrite Hk in Hall.
    destruct (prefetch_attempts_all_fail network url
                (PyStr.path_join dest_dir (PyStr.basename url))
                (Net.MAX_RETRIES cfg) (Net.RETRY_WAIT cfg) k 1 w)
      as (e & He & Hrun); [unfold n in Hk; lia|exact Hs|exact Hall|].
    exists e. replace (n - 1)%nat with k by lia.
    split; [exact He|]. split; [|exact I].
    unfold Net.download. rewrite Hnc, Hrun.
    unfold w', answers. rewrite Hk. reflexivity.
Qed.

(** Three attempts that all get a 503: three requests, two sleeps with
    factors 1 and 2, and the error of the last attempt. *)
Lemma fetch_retries_then_fails_witness :
  let network := fun (_ : nat) (_ : Net.method) (_ : string) =>
    inr {| Net.status_code := 503; Net.content := EmptyString |} in
  let cfg := {| Net.CACHE_DIR := Some "/cache"; Net.OFFLINE := false;
                Net.MAX_RETRIES := 3; Net.RETRY_WAIT := 2%float |} in
  let url := "https://www2.census.gov/geo/tiger/GENZ2023/shp/cb_2023_60_cousub_500k.zip" in
  let w0 := {| Net.files := ∅; Net.clock := 0; Net.trace := [] |} in
  let unavailable := inr {| Net.status_code := 503; Net.content := EmptyString |} in
  Net.download_to_temp network (fun _ => "/tmp/tmpq1.zip") (fun _ _ => true)
    cfg url w0
  = ({| Net.files := ∅; Net.clock := 3;
        Net.trace := [ Net.Request Net.GET url unavailable; Net.Sleep 2%float 1;
                       Net.Request Net.GET url unavailable; Net.Sleep 2%float 2;
                       Net.Request Net.GET url unavailable ] |},
     inl (RuntimeError_HTTP 503)).
Proof.
  cbv zeta.
  match goal with
  | |- Net.download_to_temp ?net ?mk ?rp ?cfg ?url ?w = _ =>
      destruct (fetch_retries_then_fails net mk rp cfg url "/cache" w)
        as (_ & _ & H & _);
        [simpl; lia
        |intros attempt Ha; simpl in Ha;
         assert (Hc : attempt = 1 \/ attempt = 2) by lia;
         destruct Hc as [-> | ->]; vm_compute; reflexivity
        |];
      destruct H as (e & _ & He & Hrun);
        [reflexivity|vm_compute; reflexivity|repeat constructor|]
  end.
  rewrite Hrun. simpl in He. destruct He as [-> _]. reflexivity.
Defined.

Lemma backoff_trace_requests (m : Net.method) (url : string) (wait : float)
    (answers : list (result Net.response)) (a : Z) :
  length (Net.requests (Net.backoff_trace m url wait a answers)) = length answers.
Proof. now rewrite requests_backoff_trace, length_map. Qed.

Section FetchRecovery.

Variable network : nat -> Net.method -> string -> result Net.response.
Variable mkstemp : Net.world -> string.
Variable replace_ok : string -> string -> bool.

(** X3: a fetch succeeds as soon as one attempt does.  When the first
    [k] attempts fail, [k] below the limit, the backoff wait after each of
    them is a duration [time.sleep] accepts, and the next attempt passes,
    the fetch has sent [k + 1] requests, has slept
    [RETRY_WAIT * 2 ** (attempt - 1)] after each failure, and returns the
    path of a file that exists (the temporary file and the cache
    directory being writable, as everywhere in [world]). *)
Theorem fetch_succeeds_after_failures (cfg : Net.config) (url : string)
    (w : Net.world) (k : nat) (resp : Net.response) :
  Net.OFFLINE cfg = false -> Net.cached cfg w url = false ->
  (k < Z.to_nat (Net.MAX_RETRIES cfg))%nat ->
  (forall attempt, 1 <= attempt <= Z.of_nat k ->
     Net.sleepable (Net.RETRY_WAIT cfg) (2 ^ (attempt - 1)) = true) ->
  Forall (fun r => Net.attempt_failed r = true)
    (Net.answers_from network Net.GET url (Net.clock w) k) ->
  Net.check_response (network (Net.clock w + k)%nat Net.GET url) = inr resp ->
  exists w1 p,
    Net.download_to_temp network mkstemp replace_ok cfg url w = (w1, inr p)
    /\ Net.trace w1
       = (Net.trace w
          ++ Net.backoff_trace Net.GET url (Net.RETRY_WAIT cfg) 1
               (Net.answers_from network Net.GET url (Net.clock w) (S k)))%list
    /\ Net.clock w1 = (Net.clock w + S k)%nat
    /\ length (Net.requests (Net.trace w1))
       = (length (Net.requests (Net.trace w)) + S k)%nat
    /\ Net.exists_ w1 p = true.
Proof.
  intros Hoff Hnc Hk Hs Hall Hok.
  assert (Hshape : exists w1 p,
    Net.download_to_temp network mkstemp replace_ok cfg url w = (w1, inr p)
    /\ Net.trace w1
       = (Net.trace w
          ++ Net.backoff_trace Net.GET url (Net.RETRY_WAIT cfg) 1
               (Net.answers_from network Net.GET url (Net.clock w) (S k)))%list
    /\ Net.clock w1 = (Net.clock w + S k)%nat).
  { unfold Net.download_to_temp. rewrite Hnc, Hoff.
    rewrite (get_attempts_recover network cfg url k 1 w resp);
      [|lia|intros; apply Hs; lia|exact Hall|exact Hok].
    destruct (Net._cache_path_for cfg url) as [[|a cp]|].
    - eexists _, _. split; [reflexivity|]. split; reflexivity.
    - destruct (replace_ok _ _); eexists _, _;
        (split; [reflexivity|]); split; reflexivity.
    - eexists _, _. split; [reflexivity|]. split; reflexivity. }
  destruct Hshape as (w1 & p & Hrun & Ht & Hc).
  exists w1, p. split; [exact Hrun|]. split; [exact Ht|]. split; [exact Hc|].
  split; [|exact (fetch_result_exists network mkstemp replace_ok cfg url w w1 p Hrun)].
  now rewrite Ht, requests_app, length_app, backoff_trace_requests,
    answers_from_length.
Qed.

End FetchRecovery.

(** Two 503 answers, then a 200: three requests, sleeps of factors 1 and
    2, and the temporary file (no cache directory). *)
Lemma fetch_succeeds_after_failures_witness :
  let network := fun (n : nat) (_ : Net.method) (_ : string) =>
    inr {| Net.status_code := match n with 0%nat | 1%nat => 503 | _ => 200 end;
           Net.content := "PK" |} in
  let cfg := {| Net.CACHE_DIR := None; Net.OFFLINE := false;
                Net.MAX_RETRIES := 6; Net.RETRY_WAIT := 2%float |} in
  let w0 := {| Net.files := ∅; Net.clock := 0; Net.trace := [] |} in
  exists w1 p,
    Net.download_to_temp network (fun _ => "/tmp/tmpq1.zip") (fun _ _ => true)
      cfg Urls.place_url w0 = (w1, inr p)
    /\ Net.trace w1
       = ([] ++ Net.backoff_trace Net.GET Urls.place_url 2%float 1
                  (Net.answers_from network Net.GET Urls.place_url 0 3))%list
    /\ Net.clock w1 = 3%nat
    /\ length (Net.requests (Net.trace w1)) = 3%nat
    /\ Net.exists_ w1 p = true.
Proof.
  cbv zeta.
  match goal with
  | |- exists w1 p, Net.download_to_temp ?net ?mk ?rp ?cfg ?url ?w = _ /\ _ =>
      apply (fetch_succeeds_after_failures net mk rp cfg url w 2
               {| Net.status_code := 200; Net.content := "PK" |})
  end.
  - reflexivity.
  - reflexivity.
  - simpl. lia.
  - intros attempt Ha. simpl in Ha.
    assert (Hc : attempt = 1 \/ attempt = 2) by lia.
    destruct Hc as [-> | ->]; vm_compute; reflexivity.
  - repeat constructor.
  - reflexivity.
Defined.

Section NoAttempts.

Variable network : nat -> Net.method -> string -> result Net.response.
Variable mkstemp : Net.world -> string.
Variable replace_ok : string -> string -> bool.

Lemma probe_all_no_attempts (max_retries : Z) (wait : float) (urls : list string)
    (w : Net.world) :
  max_retries <= 0 ->
  Net.probe_all network max_retries wait urls w = (w, Net.Exhausted).
Proof.
  intros H. induction urls as [|u rest IH]; cbn [Net.probe_all]; [reflexivity|].
  rewrite py_range_nil by lia. cbn [Net.probe]. exact IH.
Qed.

(** X4: with a retry limit of zero or less no attempt is made and no
    request is sent.  A fetch of an uncached URL then creates its
    temporary file and stops on the unbound [resp] (UnboundLocalError);
    the prefetcher's [download] returns the path of a file it never wrote;
    both resolvers raise their no-candidate error at once. *)
Theorem no_attempts_without_retries (cfg : Net.config) (url dest : string)
    (urls : list string) (w : Net.world) :
  Net.MAX_RETRIES cfg <= 0 ->
  (Net.OFFLINE cfg = false -> Net.cached cfg w url = false ->
   Net.download_to_temp network mkstemp replace_ok cfg url w
   = (Net.write_file (mkstemp w) w, inl UnboundLocalError_resp))
  /\ (Net.exists_ w (Prefetch.cache_file dest url) = false ->
      Net.download network url dest (Net.MAX_RETRIES cfg) (Net.RETRY_WAIT cfg) w
      = (w, inr (Prefetch.cache_file dest url)))
  /\ Net.prefetch_resolve_first_available network urls (Net.MAX_RETRIES cfg)
       (Net.RETRY_WAIT cfg) w
     = (w, inl (RuntimeError_NoAvailableUrl urls))
  /\ ((Net.OFFLINE cfg && States.truthy (Net.CACHE_DIR cfg))%bool = false ->
      Net.resolve_first_available network cfg urls w
      = (w, inl (RuntimeError_NoneAvailable urls))).
Proof.
  intros H. split; [|split; [|split]].
  - intros Hoff Hnc. unfold Net.download_to_temp.
    rewrite Hnc, Hoff, py_range_nil by lia. reflexivity.
  - intros Hex. unfold Net.download, Prefetch.cache_file in *.
    rewrite Hex, py_range_nil by lia. reflexivity.
  - unfold Net.prefetch_resolve_first_available.
    now rewrite probe_all_no_attempts.
  - intros Hon. unfold Net.resolve_first_available.
    now rewrite Hon, probe_all_no_attempts.
Qed.

End NoAttempts.

Lemma no_attempts_without_retries_witness :
  let network := fun (_ : nat) (_ : Net.method) (_ : string) =>
    inr {| Net.status_code := 200; Net.content := "PK" |} in
  let cfg := {| Net.CACHE_DIR := None; Net.OFFLINE := false;
                Net.MAX_RETRIES := 0; Net.RETRY_WAIT := 2%float |} in
  let w0 := {| Net.files := ∅; Net.clock := 0; Net.trace := [] |} in
  Net.download network Urls.place_url "/cache" 0 2%float w0
  = (w0, inr "/cache/cb_2023_us_place_500k.zip")
  /\ Net.exists_ w0 "/cache/cb_2023_us_place_500k.zip" = false.
Proof.
  cbv zeta. split; [|reflexivity].
  match goal with
  | |- Net.download ?net ?url ?dest _ _ ?w = _ =>
      apply (no_attempts_without_retries net (fun _ => "/tmp/tmpq1.zip")
               (fun _ _ => true)
               {| Net.CACHE_DIR := None; Net.OFFLINE := false;
                  Net.MAX_RETRIES := 0; Net.RETRY_WAIT := 2%float |}
               url dest [] w)
  end.
  - simpl. lia.
  - reflexivity.
Defined.

Section PrefetchDownload.

Variable network : nat -> Net.method -> string -> result Net.response.

(** How the retry loop of [download] can end when it has an attempt to
    make: with the file written, or raising with no file touched. *)
Lemma prefetch_attempts_outcome (url out : string) (max_retries : Z)
    (retry_wait : float) (k : nat) :
  forall (a : Z) (w : Net.world),
    Z.to_nat (max_retries + 1 - a) = S k ->
    match Net.prefetch_attempts network url out max_retries retry_wait
            (Net.py_range a (max_retries + 1)) w with
    | (w1, Net.Broke _) => Net.files w1 = {[out]} ∪ Net.files w
    | (w1, Net.Raised _) => Net.files w1 = Net.files w
    | (_, Net.Exhausted) => False
    end.
Proof.
  induction k as [|k IH]; intros a w Hk; rewrite py_range_cons by lia;
    cbn [Net.prefetch_attempts Net.request];
    destruct (Net.prefetch_check_response _); try reflexivity.
  - now replace (a =? max_retries) with true by lia.
  - replace (a =? max_retries) with false by lia.
    match goal with
    | |- context [Net.sleep ?x ?f ?w0] =>
        destruct (sleep_cases x f w0) as [[_ ->]|(e' & _ & ->)]
    end; [|reflexivity].
    match goal with
    | |- context [Net.prefetch_attempts _ _ _ _ _ _ ?w0] =>
        specialize (IH (a + 1) w0 ltac:(lia))
    end.
    exact IH.
Qed.

(** X5: with at least one attempt allowed, a [download] that returns has
    its file in the cache directory, under the file name of the URL; a
    later [download] of the URL returns the same path and sends no
    request, whatever the network and the retry settings. *)
Theorem prefetch_download_installs (url dest : string) (max_retries : Z)
    (retry_wait : float) (w w1 : Net.world) (p : string) :
  1 <= max_retries ->
  Net.download network url dest max_retries retry_wait w = (w1, inr p) ->
  p = Prefetch.cache_file dest url
  /\ Net.exists_ w1 p = true
  /\ forall network' max_retries' retry_wait',
       Net.download network' url dest max_retries' retry_wait' w1 = (w1, inr p).
Proof.
  intros Hn Hrun. unfold Net.download in Hrun.
  fold (Prefetch.cache_file dest url) in Hrun.
  assert (H : p = Prefetch.cache_file dest url /\ Net.exists_ w1 p = true).
  { destruct (Net.exists_ w (Prefetch.cache_file dest url)) eqn:Hex.
    - injection Hrun as <- <-. now split.
    - pose proof (prefetch_attempts_outcome url (Prefetch.cache_file dest url)
                    max_retries retry_wait (Z.to_nat max_retries - 1) 1 w
                    ltac:(lia)) as Hout.
      destruct (Net.prefetch_attempts _ _ _ _ _ _ _) as [w' [u|e|]];
        [|discriminate|contradiction].
      injection Hrun as <- <-. split; [reflexivity|].
      unfold Net.exists_. apply bool_decide_eq_true. rewrite Hout. clear.
      set_solver. }
  destruct H as [-> Hex]. split; [reflexivity|]. split; [exact Hex|].
  intros network' max_retries' retry_wait'. unfold Net.download.
  fold (Prefetch.cache_file dest url). now rewrite Hex.
Qed.

End PrefetchDownload.

Lemma prefetch_download_installs_witness :
  let network := fun (n : nat) (_ : Net.method) (_ : string) =>
    inr {| Net.status_code := match n with 0%nat => 502 | _ => 200 end;
           Net.content := "PK" |} in
  let down := fun (_ : nat) (_ : Net.method) (_ : string) =>
    @inl exn Net.response (RequestException "ConnectionError") in
  let w0 := {| Net.files := ∅; Net.clock := 0; Net.trace := [] |} in
  let first := Net.download network (Urls.cousub_url "12") "/cache" 6 2%float w0 in
  first.2 = inr "/cache/cb_2023_12_cousub_500k.zip"
  /\ Net.download down (Urls.cousub_url "12") "/cache" 1 2%float first.1
     = (first.1, inr "/cache/cb_2023_12_cousub_500k.zip").
Proof.
  cbv zeta. split; [reflexivity|].
  match goal with
  | |- Net.download ?net' ?url ?dest _ _ (?f ?net _ _ ?n ?rw ?w).1 = _ =>
      destruct (f net url dest n rw w) as [w1 r] eqn:E;
      assert (Hr : r = inr "/cache/cb_2023_12_cousub_500k.zip")
        by (apply (f_equal snd) in E; simpl in E; rewrite <- E; reflexivity);
      subst r;
      apply (prefetch_download_installs net url dest n rw w w1 _ ltac:(lia) E)
  end.
Defined.

(** ** Source resolver: how much it asks and sleeps *)

Lemma sleeps_app (t t' : list Net.event) :
  Net.sleeps (t ++ t') = (Net.sleeps t ++ Net.sleeps t')%list.
Proof. apply omap_app. Qed.

(** The sleeps of the attempts on one URL: the factor [2 ** (i - 1)] for
    each attempt [i] but the last. *)
Lemma sleeps_backoff_trace (m : Net.method) (url : string) (wait : float)
    (answers : list (result Net.response)) :
  forall a,
    Net.sleeps (Net.backoff_trace m url wait a answers)
    = map (fun i => 2 ^ (i - 1))
        (Net.py_range a (a + Z.of_nat (length answers) - 1)).
Proof.
  induction answers as [|x [|y rest] IH]; intros a.
  - now rewrite py_range_nil by (simpl; lia).
  - now rewrite py_range_nil by (simpl; lia).
  - rewrite backoff_trace_cons.
    rewrite (py_range_cons a) by (simpl length; lia).
    change (Net.sleeps (Net.Request m url x :: Net.Sleep wait (2 ^ (a - 1)) :: ?t))
      with (2 ^ (a - 1) :: Net.sleeps t).
    rewrite IH. simpl map. do 3 f_equal. simpl length. lia.
Qed.

Lemma sleeps_probes_trace (wait : float) (urls : list string)
    (answers : list (list (result Net.response))) :
  (length answers <= length urls)%nat ->
  Net.sleeps (Net.probes_trace wait urls answers)
  = flat_map (fun a => map (fun i => 2 ^ (i - 1))
                         (Net.py_range 1 (Z.of_nat (length a)))) answers.
Proof.
  revert answers. induction urls as [|u urls IH]; intros [|a answers] Hlen;
    try reflexivity; [simpl in Hlen; lia|].
  rewrite probes_trace_cons, sleeps_app, sleeps_backoff_trace, IH
    by (simpl in Hlen; lia).
  simpl flat_map. do 3 f_equal. lia.
Qed.

Section ResolverBudget.

Variable network : nat -> Net.method -> string -> result Net.response.

Lemma probe_all_budget (max_retries : Z) (wait : float) (urls : list string)
    (w : Net.world) :
  let w' := (Net.probe_all network max_retries wait urls w).1 in
  Net.files w' = Net.files w
  /\ exists delta,
       Net.trace w' = (Net.trace w ++ delta)%list
       /\ Net.within_budget max_retries wait urls delta.
Proof.
  pose proof (probe_all_spec network max_retries wait urls w) as H.
  cbv zeta in H |- *.
  destruct (Net.probe_all network max_retries wait urls w) as [w' out].
  destruct H as (Hf & answers & Ht & Hlen & Hle & _).
  split; [exact Hf|]. exists (Net.probes_trace wait urls answers).
  split; [exact Ht|]. exists answers. repeat split; assumption.
Qed.

(** X6: the budget of a resolution.  What a resolution does to the
    outside is, candidate by candidate in list order and for the first
    candidates of the list only, at most [max_retries] HEAD requests to
    that candidate with a sleep of [retry_wait * 2 ** (attempt - 1)]
    after each of them but the last: so no sleep follows the last probe
    of a candidate, the sleeps of a candidate that got [k] probes have
    the factors [2 ** 0] to [2 ** (k - 2)], and no file is touched.  This
    holds however the resolution ends (a candidate, the no-candidate
    error, or what [time.sleep] raised). *)
Theorem resolver_request_budget (urls : list string) (w : Net.world) :
  (forall max_retries retry_wait,
     let w' := (Net.prefetch_resolve_first_available network urls max_retries
                  retry_wait w).1 in
     Net.files w' = Net.files w
     /\ exists delta,
          Net.trace w' = (Net.trace w ++ delta)%list
          /\ Net.within_budget max_retries retry_wait urls delta)
  /\ (forall cfg,
        let w' := (Net.resolve_first_available network cfg urls w).1 in
        Net.files w' = Net.files w
        /\ exists delta,
             Net.trace w' = (Net.trace w ++ delta)%list
             /\ Net.within_budget (Net.MAX_RETRIES cfg) (Net.RETRY_WAIT cfg)
                  urls delta)
  /\ (forall wait answers,
        (length answers <= length urls)%nat ->
        Net.requests (Net.probes_trace wait urls answers)
        = concat (zip_with (fun u a => map (Net.head_probe u) a) urls answers)
        /\ Net.sleeps (Net.probes_trace wait urls answers)
           = flat_map (fun a => map (fun i => 2 ^ (i - 1))
                                  (Net.py_range 1 (Z.of_nat (length a)))) answers).
Proof.
  split; [|split].
  - intros max_retries retry_wait w'. subst w'.
    unfold Net.prefetch_resolve_first_available.
    pose proof (probe_all_budget max_retries retry_wait urls w) as Hb.
    cbv zeta in Hb.
    now destruct (Net.probe_all network max_retries retry_wait urls w)
      as [w1 [u|e|]].
  - intros cfg w'. subst w'. unfold Net.resolve_first_available.
    destruct (_ && _)%bool.
    + assert (Hnone : exists delta : list Net.event,
                Net.trace w = (Net.trace w ++ delta)%list
                /\ Net.within_budget (Net.MAX_RETRIES cfg) (Net.RETRY_WAIT cfg)
                     urls delta).
      { exists []. rewrite app_nil_r. split; [reflexivity|].
        exists []. split; [now destruct urls|].
        split; [simpl; lia|constructor]. }
      destruct (List.find _ urls); simpl; split; auto.
    + pose proof (probe_all_budget (Net.MAX_RETRIES cfg) (Net.RETRY_WAIT cfg)
                    urls w) as Hb.
      cbv zeta in Hb.
      now destruct (Net.probe_all network _ _ urls w) as [w1 [u|e|]].
  - intros wait answers Hlen. split.
    + apply requests_probes_trace.
    + now apply sleeps_probes_trace.
Qed.

End ResolverBudget.

(** The first candidate never answers, the second does at once: six
    probes with five sleeps between them, then one probe. *)
Lemma resolver_request_budget_witness :
  let network := fun (_ : nat) (_ : Net.method) (u : string) =>
    if String.eqb u "https://old.example/z.zip"
    then inr {| Net.status_code := 200; Net.content := EmptyString |}
    else inl (RequestException "ConnectionError") in
  let cfg := {| Net.CACHE_DIR := None; Net.OFFLINE := false;
                Net.MAX_RETRIES := 6; Net.RETRY_WAIT := 2%float |} in
  let urls := ["https://new.example/z.zip"; "https://old.example/z.zip"] in
  let w0 := {| Net.files := ∅; Net.clock := 0; Net.trace := [] |} in
  let w' := (Net.resolve_first_available network cfg urls w0).1 in
  Net.sleeps (Net.trace w') = [1; 2; 4; 8; 16]
  /\ Net.files w' = Net.files w0
  /\ exists delta,
       Net.trace w' = (Net.trace w0 ++ delta)%list
       /\ Net.within_budget 6 2%float urls delta.
Proof.
  cbv zeta. split; [vm_compute; reflexivity|].
  match goal with
  | |- Net.files (?f ?net ?cfg ?urls ?w).1 = _ /\ _ =>
      exact (proj1 (proj2 (resolver_request_budget net urls w)) cfg)
  end.
Defined.

(** ** Offline mode with a cache directory *)

(** X7: offline with a cache directory, neither the resolver nor the
    fetch touches the outside (no request, no sleep, no file).  The
    resolver returns the first candidate whose cache file exists, every
    candidate before it being uncached, and raises its none-cached error
    when no candidate is cached; the fetch returns the cache path of a
    cached URL and raises its not-cached error for any other. *)
Theorem offline_with_cache_stays_local
    (network : nat -> Net.method -> string -> result Net.response)
    (mkstemp : Net.world -> string) (replace_ok : string -> string -> bool)
    (cfg : Net.config) (urls : list string) (url : string) (w : Net.world) :
  Net.OFFLINE cfg = true -> States.truthy (Net.CACHE_DIR cfg) = true ->
  (match Net.resolve_first_available network cfg urls w with
   | (w', inr u) =>
       w' = w
       /\ exists pre post,
            urls = (pre ++ u :: post)%list
            /\ Forall (fun v => Net.cached cfg w v = false) pre
            /\ Net.cached cfg w u = true
   | (w', inl e) =>
       w' = w /\ Net.OfflineCacheMiss e
       /\ Forall (fun v => Net.cached cfg w v = false) urls
   end)
  /\ (match Net.download_to_temp network mkstemp replace_ok cfg url w with
      | (w', inr p) =>
          w' = w /\ Net.cached cfg w url = true
          /\ Net._cache_path_for cfg url = Some p
      | (w', inl e) =>
          w' = w /\ Net.OfflineFetchDenied e /\ Net.cached cfg w url = false
      end).
Proof.
  intros Hoff Hdir. split.
  - unfold Net.resolve_first_available. rewrite Hoff, Hdir. simpl.
    destruct (List.find (Net.cached cfg w) urls) as [u|] eqn:E.
    + split; [reflexivity|]. now apply find_first.
    + split; [reflexivity|]. split; [exact I|]. now apply find_none_all.
  - unfold Net.download_to_temp.
    destruct (Net.cached cfg w url) eqn:Hc.
    + unfold Net.cached in Hc.
      destruct (Net._cache_path_for cfg url) as [p|]; [|discriminate].
      repeat split.
    + rewrite Hoff. repeat split.
Qed.

Lemma offline_with_cache_stays_local_witness :
  let network := fun (_ : nat) (_ : Net.method) (_ : string) =>
    @inl exn Net.response (RequestException "ConnectionError") in
  let cfg := {| Net.CACHE_DIR := Some "/cache"; Net.OFFLINE := true;
                Net.MAX_RETRIES := 6; Net.RETRY_WAIT := 2%float |} in
  let w := {| Net.files := {["/cache/cb_2021_us_zcta520_500k.zip"]};
              Net.clock := 0; Net.trace := [] |} in
  Net.resolve_first_available network cfg Net.zcta_urls w
  = (w, inr (Net.zcta_url "2021"))
  /\ match Net.download_to_temp network (fun _ => "/tmp/tmpq1.zip")
             (fun _ _ => true) cfg (Net.zcta_url "2023") w with
     | (w', inr p) =>
         w' = w /\ Net.cached cfg w (Net.zcta_url "2023") = true
         /\ Net._cache_path_for cfg (Net.zcta_url "2023") = Some p
     | (w', inl e) =>
         w' = w /\ Net.OfflineFetchDenied e
         /\ Net.cached cfg w (Net.zcta_url "2023") = false
     end.
Proof.
  cbv zeta. split; [reflexivity|].
  match goal with
  | |- match Net.download_to_temp ?net ?mk ?rp ?cfg ?url ?w with _ => _ end =>
      apply (offline_with_cache_stays_local net mk rp cfg [] url w
               eq_refl eq_refl)
  end.
Defined.

(** ** State resolvers: rejections and agreement *)

Lemma first_key_of_None (d : list (string * string)) (fips : string) :
  States.first_key_of d fips = None -> forall k, ~ In (k, fips) d.
Proof.
  induction d as [|[k' v'] d IH]; simpl; [auto|].
  destruct (String.eqb_spec v' fips) as [->|Hne]; [discriminate|].
  intros H k [[= _ E]|Hin]; [now apply Hne|now apply (IH H k)].
Qed.

Lemma dict_get_None (d : list (string * string)) (k : string) :
  States.dict_get d k = None -> forall v, ~ In (k, v) d.
Proof.
  induction d as [|[k' v'] d IH]; simpl; [auto|].
  destruct (String.eqb_spec k' k) as [->|Hne]; [discriminate|].
  intros H v [[= E _]|Hin]; [now apply Hne|now apply (IH H v)].
Qed.

Lemma length_chars (s : string) : String.length s = length (PyStr.chars s).
Proof. induction s as [|c s IH]; simpl; [reflexivity|]. now rewrite IH. Qed.

(** On ASCII text the two tests for a two-digit token are the same. *)
Lemma fullmatch_len_isdigit (t : string) :
  PyStr.fullmatch_2digits t = (Z.eqb (PyStr.len t) 2 && PyStr.isdigit t)%bool.
Proof.
  unfold PyStr.fullmatch_2digits, PyStr.len, PyStr.isdigit.
  rewrite length_chars.
  destruct (PyStr.chars t) as [|a [|b [|c l]]]; try reflexivity.
  - simpl. now rewrite andb_true_r.
  - destruct (Z.eqb_spec (Z.of_nat (length (a :: b :: c :: l))) 2) as [E|_];
      [simpl length in E; lia|reflexivity].
Qed.

(** An entry of the table resolves to itself, by abbreviation and by
    code, in both resolvers. *)
Lemma table_entry_resolves (abbr fips : string) :
  In (abbr, fips) States.STATE_ABBR_TO_FIPS ->
  States.normalize_state abbr = inr (abbr, fips)
  /\ States.normalize_state fips = inr (abbr, fips)
  /\ States.norm_state abbr = inr (abbr, fips)
  /\ States.norm_state fips = inr (abbr, fips).
Proof.
  intros H. simpl in H. each_entry H; repeat split; vm_compute; reflexivity.
Qed.

(** X8: what the command-line resolver rejects.  It returns exactly when
    the stripped token is a code of the table or uppercases to an
    abbreviation of the table; a two-digit token that is no code raises
    the unknown-FIPS error with the stripped token, and any other token
    raises the state-token error with the token as it was given. *)
Theorem normalize_state_rejections (state : string) :
  ((exists p, States.normalize_state state = inr p)
   <-> (exists abbr, In (abbr, PyStr.strip state) States.STATE_ABBR_TO_FIPS)
       \/ (exists fips,
             In (PyStr.upper (PyStr.strip state), fips) States.STATE_ABBR_TO_FIPS))
  /\ (forall e, States.normalize_state state = inl e ->
        States.UnknownState e
        /\ ((PyStr.fullmatch_2digits (PyStr.strip state) = true
             /\ e = ValueError_UnknownStateFips (PyStr.strip state))
            \/ (PyStr.fullmatch_2digits (PyStr.strip state) = false
                /\ e = ValueError_StateToken state))).
Proof.
  split.
  - split.
    + intros [[a f] H]. pose proof (normalize_state_In _ _ _ H) as Hin.
      revert H. unfold States.normalize_state.
      destruct (PyStr.fullmatch_2digits _).
      * destruct (States.first_key_of _ _) as [k|]; [|discriminate].
        destruct (States.truthy _); [|discriminate].
        intros [= -> <-]. left. now exists a.
      * destruct (States.dict_get _ _) as [v|]; [|discriminate].
        intros [= <- ->]. right. now exists f.
    + intros [[abbr Hin]|[fips Hin]].
      * destruct (table_entry_resolves _ _ Hin) as (_ & H & _).
        exists (abbr, PyStr.strip state).
        revert H. unfold States.normalize_state.
        assert (Hs : PyStr.strip (PyStr.strip state) = PyStr.strip state).
        { simpl in Hin. each_entry Hin; reflexivity. }
        rewrite Hs.
        destruct (PyStr.fullmatch_2digits (PyStr.strip state)).
        -- destruct (States.first_key_of _ _); [|discriminate].
           destruct (States.truthy _); [auto|discriminate].
        -- destruct (States.dict_get _ _); [auto|discriminate].
      * destruct (key_not_scope _ _ Hin) as (_ & Hdig & Hget & _).
        exists (PyStr.upper (PyStr.strip state), fips).
        unfold States.normalize_state.
        destruct (PyStr.fullmatch_2digits (PyStr.strip state)) eqn:Hfm.
        -- exfalso. rewrite fullmatch_len_isdigit in Hfm.
           apply andb_true_iff in Hfm as [_ Hd].
           rewrite (upper_digits _ Hd) in Hdig. congruence.
        -- now rewrite Hget.
  - intros e. unfold States.normalize_state.
    destruct (PyStr.fullmatch_2digits (PyStr.strip state)).
    + destruct (States.first_key_of _ _) as [k|].
      * destruct (States.truthy _) eqn:Ht; [discriminate|].
        intros [= <-]. split; [exact I|]. left. now split.
      * intros [= <-]. split; [exact I|]. left. now split.
    + destruct (States.dict_get _ _); [discriminate|].
      intros [= <-]. split; [exact I|]. right. now split.
Qed.

Lemma normalize_state_rejections_witness :
  States.UnknownState (ValueError_UnknownStateFips "03")
  /\ ((PyStr.fullmatch_2digits (PyStr.strip " 03 ") = true
       /\ ValueError_UnknownStateFips "03"
          = ValueError_UnknownStateFips (PyStr.strip " 03 "))
      \/ (PyStr.fullmatch_2digits (PyStr.strip " 03 ") = false
          /\ ValueError_UnknownStateFips "03" = ValueError_StateToken " 03 ")).
Proof.
  apply (proj2 (normalize_state_rejections " 03 ")). reflexivity.
Defined.

(** X9: the resolvers agree.  The [join] endpoint's own test of the
    scope tokens changes nothing: it resolves every token as [norm_state]
    does.  And on a token that, stripped, is no scope token, the
    serving-layer resolver and the command-line resolver return the same
    pair, or both raise. *)
Theorem resolvers_agree (token : string) :
  Boundary.join_state token = States.norm_state token
  /\ (~ In (PyStr.strip token) States.SCOPE_TOKENS ->
      forall p, States.norm_state token = inr p
                <-> States.normalize_state token = inr p).
Proof.
  split.
  - unfold Boundary.join_state.
    destruct (States.mem token _) eqn:E; [|reflexivity].
    apply mem_In in E. simpl in E. each_token E; reflexivity.
  - intros Hns p. unfold States.norm_state, States.normalize_state.
    rewrite api_table_same, fullmatch_len_isdigit.
    set (t := PyStr.strip token) in *.
    assert (Hus : String.eqb t "US" = false).
    { apply String.eqb_neq. intros E. apply Hns. rewrite E. now left. }
    assert (Hreg : States.mem t States.REGION_TOKENS = false).
    { destruct (States.mem t States.REGION_TOKENS) eqn:E; [|reflexivity].
      exfalso. apply Hns. right. now apply mem_In. }
    rewrite Hus, Hreg.
    destruct (String.eqb_spec t EmptyString) as [E|_].
    + rewrite E. simpl. split; discriminate.
    + destruct (_ && _)%bool.
      * destruct (States.first_key_of _ _); [|split; discriminate].
        destruct (States.truthy _); [reflexivity|split; discriminate].
      * destruct (States.dict_get _ _); [reflexivity|split; discriminate].
Qed.

Lemma resolvers_agree_witness :
  States.norm_state " pr " = inr ("PR", "72")
  <-> States.normalize_state " pr " = inr ("PR", "72").
Proof.
  apply (proj2 (resolvers_agree " pr ")).
  vm_compute. intros H. each_token H; discriminate.
Defined.

(** X10: a resolved identity resolves to itself.  Whatever token gave the
    pair, resolving its abbreviation or its code again gives the same
    pair, in both resolvers (for a scope the two fields are the token). *)
Theorem resolved_identity_is_stable (token abbr fips : string) :
  (States.normalize_state token = inr (abbr, fips) ->
   States.normalize_state abbr = inr (abbr, fips)
   /\ States.normalize_state fips = inr (abbr, fips))
  /\ (States.norm_state token = inr (abbr, fips) ->
      States.norm_state abbr = inr (abbr, fips)
      /\ States.norm_state fips = inr (abbr, fips)).
Proof.
  split.
  - intros H. apply normalize_state_In in H.
    destruct (table_entry_resolves _ _ H) as (H1 & H2 & _). now split.
  - intros H. destruct (norm_state_In _ _ _ H) as [Hin|(<- & Hs & _)].
    + destruct (table_entry_resolves _ _ Hin) as (_ & _ & H1 & H2). now split.
    + simpl in Hs. each_token Hs; split; reflexivity.
Qed.

Lemma resolved_identity_is_stable_witness :
  States.normalize_state "FL" = inr ("FL", "12")
  /\ States.normalize_state "12" = inr ("FL", "12").
Proof.
  apply (proj1 (resolved_identity_is_stable " fl " "FL" "12")). reflexivity.
Defined.

(** ** Key normalizer: column choice, idempotence, matching *)

Lemma find_app_first {A : Type} (f : A -> bool) (pre post : list A) (x : A) :
  Forall (fun y => f y = false) pre -> f x = true ->
  List.find f (pre ++ x :: post) = Some x.
Proof.
  induction 1 as [|y pre Hy _ IH]; simpl; intros Hx.
  - now rewrite Hx.
  - rewrite Hy. now apply IH.
Qed.

Lemma find_all_false {A : Type} (f : A -> bool) (l : list A) :
  Forall (fun y => f y = false) l -> List.find f l = None.
Proof.
  induction 1 as [|y l Hy _ IH]; simpl; [reflexivity|]. now rewrite Hy.
Qed.

(** X11: which column the key is read from.  [normalize_csv_key] takes
    the first candidate that is a column of the table, the candidates
    being the provided column alone when one is given (the defaults of
    the level are then not tried) and the defaults otherwise; it sets
    [_J] from that column and leaves every other column as it was; when
    no candidate is a column it raises the missing-join-column error with
    the candidates it tried. *)
Theorem join_column_choice (float_str : float -> string) (level : string)
    (df : Frame.frame) (provided : option string) :
  (Forall (fun c => Frame.has_column df c = false)
     (KeySpec.candidates level provided) ->
   Keys.normalize_csv_key float_str level df provided
   = inl (HTTP400_NoJoinColumn (KeySpec.candidates level provided)))
  /\ (forall pre key post col,
        KeySpec.candidates level provided = (pre ++ key :: post)%list ->
        Forall (fun c => Frame.has_column df c = false) pre ->
        key <> EmptyString -> df !! key = Some col ->
        exists df',
          Keys.normalize_csv_key float_str level df provided = inr (df', "_J")
          /\ df' !! "_J"
             = Some (Frame.Object
                       (map (fun v => Some (Keys.normalize_key level v))
                            (Frame.astype_str float_str col)))
          /\ forall c, c <> "_J" -> df' !! c = df !! c).
Proof.
  split.
  - intros Hall. unfold Keys.normalize_csv_key, Keys.first_present.
    fold (KeySpec.candidates level provided).
    now rewrite (find_all_false _ _ Hall).
  - intros pre key post col Hc Hpre Hne Hcol.
    unfold Keys.normalize_csv_key, Keys.first_present.
    fold (KeySpec.candidates level provided). rewrite Hc.
    rewrite (find_app_first (Frame.has_column df) pre post key Hpre).
    + destruct key as [|a key]; [contradiction|]. rewrite Hcol.
      eexists. split; [reflexivity|]. unfold Frame.frame in *. split.
      * apply lookup_insert_eq.
      * intros c Hcne. now apply lookup_insert_ne.
    + unfold Frame.has_column. apply bool_decide_eq_true. eauto.
Qed.

(** A county table with both a GEOID and a FIPS column: GEOID, first in
    the defaults, is the key; asking for a column that is not there
    raises although the defaults are. *)
Lemma join_column_choice_witness :
  let df : Frame.frame :=
    <["FIPS" := Frame.Object [Some "1001"]]>
      (<["GEOID" := Frame.Object [Some "0500000US01001"]]> ∅) in
  (exists df',
     Keys.normalize_csv_key (fun _ => EmptyString) "county" df None = inr (df', "_J")
     /\ df' !! "_J"
        = Some (Frame.Object
                  (map (fun v => Some (Keys.normalize_key "county" v))
                       (Frame.astype_str (fun _ => EmptyString)
                          (Frame.Object [Some "0500000US01001"]))))
     /\ forall c, c <> "_J" -> df' !! c = df !! c)
  /\ Keys.normalize_csv_key (fun _ => EmptyString) "county" df (Some "CountyCode")
     = inl (HTTP400_NoJoinColumn ["CountyCode"]).
Proof.
  cbv zeta. split.
  - match goal with
    | |- exists df', Keys.normalize_csv_key ?fs ?lv ?df ?pr = _ /\ _ =>
        apply (proj2 (join_column_choice fs lv df pr) [] "GEOID"
                 ["FIPS"; "FIPS5"; "COUNTYFP"; "CountyFIPS"])
    end.
    + reflexivity.
    + constructor.
    + discriminate.
    + reflexivity.
  - match goal with
    | |- Keys.normalize_csv_key ?fs ?lv ?df ?pr = _ =>
        apply (proj1 (join_column_choice fs lv df pr))
    end.
    repeat constructor.
Defined.

Lemma take_drop_while (p : ascii -> bool) (l : list ascii) :
  l = (PyStr.take_while p l ++ PyStr.drop_while p l)%list
  /\ forallb p (PyStr.take_while p l) = true
  /\ match PyStr.drop_while p l with c :: _ => p c = false | [] => True end.
Proof.
  induction l as [|c l (IH1 & IH2 & IH3)]; simpl; [auto|].
  destruct (p c) eqn:E; simpl.
  - rewrite E. repeat split; [now f_equal|exact IH2|exact IH3].
  - repeat split. exact E.
Qed.

(** A text has no digit, or splits at its first run of digits. *)
Lemma digit_run_split (l : list ascii) :
  forallb (fun c => negb (PyStr.is_digit c)) l = true
  \/ exists pre d rest,
       l = (pre ++ d ++ rest)%list
       /\ forallb (fun c => negb (PyStr.is_digit c)) pre = true
       /\ forallb PyStr.is_digit d = true /\ d <> []
       /\ match rest with c :: _ => PyStr.is_digit c = false | [] => True end.
Proof.
  induction l as [|c l IH]; [now left|].
  destruct (PyStr.is_digit c) eqn:E.
  - right. destruct (take_drop_while PyStr.is_digit l) as (H1 & H2 & H3).
    exists [], (c :: PyStr.take_while PyStr.is_digit l),
      (PyStr.drop_while PyStr.is_digit l).
    simpl. rewrite E, H2. repeat split; [now f_equal|discriminate|exact H3].
  - destruct IH as [IH|(pre & d & rest & -> & H1 & H2 & H3 & H4)].
    + left. simpl. now rewrite E.
    + right. exists (c :: pre), d, rest. simpl. rewrite E.
      repeat split; assumption.
Qed.

Lemma string_digit_run_split (s : string) :
  Keys.no_digit s
  \/ exists pre d rest,
       s = pre ++ d ++ rest /\ Keys.no_digit pre /\ Keys.all_digits d
       /\ d <> EmptyString /\ Keys.no_digit_ahead rest.
Proof.
  destruct (digit_run_split (PyStr.chars s))
    as [H|(pre & d & rest & Hs & H1 & H2 & H3 & H4)]; [now left|].
  right. exists (PyStr.text pre), (PyStr.text d), (PyStr.text rest).
  unfold Keys.no_digit, Keys.all_digits. rewrite !chars_text.
  split; [|split; [exact H1|split; [exact H2|split]]].
  - rewrite <- !text_app, <- Hs. symmetry. apply text_chars.
  - intros E. apply H3. apply (f_equal PyStr.chars) in E.
    now rewrite chars_text in E.
  - destruct rest as [|c rest]; simpl; auto.
Qed.

Lemma zeros_all_digits (n : nat) : Keys.all_digits (PyStr.zeros n).
Proof.
  unfold Keys.all_digits, PyStr.zeros. rewrite chars_text.
  induction n as [|n IH]; simpl; [reflexivity|exact IH].
Qed.

Lemma all_digits_app (a b : string) :
  Keys.all_digits a -> Keys.all_digits b -> Keys.all_digits (a ++ b).
Proof.
  unfold Keys.all_digits. intros Ha Hb. rewrite chars_app, forallb_app.
  now rewrite Ha, Hb.
Qed.

Lemma len_app (a b : string) : PyStr.len (a ++ b) = PyStr.len a + PyStr.len b.
Proof. unfold PyStr.len. rewrite string_length_app. lia. Qed.

Lemma len_zeros (n : nat) : PyStr.len (PyStr.zeros n) = Z.of_nat n.
Proof. unfold PyStr.len. now rewrite zeros_length. Qed.

(** A text of digits that is at least as long as the width is its own
    key. *)
Lemma normalize_key_fixed (level : string) (w : Z) (g : string) :
  Keys.key_width level = Some w -> Keys.all_digits g -> g <> EmptyString ->
  w <= PyStr.len g -> Keys.normalize_key level g = g.
Proof.
  intros Hw Hg Hne Hlen.
  pose proof (normalize_key_digits level w EmptyString g EmptyString Hw
                eq_refl Hg Hne I) as H.
  rewrite append_empty in H. change (EmptyString ++ g) with g in H.
  rewrite H. now replace (Z.to_nat (w - PyStr.len g)) with 0%nat by lia.
Qed.

(** The key of any text has the shape of a key. *)
Lemma normalize_key_shape (level : string) (w : Z) (s : string) :
  Keys.key_width level = Some w ->
  KeySpec.key_shape w (Keys.normalize_key level s).
Proof.
  intros Hw.
  destruct (string_digit_run_split s)
    as [H|(pre & d & rest & -> & Hpre & Hd & Hne & Hrest)].
  - left. now apply (normalize_key_no_digit level w).
  - right. rewrite (normalize_key_digits level w pre d rest Hw Hpre Hd Hne Hrest).
    split; [apply all_digits_app; [apply zeros_all_digits|exact Hd]|].
    rewrite len_app, len_zeros. lia.
Qed.

(** X12: normalizing a key is idempotent.  At each of the seven levels
    the key of any text is empty or a text of digits at least as long as
    the width of the level, and the normalizer maps such a key to
    itself: a value that is already a key passes through unchanged, and a
    run of digits longer than the width is never cut. *)
Theorem normalize_key_idempotent (level : string) (s : string) :
  In level Keys.LEVELS ->
  exists w,
    Keys.key_width level = Some w
    /\ KeySpec.key_shape w (Keys.normalize_key level s)
    /\ Keys.normalize_key level (Keys.normalize_key level s)
       = Keys.normalize_key level s
    /\ (forall g, Keys.all_digits g -> g <> EmptyString -> w <= PyStr.len g ->
          Keys.normalize_key level g = g).
Proof.
  intros Hlevel. destruct (level_width _ Hlevel) as (w & Hw & _).
  exists w. split; [exact Hw|].
  pose proof (normalize_key_shape level w s Hw) as Hshape.
  split; [exact Hshape|]. split.
  - destruct Hshape as [E|[Hd Hlen]].
    + rewrite E. now apply (normalize_key_no_digit level w).
    + apply (normalize_key_fixed level w); [exact Hw|exact Hd| |exact Hlen].
      intros E. rewrite E in Hlen. unfold PyStr.len in Hlen. simpl in Hlen.
      simpl in Hlevel. each_token Hlevel; injection Hw as <-; lia.
  - intros g. now apply normalize_key_fixed.
Qed.

Lemma normalize_key_idempotent_witness :
  Keys.normalize_key "tract" (Keys.normalize_key "tract" "1400000US12086000100")
  = Keys.normalize_key "tract" "1400000US12086000100"
  /\ Keys.normalize_key "county" "12086000100" = "12086000100".
Proof.
  split.
  - destruct (normalize_key_idempotent "tract" "1400000US12086000100")
      as (w & _ & _ & H & _); [simpl; auto 10|exact H].
  - destruct (normalize_key_idempotent "county" EmptyString)
      as (w & Hw & _ & _ & H); [simpl; auto 10|].
    injection Hw as <-. apply H; [reflexivity|discriminate|].
    vm_compute. discriminate.
Defined.

(** X13: an identifier that lost its leading zeros still joins.  When
    the geometry identifier is [k] zeros followed by the digits [d] and
    has the width of the level, the key of the CSV value [d] is the
    geometry key, so in the merge the CSV row with that value is matched
    to the geometry row. *)
Theorem lost_leading_zeros_still_join (level : string) (w : Z) (k : nat)
    (d : string) :
  Keys.key_width level = Some w ->
  Keys.all_digits d -> d <> EmptyString ->
  PyStr.len (PyStr.zeros k ++ d) = w ->
  Keys.normalize_key level d = Keys.geometry_key level (PyStr.zeros k ++ d)
  /\ forall (L R : Type) (lkey : L -> string) (rkey : R -> string)
            (left : list L) (right : list R) (l : L) (r : R),
       In l left -> In r right ->
       lkey l = Keys.geometry_key level (PyStr.zeros k ++ d) ->
       rkey r = Keys.normalize_key level d ->
       In (l, Some r) (Join.merge lkey rkey left right).
Proof.
  intros Hw Hd Hne Hlen.
  assert (Hkey : Keys.normalize_key level d
                 = Keys.geometry_key level (PyStr.zeros k ++ d)).
  { pose proof (normalize_key_digits level w EmptyString d EmptyString Hw
                  eq_refl Hd Hne I) as H.
    rewrite append_empty in H. change (EmptyString ++ d) with d in H.
    rewrite H. rewrite len_app, len_zeros in Hlen.
    replace (Z.to_nat (w - PyStr.len d)) with k by lia.
    unfold Keys.geometry_key.
    destruct (String.eqb_spec level "zcta") as [->|_]; [|reflexivity].
    injection Hw as <-.
    rewrite zfill_digits
      by (apply all_digits_app; [apply zeros_all_digits|exact Hd]).
    rewrite len_app, len_zeros.
    now replace (Z.to_nat (5 - (Z.of_nat k + PyStr.len d))) with 0%nat by lia. }
  split; [exact Hkey|].
  intros L R lkey rkey left right l r Hl Hr Hlk Hrk.
  apply merge_In_Some. repeat split; [exact Hl|exact Hr|congruence].
Qed.

(** Autauga County, 01001, and a CSV that holds it as the number 1001. *)
Lemma lost_leading_zeros_still_join_witness :
  In (("01001", "Autauga"), Some ("01001", 21397%Z))
     (Join.merge (K:=string) fst fst
        [("01001", "Autauga"); ("01003", "Baldwin")]
        [(Keys.normalize_key "county" "1001", 21397%Z)]).
Proof.
  apply (proj2 (lost_leading_zeros_still_join "county" 5 1 "1001" eq_refl
                  eq_refl ltac:(discriminate) eq_refl)
           (string * string)%type (string * Z)%type fst fst).
  - now left.
  - now left.
  - reflexivity.
  - reflexivity.
Defined.

(** ** Derived rates: running the step again *)

(** X14: computing the rates twice is computing them once.  When
    [compute_rates] returns a table, running it on that table returns the
    same table; it only ever sets the three rate columns, every other
    column of its result being the column it was given; and when the
    three source columns are there the result has the three rate columns
    beside them. *)
Theorem compute_rates_idempotent (parse_float : string -> option float)
    (df df' : Frame.frame) :
  Rates.compute_rates parse_float df = inr df' ->
  Rates.compute_rates parse_float df' = inr df'
  /\ (forall c, ~ In c Rates.RATE_COLUMNS -> df' !! c = df !! c)
  /\ (Frame.has_columns df Rates.NEEDED = true ->
      Frame.has_columns df' (Rates.NEEDED ++ Rates.RATE_COLUMNS) = true).
Proof.
  intros H. destruct (Frame.has_columns df Rates.NEEDED) eqn:Hall.
  - pose proof H as H0. unfold Rates.compute_rates in H. rewrite Hall in H.
    destruct (Rates.column_as_float parse_float df "Households") as [e|hh] eqn:Hh;
      [discriminate|].
    destruct (Rates.column_as_float parse_float df "Poverty Households")
      as [e|pov] eqn:Hp; [discriminate|].
    destruct (Rates.column_as_float parse_float df "ALICE Households")
      as [e|alice] eqn:Ha; [discriminate|].
    clear H. rewrite (compute_rates_present _ _ _ _ _ Hh Hp Ha) in H0.
    injection H0 as <-.
    set (b := Frame.Float64 (zip_with Rates.rate (zip_with PrimFloat.add pov alice) hh)).
    set (p := Frame.Float64 (zip_with Rates.rate pov hh)).
    set (a := Frame.Float64 (zip_with Rates.rate alice hh)).
    split; [|split].
    + rewrite (compute_rates_present parse_float _ hh pov alice).
      * f_equal. fold b p a. unfold Frame.frame in *. apply map_eq. intros i.
        rewrite !lookup_insert. repeat case_decide; reflexivity.
      * now rewrite !column_as_float_insert by discriminate.
      * now rewrite !column_as_float_insert by discriminate.
      * now rewrite !column_as_float_insert by discriminate.
    + intros c Hc. unfold Frame.frame in *. rewrite !lookup_insert.
      repeat case_decide; try reflexivity; subst c; exfalso; apply Hc;
        simpl; auto.
    + intros _.
      assert (Hn : forall c, In c Rates.NEEDED -> is_Some (df !! c))
        by (now apply has_columns_true).
      apply has_columns_true. intros c Hc. simpl in Hc. unfold Frame.frame in *.
      each_token Hc; rewrite !lookup_insert; repeat case_decide;
        try (eexists; reflexivity); apply Hn; simpl; auto.
  - unfold Rates.compute_rates in H. rewrite Hall in H. injection H as <-.
    split; [|split].
    + unfold Rates.compute_rates. now rewrite Hall.
    + reflexivity.
    + discriminate.
Qed.

Lemma compute_rates_idempotent_witness :
  let df : Frame.frame :=
    <["Households" := Frame.Int64 [100; 0]]>
      (<["Poverty Households" := Frame.Int64 [10; 5]]>
         (<["ALICE Households" := Frame.Int64 [20; 7]]>
            (<["NAME" := Frame.Object [Some "Alachua"; Some "Baker"]]> ∅))) in
  let after :=
    match Rates.compute_rates (fun _ => None) df with
    | inr df' => df'
    | inl _ => df
    end in
  Rates.compute_rates (fun _ => None) after = inr after
  /\ after !! "NAME" = Some (Frame.Object [Some "Alachua"; Some "Baker"])
  /\ after !! "Poverty_Rate"
     = Some (Frame.Float64 [0x1.999999999999ap-4%float; Frame.nan]).
Proof.
  cbv zeta. split; [|split; reflexivity].
  match goal with
  | |- Rates.compute_rates ?pf ?t1 = _ =>
      match t1 with
      | context [Rates.compute_rates pf ?df] =>
          apply (proj1 (compute_rates_idempotent pf df t1 eq_refl))
      end
  end.
Defined.

(** ** Best-effort steps: what they can change *)

Lemma select_rows_sublist {Row : Type} (l : list Row) (mask : list bool) :
  map fst (List.filter snd (zip l mask)) `sublist_of` l.
Proof.
  revert mask. induction l as [|x l IH]; intros [|b mask]; simpl.
  - constructor.
  - constructor.
  - apply sublist_nil_l.
  - destruct b; simpl.
    + apply sublist_skip. apply IH.
    + apply sublist_cons. apply IH.
Qed.

Lemma traverse_length {A B : Type} (f : A -> result B) (l : list A) (bs : list B) :
  Post.traverse f l = inr bs -> length bs = length l.
Proof.
  revert bs. induction l as [|a l IH]; simpl; intros bs.
  - now intros [= <-].
  - destruct (f a) as [e|b]; [discriminate|]. simpl.
    destruct (Post.traverse f l) as [e|bs']; [discriminate|]. simpl.
    intros [= <-]. simpl. f_equal. now apply IH.
Qed.

Section BestEffortShape.

Variable geometry : Type.
Variable Row : Type.
Variable geometry_of : Row -> geometry.
Variable with_geometry : Row -> geometry -> Row.
Variable read_states : string -> result (list (string * geometry)).
Variable centroid_within : geometry -> geometry -> result bool.
Variable simplify : float -> geometry -> result geometry.
Variable network : nat -> Net.method -> string -> result Net.response.
Variable mkstemp : Net.world -> string.
Variable replace_ok : string -> string -> bool.

Lemma filter_statements_sublist (state_abbr : string) (merged : Post.table Row)
    (zpath : string) :
  Post.rows (Post.filter_statements geometry Row geometry_of read_states
               centroid_within state_abbr merged zpath).1
    `sublist_of` Post.rows merged
  /\ Post.columns (Post.filter_statements geometry Row geometry_of read_states
                     centroid_within state_abbr merged zpath).1
     = Post.columns merged.
Proof.
  unfold Post.filter_statements.
  destruct (read_states _) as [e1|states]; [now split|].
  destruct (Post.state_polygon _ _ _) as [e2|poly]; [now split|].
  destruct (Post.set_geometry Row "geometry" merged) as [e3|merged1] eqn:E;
    [now split|].
  apply set_geometry_rows in E as [Hr Hc].
  destruct (bind _ _) as [e4|mask]; simpl.
  - rewrite Hr, Hc. now split.
  - rewrite Hc, <- Hr. split; [apply select_rows_sublist|reflexivity].
Qed.

(** X15: the containment filter of [prepare_zcta] can only remove rows.
    Whatever happens in it, what [prepare_zcta] returns has the columns of
    the merge and its rows are rows of the merge, in the order of the
    merge: no row is added, changed or moved. *)
Theorem containment_filter_only_removes_rows (cfg : Net.config)
    (state_abbr : string) (merged : Post.table Row) (w : Net.world) :
  Post.rows
    (Post.prepare_zcta_filter geometry Row geometry_of read_states
       centroid_within network mkstemp replace_ok cfg state_abbr merged w).2
    `sublist_of` Post.rows merged
  /\ Post.columns
       (Post.prepare_zcta_filter geometry Row geometry_of read_states
          centroid_within network mkstemp replace_ok cfg state_abbr merged w).2
     = Post.columns merged.
Proof.
  unfold Post.prepare_zcta_filter, Post.filter_body.
  destruct (Net.download_to_temp _ _ _ _ _ _) as [w1 [e|zpath]]; simpl.
  - now split.
  - pose proof (filter_statements_sublist state_abbr merged zpath) as H.
    destruct (Post.filter_statements _ _ _ _ _ _ _ _) as [out o]. exact H.
Qed.

(** X16: the simplify step keeps the table's shape.  In the command-line
    tool and in the serving layer it returns a table with as many rows as
    it was given and the same active geometry column, and with no
    tolerance, or a tolerance of zero, it returns the table itself. *)
Theorem simplify_keeps_the_rows (simp : option float) (gdf : Post.table Row) :
  length (Post.rows (Post.main_simplify geometry Row geometry_of with_geometry
                       simplify simp gdf)) = length (Post.rows gdf)
  /\ length (Post.rows (Post.join_simplify geometry Row geometry_of
                          with_geometry simplify simp gdf))
     = length (Post.rows gdf)
  /\ Post.active_geometry
       (Post.main_simplify geometry Row geometry_of with_geometry simplify
          simp gdf) = Post.active_geometry gdf
  /\ Post.active_geometry
       (Post.join_simplify geometry Row geometry_of with_geometry simplify
          simp gdf) = Post.active_geometry gdf
  /\ (Post.float_truthy simp = false ->
      Post.main_simplify geometry Row geometry_of with_geometry simplify simp gdf
      = gdf
      /\ Post.join_simplify geometry Row geometry_of with_geometry simplify
           simp gdf = gdf).
Proof.
  assert (Hstep : forall tol gdf',
    Post.simplify_statement geometry Row geometry_of with_geometry simplify
      tol gdf = inr gdf' ->
    length (Post.rows gdf') = length (Post.rows gdf)
    /\ Post.active_geometry gdf' = Post.active_geometry gdf).
  { intros tol gdf'. unfold Post.simplify_statement, Post.geometry_column.
    destruct (Post.active_geometry gdf) eqn:Hact; [|discriminate]. simpl.
    destruct (Post.traverse (simplify tol) _) as [e|gs] eqn:E; [discriminate|].
    simpl. intros [= <-]. simpl. apply traverse_length in E.
    rewrite length_map in E. rewrite length_zip_with. split; [lia|reflexivity]. }
  assert (Hmain : forall t,
    Post.main_simplify geometry Row geometry_of with_geometry simplify simp gdf = t ->
    length (Post.rows t) = length (Post.rows gdf)
    /\ Post.active_geometry t = Post.active_geometry gdf).
  { intros t <-. unfold Post.main_simplify. destruct simp as [tol|]; [|now split].
    destruct (_ && _)%bool; [|now split].
    destruct (Post.simplify_statement _ _ _ _ _ tol gdf) eqn:E;
      [now split|now apply (Hstep tol)]. }
  assert (Hjoin : forall t,
    Post.join_simplify geometry Row geometry_of with_geometry simplify simp gdf = t ->
    length (Post.rows t) = length (Post.rows gdf)
    /\ Post.active_geometry t = Post.active_geometry gdf).
  { intros t <-. unfold Post.join_simplify. destruct simp as [tol|]; [|now split].
    destruct (_ && _)%bool; [|now split].
    destruct (Post.simplify_statement _ _ _ _ _ tol gdf) eqn:E;
      [now split|now apply (Hstep tol)]. }
  destruct (Hmain _ eq_refl) as [Hm1 Hm2]. destruct (Hjoin _ eq_refl) as [Hj1 Hj2].
  repeat (split; [assumption|]).
  unfold Post.main_simplify, Post.join_simplify.
  destruct simp as [tol|]; [|now split]. intros ->. simpl. now split.
Qed.

End BestEffortShape.

(** ** Serving layer: what a scope selects *)

(** The codes below 60 are those of the members of the regions. *)
Lemma table_entry_region (abbr fips : string) :
  In (abbr, fips) States.STATE_ABBR_TO_FIPS ->
  exists code,
    Boundary.py_int fips = Some code
    /\ (code <? 60) = BoundarySpec.in_some_region abbr
    /\ Boundary.region_members abbr = None
    /\ String.eqb abbr "US" = false.
Proof.
  intros H. simpl in H.
  each_entry H; eexists; repeat split; reflexivity.
Qed.

Lemma region_token_members (name : string) :
  In name States.REGION_TOKENS ->
  exists members,
    Boundary.region_members name = Some members
    /\ In (name, members) Boundary.REGIONS
    /\ String.eqb name "US" = false.
Proof.
  intros H. simpl in H.
  each_token H; eexists; (split; [reflexivity|]); split; simpl; auto 6.
Qed.

Lemma regions_In (name : string) (members : list string) :
  In (name, members) Boundary.REGIONS ->
  In name States.REGION_TOKENS /\ Boundary.region_members name = Some members.
Proof.
  intros H. simpl in H. each_entry H; split; try reflexivity; simpl; auto 6.
Qed.

(** A state of the table is in one region at most. *)
Lemma one_region_per_state (abbr fips name1 name2 : string)
    (members1 members2 : list string) :
  In (abbr, fips) States.STATE_ABBR_TO_FIPS ->
  In (name1, members1) Boundary.REGIONS -> In (name2, members2) Boundary.REGIONS ->
  States.mem abbr members1 = true -> States.mem abbr members2 = true ->
  name1 = name2.
Proof.
  intros H H1 H2. simpl in H1, H2.
  each_entry H1; each_entry H2; try reflexivity;
    simpl in H; each_entry H; discriminate.
Qed.

Lemma filter_by_mask {A : Type} (f : A -> bool) (l : list A) :
  map fst (List.filter snd (zip l (map f l))) = List.filter f l.
Proof.
  induction l as [|x l IH]; simpl; [reflexivity|].
  destruct (f x); simpl; now rewrite IH.
Qed.

Lemma in_some_region_spec (abbr : string) :
  BoundarySpec.in_some_region abbr = true
  <-> exists name members,
        In (name, members) Boundary.REGIONS /\ States.mem abbr members = true.
Proof.
  unfold BoundarySpec.in_some_region. rewrite existsb_exists. split.
  - intros ([name members] & Hin & Hm). now exists name, members.
  - intros (name & members & Hin & Hm). now exists (name, members).
Qed.

Section SelectionFacts.

Variable Row : Type.
Variable stusps : Row -> string.
Variable statefp : Row -> string.

Lemma below_60_regions (gdf : list Row) :
  Forall (fun r => In (stusps r, statefp r) States.STATE_ABBR_TO_FIPS) gdf ->
  Boundary.below_60 Row statefp gdf
  = inr (map (fun r => BoundarySpec.in_some_region (stusps r)) gdf).
Proof.
  unfold Boundary.below_60. induction 1 as [|r gdf Hr _ IH]; simpl; [reflexivity|].
  destruct (table_entry_region _ _ Hr) as (code & Hint & Hlt & _).
  rewrite Hint. simpl. rewrite IH. simpl. now rewrite Hlt.
Qed.

(** X17: at the state level the US scope is the four regions together.
    On a national state table whose rows carry abbreviations and codes of
    the reference table, the US selection (codes below 60) keeps a row
    exactly when one of the four region selections keeps it, and no row
    is kept by two regions: the territories, and only they, are in no
    selection. *)
Theorem us_scope_is_the_four_regions (gdf : list Row) :
  Forall (fun r => In (stusps r, statefp r) States.STATE_ABBR_TO_FIPS) gdf ->
  exists us,
    Boundary.select_states Row stusps statefp "US" gdf = inr us
    /\ (forall r,
          In r us
          <-> exists name sel,
                In name States.REGION_TOKENS
                /\ Boundary.select_states Row stusps statefp name gdf = inr sel
                /\ In r sel)
    /\ (forall r name1 name2 sel1 sel2,
          In name1 States.REGION_TOKENS -> In name2 States.REGION_TOKENS ->
          Boundary.select_states Row stusps statefp name1 gdf = inr sel1 ->
          Boundary.select_states Row stusps statefp name2 gdf = inr sel2 ->
          In r sel1 -> In r sel2 -> name1 = name2).
Proof.
  intros Hgdf.
  assert (Hregion : forall name, In name States.REGION_TOKENS ->
            exists members,
              In (name, members) Boundary.REGIONS
              /\ Boundary.select_states Row stusps statefp name gdf
                 = inr (List.filter (fun r => States.mem (stusps r) members) gdf)).
  { intros name Hn. destruct (region_token_members name Hn) as (m & Hm & Hin & Hus).
    exists m. split; [exact Hin|]. unfold Boundary.select_states.
    now rewrite Hus, Hm. }
  exists (List.filter (fun r => BoundarySpec.in_some_region (stusps r)) gdf).
  split; [|split].
  - unfold Boundary.select_states. simpl.
    rewrite (below_60_regions gdf Hgdf). simpl. now rewrite filter_by_mask.
  - intros r. rewrite filter_In, in_some_region_spec. split.
    + intros (Hr & name & members & Hin & Hm).
      destruct (regions_In _ _ Hin) as [Hn _].
      destruct (Hregion name Hn) as (m' & Hin' & Hsel).
      exists name, (List.filter (fun r => States.mem (stusps r) m') gdf).
      split; [exact Hn|]. split; [exact Hsel|]. apply filter_In.
      split; [exact Hr|].
      destruct (regions_In _ _ Hin) as [_ E1]. destruct (regions_In _ _ Hin') as [_ E2].
      rewrite E1 in E2. now injection E2 as <-.
    + intros (name & sel & Hn & Hsel & Hr).
      destruct (Hregion name Hn) as (m & Hin & Hsel'). rewrite Hsel in Hsel'.
      injection Hsel' as ->. apply filter_In in Hr as [Hr Hm].
      split; [exact Hr|]. now exists name, m.
  - intros r name1 name2 sel1 sel2 Hn1 Hn2 Hs1 Hs2 Hr1 Hr2.
    destruct (Hregion name1 Hn1) as (m1 & Hin1 & E1). rewrite Hs1 in E1.
    destruct (Hregion name2 Hn2) as (m2 & Hin2 & E2). rewrite Hs2 in E2.
    injection E1 as ->. injection E2 as ->.
    apply filter_In in Hr1 as [Hr Hm1]. apply filter_In in Hr2 as [_ Hm2].
    rewrite Forall_forall in Hgdf. pose proof (Hgdf r) as Hrow.
    eapply (one_region_per_state (stusps r) (statefp r)); eauto.
    apply Hrow. now apply list_elem_of_In.
Qed.

Lemma In_omap {A B : Type} (f : A -> option B) (l : list A) (y : B) :
  In y (omap f l) <-> exists x, In x l /\ f x = Some y.
Proof.
  induction l as [|a l IH]; simpl.
  - split; [contradiction|now intros (x & [] & _)].
  - destruct (f a) as [b|] eqn:E; simpl; rewrite IH; split.
    + intros [<-|(x & Hx & Hf)]; [now exists a; auto|exists x; auto].
    + intros (x & [<-|Hx] & Hf); [left; congruence|right; now exists x].
    + intros (x & Hx & Hf). exists x; auto.
    + intros (x & [<-|Hx] & Hf); [congruence|now exists x].
Qed.

(** X18: what a resolved scope selects from the national county and
    place tables.  After [norm_state], US keeps every row; a region keeps
    exactly the rows whose STATEFP is the table's code of one of its
    members; a state keeps exactly the rows whose STATEFP is its code. *)
Theorem statefp_selection_by_scope (token abbr fips : string) (gdf : list Row)
    (r : Row) :
  States.norm_state token = inr (abbr, fips) ->
  In r (Boundary.select_by_statefp Row statefp abbr fips gdf)
  <-> In r gdf
      /\ (abbr = "US"
          \/ (exists members st,
                In (abbr, members) Boundary.REGIONS /\ In st members
                /\ In (st, statefp r) States.STATE_ABBR_TO_FIPS)
          \/ (In (abbr, fips) States.STATE_ABBR_TO_FIPS /\ statefp r = fips)).
Proof.
  intros Hnorm. apply norm_state_In in Hnorm as [Hin|(<- & Hscope & _)].
  - (* a state of the table *)
    destruct (table_entry_region _ _ Hin) as (_ & _ & _ & Hnone & Hus).
    unfold Boundary.select_by_statefp. rewrite Hus, Hnone, filter_In.
    split.
    + intros [Hr E]. apply String.eqb_eq in E. auto.
    + intros [Hr [->|[(members & st & Hreg & _)|[_ ->]]]].
      * discriminate Hus.
      * apply regions_In in Hreg as [_ Hreg]. congruence.
      * split; [exact Hr|apply String.eqb_refl].
  - destruct (scope_not_key _ Hscope) as [Hkey _].
    simpl in Hscope. destruct Hscope as [<-|Hreg].
    + (* the whole country *)
      unfold Boundary.select_by_statefp. simpl. split; [auto|now intros [Hr _]].
    + (* a region *)
      destruct (region_token_members abbr Hreg) as (m & Hm & HinR & Hus).
      unfold Boundary.select_by_statefp. rewrite Hus, Hm, filter_In.
      unfold Boundary.region_fips. rewrite api_table_same, mem_In, In_omap.
      split.
      * intros [Hr (st & Hst & Hget)]. split; [exact Hr|]. right; left.
        exists m, st. repeat split; auto. now apply dict_get_In.
      * intros [Hr [->|[(m' & st & Hreg' & Hst & Hcode)|[Hin _]]]].
        -- discriminate Hus.
        -- split; [exact Hr|]. exists st.
           apply regions_In in Hreg' as [_ Hreg']. rewrite Hm in Hreg'.
           injection Hreg' as ->. split; [exact Hst|].
           now destruct (key_not_scope _ _ Hcode) as (_ & _ & Hget & _).
        -- exfalso. now apply (dict_get_None _ _ Hkey abbr).
Qed.

End SelectionFacts.

Lemma us_scope_is_the_four_regions_witness :
  let gdf := [("FL", "12"); ("PR", "72"); ("NY", "36")] in
  Forall (fun r : string * string => In (r.1, r.2) States.STATE_ABBR_TO_FIPS) gdf
  /\ exists us,
       Boundary.select_states (string * string) fst snd "US" gdf = inr us
       /\ (forall r,
             In r us
             <-> exists name sel,
                   In name States.REGION_TOKENS
                   /\ Boundary.select_states (string * string) fst snd name gdf
                      = inr sel
                   /\ In r sel)
       /\ (forall r name1 name2 sel1 sel2,
             In name1 States.REGION_TOKENS -> In name2 States.REGION_TOKENS ->
             Boundary.select_states (string * string) fst snd name1 gdf = inr sel1 ->
             Boundary.select_states (string * string) fst snd name2 gdf = inr sel2 ->
             In r sel1 -> In r sel2 -> name1 = name2).
Proof.
  assert (H : Forall (fun r : string * string =>
                        In (r.1, r.2) States.STATE_ABBR_TO_FIPS)
                [("FL", "12"); ("PR", "72"); ("NY", "36")])
    by (repeat (apply List.Forall_cons; [apply dict_get_In; reflexivity|]);
        apply List.Forall_nil).
  split; [exact H|].
  exact (us_scope_is_the_four_regions (string * string) fst snd _ H).
Defined.

Lemma statefp_selection_by_scope_witness :
  States.norm_state " SOUTH " = inr ("SOUTH", "SOUTH")
  /\ (In "12" (Boundary.select_by_statefp string (fun r => r) "SOUTH" "SOUTH"
                 ["09"; "12"; "72"])
      <-> In "12" ["09"; "12"; "72"]
          /\ ("SOUTH" = "US"
              \/ (exists members st,
                    In ("SOUTH", members) Boundary.REGIONS /\ In st members
                    /\ In (st, "12") States.STATE_ABBR_TO_FIPS)
              \/ (In ("SOUTH", "SOUTH") States.STATE_ABBR_TO_FIPS /\ "12" = "SOUTH"))).
Proof.
  split; [reflexivity|].
  apply (statefp_selection_by_scope string (fun r => r) " SOUTH " "SOUTH" "SOUTH").
  reflexivity.
Defined.

(** ** Prefetcher: targets and passes *)

Lemma keys_with_code_In (t k : string) :
  In k (Prefetch.keys_with_code t) <-> In (k, t) States.STATE_ABBR_TO_FIPS.
Proof.
  unfold Prefetch.keys_with_code. rewrite in_map_iff. split.
  - intros ([k' v] & <- & H). apply filter_In in H as [H E].
    simpl in E. apply String.eqb_eq in E. now subst.
  - intros H. exists (k, t). split; [reflexivity|].
    apply filter_In. split; [exact H|apply String.eqb_refl].
Qed.

Lemma is_Some_decide {A : Type} (o : option A) :
  bool_decide (is_Some o) = match o with Some _ => true | None => false end.
Proof.
  destruct o.
  - apply bool_decide_eq_true_2. now eexists.
  - apply bool_decide_eq_false_2. intros [x Hx]. discriminate Hx.
Qed.

Lemma digits_not_key (t : string) :
  PyStr.isdigit t = true -> States.dict_get States.STATE_ABBR_TO_FIPS t = None.
Proof.
  intros Hd. destruct (States.dict_get _ t) as [v|] eqn:E; [|reflexivity].
  apply dict_get_In in E. destruct (key_not_scope _ _ E) as (_ & Hnd & _).
  congruence.
Qed.

(** X19: the targets of the prefetcher, token by token.  A two-letter
    token that uppercases to an abbreviation of the table gives that
    abbreviation, and the files are fetched for its code; a token of two
    digits is always accepted, also when no state has that code: the
    files are then fetched for the token itself; every other token ends
    the program. *)
Theorem prefetch_token_resolution (t : string) :
  (forall fips,
      PyStr.len t = 2 -> In (PyStr.upper t, fips) States.STATE_ABBR_TO_FIPS ->
      Prefetch.state_token t = inr (PyStr.upper t)
      /\ Prefetch.fips_of (PyStr.upper t) = fips)
  /\ (PyStr.len t = 2 -> PyStr.isdigit t = true ->
      exists st,
        Prefetch.state_token t = inr st
        /\ Prefetch.fips_of st = t
        /\ (In (st, t) States.STATE_ABBR_TO_FIPS
            \/ (st = t /\ forall k, ~ In (k, t) States.STATE_ABBR_TO_FIPS)))
  /\ (PyStr.len t <> 2
      \/ (PyStr.isdigit t = false
          /\ States.dict_get States.STATE_ABBR_TO_FIPS (PyStr.upper t) = None) ->
      Prefetch.state_token t
      = inl (Prefetch.SystemExit ("Unrecognized state token: " ++ t))).
Proof.
  unfold Prefetch.state_token, Prefetch.fips_of. rewrite is_Some_decide.
  split; [|split].
  - intros fips Hlen Hin.
    destruct (key_not_scope _ _ Hin) as (_ & _ & Hget & _).
    rewrite Hlen, Hget. simpl. now split.
  - intros Hlen Hd.
    rewrite (upper_digits t Hd), (digits_not_key t Hd), Hlen, Hd.
    change (2 =? 2) with true. cbn [andb].
    destruct (Prefetch.keys_with_code t) as [|k rest] eqn:E.
    + exists t. split; [reflexivity|].
      rewrite (digits_not_key t Hd). split; [reflexivity|]. right.
      split; [reflexivity|]. intros k Hk.
      apply (proj2 (keys_with_code_In t k)) in Hk.
      rewrite E in Hk. contradiction.
    + assert (Hk : In (k, t) States.STATE_ABBR_TO_FIPS)
        by (apply (proj1 (keys_with_code_In t k)); rewrite E; now left).
      exists k. split; [reflexivity|].
      destruct (key_not_scope _ _ Hk) as (_ & _ & Hget & _).
      rewrite Hget. split; [reflexivity|now left].
  - intros [Hlen|[Hd Hnone]].
    + apply Z.eqb_neq in Hlen. now rewrite Hlen.
    + now rewrite Hnone, Hd, !andb_false_r.
Qed.

Lemma table_code_two_digits (abbr fips : string) :
  In (abbr, fips) States.STATE_ABBR_TO_FIPS ->
  PyStr.len fips = 2 /\ PyStr.isdigit fips = true.
Proof. intros H. simpl in H. each_entry H; split; reflexivity. Qed.

Lemma state_token_code (t st : string) :
  Prefetch.state_token t = inr st ->
  PyStr.len (Prefetch.fips_of st) = 2 /\ PyStr.isdigit (Prefetch.fips_of st) = true.
Proof.
  unfold Prefetch.state_token. rewrite is_Some_decide.
  destruct (Z.eqb_spec (PyStr.len t) 2) as [Hlen|_]; [|discriminate].
  cbn [andb].
  destruct (States.dict_get _ (PyStr.upper t)) as [f|] eqn:Hget.
  - intros [= <-]. unfold Prefetch.fips_of. rewrite Hget. simpl.
    apply dict_get_In in Hget. exact (table_code_two_digits _ _ Hget).
  - destruct (PyStr.isdigit t) eqn:Hd; [|discriminate].
    destruct (Prefetch.keys_with_code t) as [|k rest] eqn:E; intros [= <-].
    + unfold Prefetch.fips_of. rewrite (digits_not_key t Hd). simpl. now split.
    + assert (Hk : In (k, t) States.STATE_ABBR_TO_FIPS)
        by (apply (proj1 (keys_with_code_In t k)); rewrite E; now left).
      destruct (key_not_scope _ _ Hk) as (_ & _ & Hk' & _).
      unfold Prefetch.fips_of. rewrite Hk'. simpl. now split.
Qed.

(** X22: whatever the [--states] option, every target the prefetcher
    starts with has a two-digit code, so each per-state URL it builds
    has two digits in the place of the state code; without the option,
    or with an empty one, the targets are the 57 abbreviations of the
    table. *)
Theorem prefetch_targets_have_two_digit_codes (states : option string)
    (stusps : list string) :
  Prefetch.targets states = inr stusps ->
  Forall (fun st => PyStr.len (Prefetch.fips_of st) = 2
                    /\ PyStr.isdigit (Prefetch.fips_of st) = true) stusps
  /\ (States.truthy states = false ->
      stusps = map fst States.STATE_ABBR_TO_FIPS /\ length stusps = 57%nat).
Proof.
  assert (Hall : Forall (fun st => PyStr.len (Prefetch.fips_of st) = 2
                    /\ PyStr.isdigit (Prefetch.fips_of st) = true)
                   (map fst States.STATE_ABBR_TO_FIPS)).
  { apply Forall_forall. intros st Hst. apply list_elem_of_In in Hst.
    apply in_map_iff in Hst as ([a f] & <- & Hin). simpl.
    destruct (key_not_scope _ _ Hin) as (_ & _ & Hget & _).
    unfold Prefetch.fips_of. rewrite Hget. simpl.
    exact (table_code_two_digits _ _ Hin). }
  unfold Prefetch.targets. destruct states as [[|c s]|].
  - intros [= <-]. split; [exact Hall|]. now split.
  - intros Hrun. split; [|discriminate].
    revert stusps Hrun. generalize (Prefetch.tokens (String c s)).
    induction l as [|t ts IH]; intros stusps; cbn [Prefetch.state_tokens].
    + intros [= <-]. constructor.
    + destruct (Prefetch.state_token t) as [e|st] eqn:Ht; [discriminate|].
      destruct (Prefetch.state_tokens ts) as [e|sts]; [discriminate|].
      intros [= <-]. constructor; [exact (state_token_code _ _ Ht)|].
      now apply IH.
  - intros [= <-]. split; [exact Hall|]. now split.
Qed.

Lemma prefetch_targets_have_two_digit_codes_witness :
  Prefetch.targets (Some "FL, 12,,ga , 03,") = inr ["FL"; "FL"; "GA"; "03"]
  /\ Forall (fun st => PyStr.len (Prefetch.fips_of st) = 2
                       /\ PyStr.isdigit (Prefetch.fips_of st) = true)
        ["FL"; "FL"; "GA"; "03"]
  /\ (States.truthy (Some "FL, 12,,ga , 03,") = false ->
      ["FL"; "FL"; "GA"; "03"] = map fst States.STATE_ABBR_TO_FIPS
      /\ length ["FL"; "FL"; "GA"; "03"] = 57%nat).
Proof.
  split; [vm_compute; reflexivity|].
  apply (prefetch_targets_have_two_digit_codes (Some "FL, 12,,ga , 03,")).
  vm_compute. reflexivity.
Defined.

Section PrefetchPasses.

Variable network : nat -> Net.method -> string -> result Net.response.

Lemma prefetch_attempts_no_success (url out : string) (max_retries : Z)
    (retry_wait : float) (attempts : list Z) :
  FetchSpec.always_fails network ->
  forall w,
    Net.files (Net.prefetch_attempts network url out max_retries retry_wait
                 attempts w).1 = Net.files w.
Proof.
  intros Hfail. induction attempts as [|a rest IH]; intros w; [reflexivity|].
  cbn [Net.prefetch_attempts Net.request].
  pose proof (Hfail (Net.clock w) Net.GET url) as Hf.
  unfold Net.prefetch_attempt_failed in Hf.
  destruct (Net.prefetch_check_response _) as [e|resp]; [|discriminate].
  destruct (a =? max_retries); [reflexivity|].
  match goal with
  | |- context [Net.sleep ?x ?f ?w0] =>
      destruct (sleep_cases x f w0) as [[_ ->]|(e' & _ & ->)]
  end; [now rewrite IH|reflexivity].
Qed.

Lemma download_no_success (url dest : string) (max_retries : Z)
    (retry_wait : float) (w : Net.world) :
  FetchSpec.always_fails network ->
  Net.files (Net.download network url dest max_retries retry_wait w).1
  = Net.files w.
Proof.
  intros Hfail. unfold Net.download.
  destruct (Net.exists_ w _); [reflexivity|].
  pose proof (prefetch_attempts_no_success url
                (PyStr.path_join dest (PyStr.basename url)) max_retries
                retry_wait (Net.py_range 1 (max_retries + 1)) Hfail w) as H.
  now destruct (Net.prefetch_attempts _ _ _ _ _ _ _) as [w1 [u|e|]].
Qed.

Lemma download_all_no_success (dest : string) (max_retries : Z)
    (retry_wait : float) (pend : list (string * string * string)) :
  FetchSpec.always_fails network ->
  forall w,
    Net.files (Prefetch.download_all network dest max_retries retry_wait pend w)
    = Net.files w.
Proof.
  intros Hfail. induction pend as [|[[st fips] url] rest IH]; intros w;
    [reflexivity|].
  cbn [Prefetch.download_all].
  pose proof (download_no_success url dest max_retries retry_wait w Hfail) as H.
  destruct (Net.download _ _ _ _ _ _) as [w1 res]. rewrite IH. exact H.
Qed.

Lemma sleep_raises (wait : float) (factor : Z) (w : Net.world) (e : exn) :
  Net.sleep_error wait factor = Some e -> Net.sleep wait factor w = (w, inl e).
Proof.
  intros H. destruct (sleep_cases wait factor w) as [[E _]|(e' & E & ->)];
    congruence.
Qed.

Lemma pending_urls_files (dest : string) (no_cousub no_tracts : bool)
    (stusps : list string) (w w' : Net.world) :
  Net.files w' = Net.files w ->
  Prefetch.pending_urls dest no_cousub no_tracts stusps w'
  = Prefetch.pending_urls dest no_cousub no_tracts stusps w.
Proof.
  intros H. unfold Prefetch.pending_urls, Prefetch.pending_of, Net.exists_.
  now rewrite H.
Qed.

(** X20: a pass of the prefetcher in which every attempt fails writes no
    file, so the list of pending files is the same after it; with files
    pending, the until-complete loop then never ends by its [break]: when
    [retry_wait * 5] is a duration [time.sleep] accepts it is still
    running after any number of turns, and otherwise it stops at the end
    of its first turn on what [time.sleep] raised. *)
Theorem until_complete_needs_progress (dest : string)
    (no_cousub no_tracts : bool) (stusps : list string) (max_retries : Z)
    (retry_wait : float) (w : Net.world) (fuel : nat) :
  FetchSpec.always_fails network ->
  Prefetch.pending_urls dest no_cousub no_tracts stusps w <> [] ->
  let pend := Prefetch.pending_urls dest no_cousub no_tracts stusps w in
  let w1 := Prefetch.download_all network dest max_retries retry_wait pend w in
  Net.files w1 = Net.files w
  /\ Prefetch.pending_urls dest no_cousub no_tracts stusps w1 = pend
  /\ (Net.sleepable retry_wait 5 = true ->
      Prefetch.until_complete network fuel dest no_cousub no_tracts stusps
        max_retries retry_wait w = None)
  /\ (forall e,
        Net.sleep_error retry_wait 5 = Some e ->
        Prefetch.until_complete network (S fuel) dest no_cousub no_tracts stusps
          max_retries retry_wait w = Some (w1, inl e)).
Proof.
  intros Hfail Hpend pend w1.
  assert (Hfiles : Net.files w1 = Net.files w)
    by (apply download_all_no_success; exact Hfail).
  split; [exact Hfiles|]. split; [now apply pending_urls_files|]. split.
  - intros Hs. clear pend w1 Hfiles. revert w Hpend.
    induction fuel as [|fuel IH]; intros w Hpend; [reflexivity|].
    cbn [Prefetch.until_complete].
    destruct (Prefetch.pending_urls dest no_cousub no_tracts stusps w)
      as [|p rest] eqn:E; [contradiction|].
    rewrite sleep_ok by exact Hs. apply IH.
    rewrite (pending_urls_files _ _ _ _ w).
    + now rewrite E.
    + cbn [Net.files]. now apply download_all_no_success.
  - intros e He. cbn [Prefetch.until_complete]. unfold w1, pend.
    destruct (Prefetch.pending_urls dest no_cousub no_tracts stusps w)
      as [|p rest] eqn:E; [contradiction|].
    now rewrite (sleep_raises _ _ _ e He).
Qed.

Lemma download_success (url dest : string) (max_retries : Z)
    (retry_wait : float) (w : Net.world) :
  FetchSpec.never_fails network -> 1 <= max_retries ->
  let w1 := (Net.download network url dest max_retries retry_wait w).1 in
  Net.files w ⊆ Net.files w1 /\ Prefetch.cache_file dest url ∈ Net.files w1.
Proof.
  intros Hok Hn. unfold Net.download. fold (Prefetch.cache_file dest url).
  destruct (Net.exists_ w _) eqn:Hex.
  - simpl. split; [reflexivity|]. unfold Net.exists_ in Hex.
    now apply bool_decide_eq_true in Hex.
  - rewrite py_range_cons by lia. cbn [Net.prefetch_attempts Net.request].
    pose proof (Hok (Net.clock w) Net.GET url) as Hf.
    unfold Net.prefetch_attempt_failed in Hf.
    destruct (Net.prefetch_check_response _) as [e|resp]; [discriminate|].
    cbn [fst Net.write_file Net.files]. split; set_solver.
Qed.

Lemma download_all_success (dest : string) (max_retries : Z)
    (retry_wait : float) (pend : list (string * string * string)) :
  FetchSpec.never_fails network -> 1 <= max_retries ->
  forall w,
    let w1 := Prefetch.download_all network dest max_retries retry_wait pend w in
    Net.files w ⊆ Net.files w1
    /\ forall st fips url,
         In (st, fips, url) pend -> Prefetch.cache_file dest url ∈ Net.files w1.
Proof.
  intros Hok Hn. induction pend as [|[[st0 fips0] url0] rest IH]; intros w.
  - simpl. split; [reflexivity|]. intros ? ? ? [].
  - cbn [Prefetch.download_all].
    pose proof (download_success url0 dest max_retries retry_wait w Hok Hn)
      as [Hsub Hin].
    destruct (Net.download _ _ _ _ _ _) as [w1 res]. simpl in Hsub, Hin.
    destruct (IH w1) as [Hsub' Hall]. clear IH. split; [set_solver|].
    intros st fips url [[= <- <- <-]|Hrest].
    + set_solver.
    + now apply (Hall st fips url).
Qed.

Lemma pending_of_nil (dest : string) (no_cousub no_tracts : bool)
    (st : string) (w w' : Net.world) :
  Net.files w ⊆ Net.files w' ->
  (forall s fips url,
      In (s, fips, url) (Prefetch.pending_of dest no_cousub no_tracts w st) ->
      Prefetch.cache_file dest url ∈ Net.files w') ->
  Prefetch.pending_of dest no_cousub no_tracts w' st = [].
Proof.
  intros Hsub Hall.
  assert (Hone : forall url,
    (Net.exists_ w (Prefetch.cache_file dest url) = false ->
     In (st, Prefetch.fips_of st, url)
        (Prefetch.pending_of dest no_cousub no_tracts w st)) ->
    Net.exists_ w' (Prefetch.cache_file dest url) = true).
  { intros url H. unfold Net.exists_ in *. apply bool_decide_eq_true.
    destruct (bool_decide (Prefetch.cache_file dest url ∈ Net.files w)) eqn:E.
    - apply bool_decide_eq_true in E. clear -E Hsub. set_solver.
    - apply (Hall st (Prefetch.fips_of st) url). now apply H. }
  clear Hall. unfold Prefetch.pending_of in *. cbv zeta in *.
  destruct no_cousub, no_tracts; cbn [negb] in *; try reflexivity.
  - rewrite Hone; [reflexivity|]. intros ->. cbn [negb app]. now left.
  - rewrite Hone; [reflexivity|]. intros ->. cbn [negb app]. now left.
  - rewrite !Hone; [reflexivity| |].
    + intros ->. cbn [negb]. apply in_or_app. right. now left.
    + intros ->. cbn [negb]. apply in_or_app. left. now left.
Qed.

Lemma pending_urls_nil (dest : string) (no_cousub no_tracts : bool)
    (stusps : list string) (w w' : Net.world) :
  Net.files w ⊆ Net.files w' ->
  (forall st fips url,
      In (st, fips, url) (Prefetch.pending_urls dest no_cousub no_tracts stusps w) ->
      Prefetch.cache_file dest url ∈ Net.files w') ->
  Prefetch.pending_urls dest no_cousub no_tracts stusps w' = [].
Proof.
  intros Hsub. unfold Prefetch.pending_urls.
  induction stusps as [|st rest IH]; intros Hall; [reflexivity|].
  cbn [flat_map] in *. rewrite IH.
  - rewrite app_nil_r. apply (pending_of_nil _ _ _ _ w); [exact Hsub|].
    intros s f u H. apply (Hall s f u). apply in_or_app. now left.
  - intros s f u H. apply (Hall s f u). apply in_or_app. now right.
Qed.

(** X21: when every request is answered with status 200 and at least one
    attempt is allowed, one pass of the prefetcher caches every pending
    file and loses none, and nothing is pending after it.  The
    until-complete loop then ends: at once when nothing was pending, and
    otherwise after the pass and its sleep, by its [break] on the second
    turn when [retry_wait * 5] is a duration [time.sleep] accepts, and on
    what [time.sleep] raised at the end of the first turn when it is
    not. *)
Theorem until_complete_ends_after_a_good_pass (dest : string)
    (no_cousub no_tracts : bool) (stusps : list string) (max_retries : Z)
    (retry_wait : float) (w : Net.world) (fuel : nat) :
  FetchSpec.never_fails network -> 1 <= max_retries ->
  let pend := Prefetch.pending_urls dest no_cousub no_tracts stusps w in
  let w1 := Prefetch.download_all network dest max_retries retry_wait pend w in
  Net.files w ⊆ Net.files w1
  /\ (forall st fips url,
        In (st, fips, url) pend -> Net.exists_ w1 (Prefetch.cache_file dest url) = true)
  /\ Prefetch.pending_urls dest no_cousub no_tracts stusps w1 = []
  /\ (pend = [] ->
      Prefetch.until_complete network (S fuel) dest no_cousub no_tracts stusps
        max_retries retry_wait w = Some (w, inr tt))
  /\ (pend <> [] -> Net.sleepable retry_wait 5 = true ->
      exists w',
        Prefetch.until_complete network (S (S fuel)) dest no_cousub no_tracts
          stusps max_retries retry_wait w = Some (w', inr tt)
        /\ Net.files w' = Net.files w1
        /\ Net.trace w' = (Net.trace w1 ++ [Net.Sleep retry_wait 5])%list)
  /\ (pend <> [] ->
      forall e,
        Net.sleep_error retry_wait 5 = Some e ->
        Prefetch.until_complete network (S fuel) dest no_cousub no_tracts stusps
          max_retries retry_wait w = Some (w1, inl e)).
Proof.
  intros Hok Hn. cbv zeta.
  remember (Prefetch.pending_urls dest no_cousub no_tracts stusps w) as pend
    eqn:Ep.
  set (w1 := Prefetch.download_all network dest max_retries retry_wait pend w).
  destruct (download_all_success dest max_retries retry_wait pend Hok Hn w)
    as [Hsub Hall]. fold w1 in Hsub, Hall.
  assert (Hnil : Prefetch.pending_urls dest no_cousub no_tracts stusps w1 = []).
  { apply (pending_urls_nil _ _ _ _ w); [exact Hsub|]. now rewrite <- Ep. }
  split; [exact Hsub|]. split.
  { intros st fips url Hin. apply bool_decide_eq_true. now apply (Hall st fips). }
  split; [exact Hnil|]. split; [|split].
  - intros E. cbn [Prefetch.until_complete]. now rewrite <- Ep, E.
  - intros Hne Hs. cbn [Prefetch.until_complete]. rewrite <- Ep.
    destruct pend as [|p rest]; [contradiction|]. fold w1.
    rewrite sleep_ok by exact Hs.
    rewrite (pending_urls_files _ _ _ _ w1) by reflexivity.
    rewrite Hnil. eexists. split; [reflexivity|]. split; reflexivity.
  - intros Hne e He. cbn [Prefetch.until_complete]. rewrite <- Ep.
    destruct pend as [|p rest]; [contradiction|]. fold w1.
    now rewrite (sleep_raises _ _ _ e He).
Qed.

End PrefetchPasses.

Lemma until_complete_needs_progress_witness :
  let down := fun (_ : nat) (_ : Net.method) (_ : string) =>
    @inl exn Net.response (RequestException "ConnectionError") in
  let w0 := {| Net.files := ∅; Net.clock := 0; Net.trace := [] |} in
  let pend := Prefetch.pending_urls "/cache" false true ["FL"] w0 in
  let w1 := Prefetch.download_all down "/cache" 2 2%float pend w0 in
  pend = [("FL", "12", Urls.cousub_url "12")]
  /\ Net.files w1 = Net.files w0
  /\ Prefetch.pending_urls "/cache" false true ["FL"] w1 = pend
  /\ Prefetch.until_complete down 3 "/cache" false true ["FL"] 2 2%float w0 = None.
Proof.
  split; [vm_compute; reflexivity|].
  destruct (until_complete_needs_progress
              (fun _ _ _ => inl (RequestException "ConnectionError"))
              "/cache" false true ["FL"] 2 2%float
              {| Net.files := ∅; Net.clock := 0; Net.trace := [] |} 3)
    as (Hf & Hp & Hloop & _).
  - intros n m u. reflexivity.
  - vm_compute. discriminate.
  - split; [exact Hf|]. split; [exact Hp|]. apply Hloop. vm_compute. reflexivity.
Defined.

Lemma until_complete_ends_after_a_good_pass_witness :
  let up := fun (_ : nat) (_ : Net.method) (_ : string) =>
    @inr exn Net.response {| Net.status_code := 200; Net.content := "PK" |} in
  let w0 := {| Net.files := ∅; Net.clock := 0; Net.trace := [] |} in
  let pend := Prefetch.pending_urls "/cache" false false ["FL"] w0 in
  let w1 := Prefetch.download_all up "/cache" 1 2%float pend w0 in
  1 <= 1
  /\ Net.files w0 ⊆ Net.files w1
  /\ (forall st fips url,
        In (st, fips, url) pend -> Net.exists_ w1 (Prefetch.cache_file "/cache" url) = true)
  /\ Prefetch.pending_urls "/cache" false false ["FL"] w1 = []
  /\ exists w',
       Prefetch.until_complete up 2 "/cache" false false ["FL"] 1 2%float w0
       = Some (w', inr tt)
       /\ Net.files w' = Net.files w1
       /\ Net.trace w' = (Net.trace w1 ++ [Net.Sleep 2%float 5])%list.
Proof.
  split; [lia|].
  destruct (until_complete_ends_after_a_good_pass
              (fun _ _ _ => inr {| Net.status_code := 200; Net.content := "PK" |})
              "/cache" false false ["FL"] 1
              2%float {| Net.files := ∅; Net.clock := 0; Net.trace := [] |} 0)
    as (Hsub & Hex & Hnil & _ & Hend & _).
  - intros n m u. reflexivity.
  - lia.
  - split; [exact Hsub|]. split; [exact Hex|]. split; [exact Hnil|].
    apply Hend; [vm_compute; discriminate|vm_compute; reflexivity].
Defined.
